(** * imgv: a PPM (P3) viewer -- decoder and viewer state machine

    Shallow embedding of [src/main.c] and proofs about it.

    Conventions of the embedding.
    - [int] is a 32-bit two's complement integer, kept as a [Z] that is
      wrapped explicitly ([wrap_int]); [size_t] and [unsigned long] are
      64 bits (LP64).  Signed overflow is undefined in ISO C; the model takes
      the wrapped value, which is what the usual compilers produce.
    - A [FILE*] opened for reading is the list of characters still to be
      read.  [fscanf] follows the GNU C library (C11 mode): leading white
      space is skipped by every conversion used here, [%i] detects the base
      from a [0]/[0x] prefix, numbers are converted with [strtol]/[strtoul]
      (saturating) and then narrowed to the receiving object.
    - The heap maps block identifiers to objects: the blocks the program
      gets from its own calls of [malloc].  Identifiers are never reused, a
      byte that was never written is [None].
    - Everything the program does to the outside world ([fprintf], SDL
      calls, [free]) is appended to a trace, in program order; so is the
      store [*ppm_file = new_ppm_file] of [update_state].
    - [ppm_read_file] never closes the file it opens: the program has no
      [fclose].  The stream is not an object of the heap and the world
      keeps no record of it, so what is proved about blocks that are
      allocated, freed or left is about the blocks of [malloc] and says
      nothing of streams.  When the decoder fails after the pixel buffer
      was allocated, it does not free it: the buffer stays in the heap,
      reachable from nowhere.
    - What the outside world decides (contents of files, whether an
      allocation or an SDL call succeeds) is read from an environment. *)

From Stdlib Require Import ZArith Ascii String List Lia.
From stdpp Require Import base gmap list strings.

Local Open Scope Z_scope.

(** ** The C library: character classes and [fscanf] conversions *)

Module Libc.

Definition stream := list ascii.

Definition code (c : ascii) : Z := Z.of_N (N_of_ascii c).

(** [isspace] in the "C" locale: space, and [\t \n \v \f \r]. *)
Definition isspace (c : ascii) : bool :=
  (code c =? 32) || ((9 <=? code c) && (code c <=? 13)).

Definition isdigit (c : ascii) : bool :=
  (48 <=? code c) && (code c <=? 57).

Definition tolower (c : ascii) : Z :=
  if (65 <=? code c) && (code c <=? 90) then code c + 32 else code c.

Definition isxdigit (c : ascii) : bool :=
  isdigit c || ((97 <=? tolower c) && (tolower c <=? 102)).

Definition digit_value (c : ascii) : Z :=
  if isdigit c then code c - 48 else tolower c - 87.

Definition EOF : Z := -1.
Definition LONG_MIN : Z := - 2 ^ 63.
Definition LONG_MAX : Z := 2 ^ 63 - 1.
Definition ULONG_MAX : Z := 2 ^ 64 - 1.
Definition PTRDIFF_MAX : Z := 2 ^ 63 - 1.

(** Conversion of a [long] to [int], of an [int] to [size_t] and of an
    [unsigned long] to [uint8_t]. *)
Definition wrap_int (z : Z) : Z := (z + 2 ^ 31) mod 2 ^ 32 - 2 ^ 31.
Definition to_size_t (z : Z) : Z := z mod 2 ^ 64.
Definition to_uint8 (z : Z) : Z := z mod 256.

(** The outcome of one conversion specification. *)
Inductive conv (A : Type) : Type :=
  | Converted (a : A) (rest : stream)
  | MatchingFailure
  | InputFailure.
Arguments Converted {A} a rest.
Arguments MatchingFailure {A}.
Arguments InputFailure {A}.

(** "Eat whitespace": what every conversion used here does first. *)
Fixpoint eat_space (s : stream) : stream :=
  match s with
  | c :: s' => if isspace c then eat_space s' else s
  | [] => []
  end.

(** [%Ns]: up to [width] characters that are not white space. *)
Fixpoint read_nonspace (width : nat) (s : stream) : list ascii * stream :=
  match width with
  | O => ([], s)
  | S w =>
      match s with
      | [] => ([], [])
      | c :: s' =>
          if isspace c then ([], s)
          else let '(str, rest) := read_nonspace w s' in (c :: str, rest)
      end
  end.

Definition scan_s (width : nat) (s : stream) : conv (list ascii) :=
  match eat_space s with
  | [] => InputFailure
  | c :: s' =>
      let '(str, rest) := read_nonspace width (c :: s') in Converted str rest
  end.

(** Numbers.  The digits accepted in a base, collected into the work
    buffer as long as they last. *)
Definition digit_in (base : Z) (c : ascii) : bool :=
  if base =? 16 then isxdigit c else isdigit c && (code c - 48 <? base).

Fixpoint read_digits (base : Z) (s : stream) : list ascii * stream :=
  match s with
  | c :: s' =>
      if digit_in base c
      then let '(ds, rest) := read_digits base s' in (c :: ds, rest)
      else ([], s)
  | [] => ([], [])
  end.

(** The magnitude [strtol] and [strtoul] accumulate. *)
Definition digits_value (base : Z) (ds : list ascii) : Z :=
  fold_left (fun acc c => acc * base + digit_value c) ds 0.

Definition strtol (negative : bool) (base : Z) (ds : list ascii) : Z :=
  let m := digits_value base ds in
  if negative then (if m >? 2 ^ 63 then LONG_MIN else - m)
  else (if m >? LONG_MAX then LONG_MAX else m).

Definition strtoul (negative : bool) (base : Z) (ds : list ascii) : Z :=
  let m := digits_value base ds in
  if m >? ULONG_MAX then ULONG_MAX
  else if negative then (- m) mod 2 ^ 64 else m.

(** The sign, then the indication of the base, then the digits.  With
    [base0 = 0] ([%i]) a leading [0x] selects base 16 and any other leading
    [0] base 8; the [x] is read but does not enter the work buffer. *)
Definition read_sign (s : stream) : option bool * stream :=
  match s with
  | c :: s' =>
      if code c =? 45 then (Some true, s')
      else if code c =? 43 then (Some false, s')
      else (None, s)
  | [] => (None, [])
  end.

Definition read_base (base0 : Z) (s : stream) : list ascii * Z * stream :=
  match s with
  | c :: s' =>
      if code c =? 48 then
        match s' with
        | x :: s'' =>
            if tolower x =? 120 then
              if base0 =? 0 then ([c], 16, s'')
              else if base0 =? 16 then ([c], 16, s'')
              else ([c], base0, s')
            else ([c], if base0 =? 0 then 8 else base0, s')
        | [] => ([c], if base0 =? 0 then 8 else base0, s')
        end
      else ([], if base0 =? 0 then 10 else base0, s)
  | [] => ([], if base0 =? 0 then 10 else base0, [])
  end.

Definition scan_number (signed : bool) (base0 : Z) (s : stream) : conv Z :=
  match eat_space s with
  | [] => InputFailure
  | c :: s0 =>
      let '(sign, s1) := read_sign (c :: s0) in
      let '(zero, base, s2) := read_base base0 s1 in
      let '(ds, rest) := read_digits base s2 in
      match zero ++ ds with
      | [] => MatchingFailure
      | buf =>
          let negative := match sign with Some true => true | _ => false end in
          Converted
            (if signed then strtol negative base buf
             else strtoul negative base buf)
            rest
      end
  end.

(** [%i] into an [int] and [%hhu] into a [uint8_t]. *)
Definition scan_i (s : stream) : conv Z :=
  match scan_number true 0 s with
  | Converted n rest => Converted (wrap_int n) rest
  | MatchingFailure => MatchingFailure
  | InputFailure => InputFailure
  end.

Definition scan_hhu (s : stream) : conv Z :=
  match scan_number false 10 s with
  | Converted n rest => Converted (to_uint8 n) rest
  | MatchingFailure => MatchingFailure
  | InputFailure => InputFailure
  end.

(** What [fscanf] returns when a conversion fails after [done]
    assignments: [EOF] for an input failure before the first one. *)
Definition scanf_stop {A} (done : Z) (c : conv A) : Z :=
  match c with
  | InputFailure => if done =? 0 then EOF else done
  | _ => done
  end.

End Libc.

(** ** The viewer: state, effects and the functions of [main.c] *)

Module Imgv.
Import Libc.

Definition block := positive.

(** [struct PPMFile]; [path] and [magic_number] are kept as the strings
    they hold, [data] as the block the pointer designates. *)
Record PPMFile : Type := {
  path : string;
  magic_number : list ascii;
  width : Z;
  height : Z;
  max_color : Z;
  data : block
}.

Inductive obj : Type :=
  | Bytes (bs : list (option Z))
  | Struct (f : PPMFile).

Inductive channel : Type := stdout | stderr.

Inductive printf_arg : Type :=
  | ArgStr (s : string)
  | ArgChars (s : list ascii)
  | ArgInt (z : Z)
  | ArgSdlError.

Inductive sdl_call : Type :=
  | SDL_Init
  | SDL_CreateWindow (title : string) (w h : Z)
  | SDL_EventState
  | SDL_CreateRenderer
  | SDL_CreateTexture (w h : Z)
  | SDL_LockTexture
  | TextureMemcpy (bytes : list (option Z))
  | SDL_UnlockTexture
  | SDL_RenderCopy (x y w h : Z)
  | SDL_DestroyTexture
  | SDL_SetRenderDrawColor (r g b a : Z)
  | SDL_RenderClear
  | SDL_RenderPresent
  | SDL_SetWindowTitle (title : string)
  | SDL_SetWindowSize (w h : Z)
  | SDL_free (file : string).

(** [Store_ppm_file] is the store [*ppm_file = new_ppm_file] through the
    pointer [update_state] is given (line 174). *)
Inductive event : Type :=
  | Fprintf (ch : channel) (fmt : string) (args : list printf_arg)
  | Free (b : block)
  | Store_ppm_file (p : block)
  | Sdl (c : sdl_call).

Inductive SDL_Event : Type :=
  | SDL_QUIT
  | SDL_KEYDOWN (sym : Z)
  | SDL_DROPFILE (file : string)
  | SDL_OTHER.

Definition SDLK_ESCAPE : Z := 27.
Definition SDLK_q : Z := 113.
Definition EXIT_SUCCESS : Z := 0.
Definition EXIT_FAILURE : Z := 1.

Record world : Type := {
  heap : gmap block obj;
  next : block;
  trace : list event
}.

(** What the program cannot decide itself. *)
Record env : Type := {
  fopen : string -> option stream;
  malloc_succeeds : block -> Z -> bool;
  sdl_succeeds : list event -> sdl_call -> bool
}.

(** A computation returns, leaves through [exit], or has no defined
    behaviour (a store outside a block, a [free] of a dead block). *)
Inductive result (A : Type) : Type :=
  | Ret (a : A) (w : world)
  | Exit (status : Z) (w : world)
  | Undefined.
Arguments Ret {A} a w.
Arguments Exit {A} status w.
Arguments Undefined {A}.

Definition M (A : Type) : Type := world -> result A.

Definition ret {A} (a : A) : M A := fun w => Ret a w.

Definition bind {A B} (m : M A) (k : A -> M B) : M B := fun w =>
  match m w with
  | Ret a w' => k a w'
  | Exit status w' => Exit status w'
  | Undefined => Undefined
  end.

#[export] Instance M_ret : MRet M := @ret.
#[export] Instance M_bind : MBind M := fun A B k m => bind m k.

Definition exit {A} (status : Z) : M A := fun w => Exit status w.

Definition emit (e : event) : M unit := fun w =>
  Ret tt {| heap := heap w; next := next w; trace := trace w ++ [e] |}.

Definition nl : string := String (ascii_of_nat 10) EmptyString.
Definition line (s : string) : string := String.append s nl.
(** The messages of [main] end in a newline followed by a full stop. *)
Definition line_dot (s : string) : string := String.append (line s) ".".

Definition fprintf (ch : channel) (fmt : string) (args : list printf_arg) : M unit :=
  emit (Fprintf ch fmt args).

Definition NUL : ascii := ascii_of_nat 0.
Definition char_at (s : list ascii) (i : nat) : ascii := nth i s NUL.

(** *** Heap operations *)

Definition store_byte (b : block) (i : Z) (v : Z) : M unit := fun w =>
  match heap w !! b with
  | Some (Bytes bs) =>
      if (0 <=? i) && (i <? Z.of_nat (length bs))
      then Ret tt {| heap := <[b := Bytes (<[Z.to_nat i := Some v]> bs)]> (heap w);
                     next := next w; trace := trace w |}
      else Undefined
  | _ => Undefined
  end.

Definition store_struct (b : block) (f : PPMFile) : M unit := fun w =>
  match heap w !! b with
  | Some _ => Ret tt {| heap := <[b := Struct f]> (heap w);
                        next := next w; trace := trace w |}
  | None => Undefined
  end.

Definition load_struct (b : block) : M PPMFile := fun w =>
  match heap w !! b with
  | Some (Struct f) => Ret f w
  | _ => Undefined
  end.

Definition load_bytes (b : block) (n : Z) : M (list (option Z)) := fun w =>
  match heap w !! b with
  | Some (Bytes bs) =>
      if n <=? Z.of_nat (length bs) then Ret (take (Z.to_nat n) bs) w
      else Undefined
  | _ => Undefined
  end.

Definition free (b : block) : M unit := fun w =>
  match heap w !! b with
  | Some _ => Ret tt {| heap := delete b (heap w); next := next w;
                        trace := trace w ++ [Free b] |}
  | None => Undefined
  end.

(** *** The calls of [fscanf] in [ppm_read_file] *)

(** [fscanf(f, "%2s", magic_number)] *)
Definition fscanf_2s (f : stream) : Z * list ascii * stream :=
  match scan_s 2 f with
  | Converted str rest => (1, str, rest)
  | c => (scanf_stop 0 c, [], f)
  end.

(** [fscanf(f, "%i %i", &width, &height)] *)
Definition fscanf_i_i (f : stream) (width height : Z) : Z * Z * Z * stream :=
  match scan_i f with
  | Converted w f1 =>
      match scan_i f1 with
      | Converted h f2 => (2, w, h, f2)
      | c => (scanf_stop 1 c, w, height, f1)
      end
  | c => (scanf_stop 0 c, width, height, f)
  end.

(** [fscanf(f, "%i", &max_color)] *)
Definition fscanf_i (f : stream) (max_color : Z) : Z * Z * stream :=
  match scan_i f with
  | Converted m f1 => (1, m, f1)
  | c => (scanf_stop 0 c, max_color, f)
  end.

(** [fscanf(f, "%hhu %hhu %hhu", &r, &g, &b)] *)
Definition fscanf_hhu3 (f : stream) (r g b : Z) : Z * Z * Z * Z * stream :=
  match scan_hhu f with
  | Converted r' f1 =>
      match scan_hhu f1 with
      | Converted g' f2 =>
          match scan_hhu f2 with
          | Converted b' f3 => (3, r', g', b', f3)
          | c => (scanf_stop 2 c, r', g', b, f2)
          end
      | c => (scanf_stop 1 c, r', g, b, f1)
      end
  | c => (scanf_stop 0 c, r, g, b, f)
  end.

Section Program.

Context (E : env).

(** [malloc]: a fresh block of [size] bytes, none of them written. *)
Definition malloc (size : Z) : M (option block) := fun w =>
  if (size <=? PTRDIFF_MAX) && malloc_succeeds E (next w) size
  then Ret (Some (next w))
           {| heap := <[next w := Bytes (replicate (Z.to_nat size) None)]> (heap w);
              next := Pos.succ (next w); trace := trace w |}
  else Ret None w.

(** [sizeof(struct PPMFile)]: two pointers, three [int], three [char]
    and one byte of padding. *)
Definition sizeof_PPMFile : Z := 32.

(** An SDL call that reports success or failure. *)
Definition sdl (c : sdl_call) : M bool := fun w =>
  Ret (sdl_succeeds E (trace w) c)
      {| heap := heap w; next := next w; trace := trace w ++ [Sdl c] |}.

(** An SDL call whose result the program does not look at. *)
Definition sdl_ (c : sdl_call) : M unit := emit (Sdl c).

(** *** [ppm_read_file], lines 14-90 *)

(** The [for] loop of lines 57-74 with [n] iterations left, [i] the loop
    variable: [Some f] is the stream after the loop, [None] the [return
    NULL] of line 64. *)
Fixpoint pixel_loop (n : nat) (i : Z) (data : block) (open_file : stream)
  : M (option stream) :=
  match n with
  | O => ret (Some open_file)
  | S n' =>
      let '(k, r, g, b, open_file') := fscanf_hhu3 open_file 0 0 0 in
      if negb (k =? 3) then
        fprintf stderr (line "Error reading pixel data.") [];;
        ret None
      else
        store_byte data (wrap_int (i * 4)) 255;;
        store_byte data (wrap_int (wrap_int (i * 4) + 1)) b;;
        store_byte data (wrap_int (wrap_int (i * 4) + 2)) g;;
        store_byte data (wrap_int (wrap_int (i * 4) + 3)) r;;
        pixel_loop n' (i + 1) data open_file'
  end.

Definition ppm_read_file (path : string) : M (option block) :=
  match fopen E path with
  | None =>
      fprintf stderr (line "Failed to open file %s.") [ArgStr path];;
      ret None
  | Some open_file =>
      let '(k, magic_number, open_file) := fscanf_2s open_file in
      if negb (k =? 1)
         || negb (code (char_at magic_number 0) =? 80)
         || negb (code (char_at magic_number 1) =? 51)
      then
        fprintf stderr (line "File is not in PPM P3 format.") [];;
        ret None
      else
      let '(k, width, height, open_file) := fscanf_i_i open_file 0 0 in
      if negb (k =? 2) then
        fprintf stderr (line "Error reading image dimensions.") [];;
        ret None
      else
      let '(k, max_color, open_file) := fscanf_i open_file 0 in
      if negb (k =? 1) then
        fprintf stderr (line "Error reading max color.") [];;
        ret None
      else
      let num_pixels := wrap_int (width * height) in
      data ← malloc (to_size_t (wrap_int (num_pixels * 4)));
      match data with
      | None =>
          fprintf stderr (line "Failed to allocate image pixel data array.") [];;
          ret None
      | Some data =>
          after ← pixel_loop (Z.to_nat num_pixels) 0 data open_file;
          match after with
          | None => ret None
          | Some _ =>
              ppm_file ← malloc sizeof_PPMFile;
              match ppm_file with
              | None =>
                  fprintf stderr (line "Failed to allocate PPMFile struct.") [];;
                  ret None
              | Some ppm_file =>
                  store_struct ppm_file
                    {| path := path; magic_number := magic_number;
                       width := width; height := height;
                       max_color := max_color; data := data |};;
                  ret (Some ppm_file)
              end
          end
      end
  end.

(** *** [ppm_destroy] and [ppm_print_details], lines 92-102 *)

Definition ppm_destroy (file : block) : M unit :=
  f ← load_struct file;
  free (data f);;
  free file.

Definition ppm_print_details (file : block) : M unit :=
  f ← load_struct file;
  fprintf stdout (line "%s") [ArgStr (path f)];;
  fprintf stdout (line "Magic number: %s") [ArgChars (magic_number f)];;
  fprintf stdout (line "Size (WxH): %ix%i") [ArgInt (width f); ArgInt (height f)];;
  fprintf stdout (line "Max color: %i") [ArgInt (max_color f)].

(** *** [sdl_render_once], lines 104-161 *)

Definition sdl_render_once (ppm_file : option block) : M unit :=
  match ppm_file with
  | Some p =>
      f ← load_struct p;
      texture ← sdl (SDL_CreateTexture (width f) (height f));
      if negb texture then
        fprintf stderr (line "Failed to create SDL texture: %s.") [ArgSdlError];;
        exit EXIT_FAILURE
      else
      locked ← sdl SDL_LockTexture;
      if negb locked then
        fprintf stderr (line "Failed to lock SDL texture: %s.") [ArgSdlError];;
        exit EXIT_FAILURE
      else
      bytes ← load_bytes (data f)
                 (to_size_t (wrap_int (wrap_int (width f * height f) * 4)));
      sdl_ (TextureMemcpy bytes);;
      sdl_ SDL_UnlockTexture;;
      sdl_ (SDL_RenderCopy 0 0 (width f) (height f));;
      sdl_ SDL_DestroyTexture
  | None =>
      sdl_ (SDL_SetRenderDrawColor 0 0 255 255);;
      sdl_ SDL_RenderClear
  end;;
  sdl_ SDL_RenderPresent.

(** *** [update_state], lines 163-182

    The value of [*ppm_file] is passed in and its new value is returned
    next to the [bool]; the store itself is recorded in the trace. *)
Definition update_state (new_image_path : string) (ppm_file : option block)
  : M (bool * option block) :=
  new_ppm_file ← ppm_read_file new_image_path;
  match new_ppm_file with
  | None => ret (false, ppm_file)
  | Some new_ppm_file =>
      match ppm_file with
      | Some old => ppm_destroy old
      | None => ret tt
      end;;
      emit (Store_ppm_file new_ppm_file);;
      let ppm_file := Some new_ppm_file in
      f ← load_struct new_ppm_file;
      sdl_ (SDL_SetWindowTitle (path f));;
      sdl_ (SDL_SetWindowSize (width f) (height f));;
      ppm_print_details new_ppm_file;;
      ret (true, ppm_file)
  end.

(** *** [main], lines 184-272 *)

(** Lines 185-231: everything before the event loop. *)
Definition main_startup (argv : list string) : M (option block) :=
  ppm_file ←
    match argv with
    | _ :: argv1 :: _ =>
        ppm_file ← ppm_read_file argv1;
        match ppm_file with
        | Some p => ppm_print_details p
        | None => ret tt
        end;;
        ret ppm_file
    | _ => ret None
    end;
  init ← sdl SDL_Init;
  if negb init then
    fprintf stderr (line_dot "Failed to initialise SDL: %s") [ArgSdlError];;
    exit EXIT_FAILURE
  else
  title_size ←
    match ppm_file with
    | Some p => f ← load_struct p; ret (path f, width f, height f)
    | None => ret ("imgv"%string, 500, 500)
    end;
  let '(window_title, window_width, window_height) := title_size in
  window ← sdl (SDL_CreateWindow window_title window_width window_height);
  if negb window then
    fprintf stderr (line_dot "Failed to create SDL window: %s") [ArgSdlError];;
    exit EXIT_FAILURE
  else
  sdl_ SDL_EventState;;
  renderer ← sdl SDL_CreateRenderer;
  if negb renderer then
    fprintf stderr (line_dot "Failed to create SDL renderer: %s") [ArgSdlError];;
    exit EXIT_FAILURE
  else
  sdl_render_once ppm_file;;
  ret ppm_file.

(** The [switch] of lines 240-262 on one event; the state of the loop is
    [ppm_file] and [running]. *)
Definition handle_event (ev : SDL_Event) (st : option block * bool)
  : M (option block * bool) :=
  let '(ppm_file, running) := st in
  match ev with
  | SDL_QUIT => ret (ppm_file, false)
  | SDL_KEYDOWN sym =>
      if (sym =? SDLK_ESCAPE) || (sym =? SDLK_q)
      then ret (ppm_file, false)
      else ret (ppm_file, running)
  | SDL_DROPFILE file =>
      r ← update_state file ppm_file;
      let '(updated, ppm_file) := r in
      (if (updated : bool) then sdl_render_once ppm_file else ret tt);;
      sdl_ (SDL_free file);;
      ret (ppm_file, running)
  | SDL_OTHER => ret (ppm_file, running)
  end.

(** The inner loop of line 239 over the events [SDL_PollEvent] hands out
    before it returns 0. *)
Fixpoint poll_events (evs : list SDL_Event) (st : option block * bool)
  : M (option block * bool) :=
  match evs with
  | [] => ret st
  | ev :: evs' => st' ← handle_event ev st; poll_events evs' st'
  end.

(** The outer loop of line 236 over the successive batches of events.
    [None]: the batches ran out while [running] was still true. *)
Fixpoint event_loop (batches : list (list SDL_Event)) (ppm_file : option block)
  : M (option Z) :=
  match batches with
  | [] => ret None
  | evs :: batches' =>
      st ← poll_events evs (ppm_file, true);
      let '(ppm_file, running) := st in
      if (running : bool) then event_loop batches' ppm_file
      else ret (Some EXIT_SUCCESS)
  end.

Definition main (argv : list string) (batches : list (list SDL_Event))
  : M (option Z) :=
  ppm_file ← main_startup argv;
  event_loop batches ppm_file.

End Program.

End Imgv.

(** ** Vocabulary of the specification

    The text of a P3 file as tokens, the worlds and events the statements
    talk about, and the examples they are tried on. *)

Module Spec.
Import Libc Imgv.

(** *** The text of a P3 file

    A token is a run of white space, an optional sign and a run of decimal
    digits; a text is the tag followed by tokens and by whatever [trailing]
    characters come after the last one. *)

Definition blank (sp : list ascii) : bool :=
  match sp with [] => false | _ => forallb isspace sp end.

Definition decimal (ds : list ascii) : bool :=
  match ds with [] => false | _ => forallb isdigit ds end.

(** Nothing, or something that does not go on with the number before it. *)
Definition delimited (rest : stream) : bool :=
  match rest with [] => true | c :: _ => negb (isdigit c) end.

(** [sign]: [Some true] is a minus, [Some false] a plus. *)
Record token : Type := { sep : list ascii; sign : option bool; digits : list ascii }.

Definition sign_text (sg : option bool) : list ascii :=
  match sg with
  | None => []
  | Some true => ["-"%char]
  | Some false => ["+"%char]
  end.

Definition negative (sg : option bool) : bool :=
  match sg with Some true => true | _ => false end.

Definition token_text (t : token) : list ascii :=
  sep t ++ sign_text (sign t) ++ digits t.

Definition token_ok (t : token) : bool := blank (sep t) && decimal (digits t).

Definition nonzero_head (ds : list ascii) : bool :=
  match ds with c :: _ => negb (code c =? 48) | [] => false end.

(** The number a token denotes, read in base ten. *)
Definition magnitude (t : token) : Z := digits_value 10 (digits t).

Definition token_value (t : token) : Z :=
  if negative (sign t) then - magnitude t else magnitude t.

(** Width, height and maximum: unsigned, no leading zero. *)
Definition header_token (t : token) : bool :=
  token_ok t && match sign t with None => true | Some _ => false end
  && nonzero_head (digits t).

(** The header of an image whose size [int] arithmetic can express. *)
Definition header_ok (tw th tm : token) : Prop :=
  header_token tw = true /\ header_token th = true /\ header_token tm = true /\
  magnitude tw * magnitude th * 4 < 2 ^ 31 /\ magnitude tm < 2 ^ 31.

(** What [%hhu] stores for a token: the number [strtoul] returns, reduced
    modulo 256. *)
Definition sample_value (t : token) : Z :=
  to_uint8 (strtoul (negative (sign t)) 10 (digits t)).


Definition pixel_tokens : Type := token * token * token.

Definition pixel_text (p : pixel_tokens) : list ascii :=
  let '(r, g, b) := p in token_text r ++ token_text g ++ token_text b.

Definition pixel_ok (p : pixel_tokens) : bool :=
  let '(r, g, b) := p in token_ok r && token_ok g && token_ok b.


Definition pixel_value (p : pixel_tokens) : Z * Z * Z :=
  let '(r, g, b) := p in
  (sample_value r, sample_value g, sample_value b).


Definition pixels_text (px : list pixel_tokens) : list ascii :=
  flat_map pixel_text px.

Definition ppm_text (tw th tm : token) (px : list pixel_tokens) (trailing : stream)
  : stream :=
  "P"%char :: "3"%char ::
  token_text tw ++ token_text th ++ token_text tm ++ pixels_text px ++ trailing.

(** Where a pixel should be: fewer than three tokens and then [junk]. *)
Definition partial_text (ts : list token) (junk : stream) : stream :=
  flat_map token_text ts ++ junk.

(** What follows the white space, and a sign if there is one, starts a
    number. *)
Definition numeric_start (f : stream) : bool :=
  match (read_sign (eat_space f)).2 with
  | c :: _ => isdigit c
  | [] => false
  end.

(** *** The pixel section as a function of the stream

    One triplet, and the first [n] triplets: the pixels that could be read
    and the stream after them, [None] when a triplet could not be read. *)

Definition scan_triplet (f : stream) : option (Z * Z * Z * stream) :=
  match scan_hhu f with
  | Converted r f1 =>
      match scan_hhu f1 with
      | Converted g f2 =>
          match scan_hhu f2 with
          | Converted b f3 => Some (r, g, b, f3)
          | _ => None
          end
      | _ => None
      end
  | _ => None
  end.

Fixpoint scan_triplets (n : nat) (f : stream) : list (Z * Z * Z) * option stream :=
  match n with
  | O => ([], Some f)
  | S n' =>
      match scan_triplet f with
      | None => ([], None)
      | Some (r, g, b, f') =>
          let '(px, after) := scan_triplets n' f' in ((r, g, b) :: px, after)
      end
  end.

(** The four bytes of a pixel, and of a pixel given by its tokens. *)
Definition cell (p : Z * Z * Z) : list (option Z) :=
  let '(r, g, b) := p in [Some 255; Some b; Some g; Some r].

Definition stored (p : pixel_tokens) : list (option Z) :=
  let '(r, g, b) := p in
  [Some 255; Some (sample_value b); Some (sample_value g); Some (sample_value r)].

(** *** Worlds *)

Definition set_heap (h : gmap block obj) (w : world) : world :=
  {| heap := h; next := next w; trace := trace w |}.

Definition add_trace (es : list event) (w : world) : world :=
  {| heap := heap w; next := next w; trace := trace w ++ es |}.

(** Every block in use was handed out by [malloc]. *)
Definition world_ok (w : world) : Prop :=
  forall b o, heap w !! b = Some o -> (b < next w)%positive.

(** Every object of [w] is in [w'], unchanged. *)
Definition preserved (w w' : world) : Prop :=
  forall b o, heap w !! b = Some o -> heap w' !! b = Some o.

(** A decoded image at [p]: the struct, its bytes, in two distinct blocks. *)
Definition image_at (w : world) (p : block) (f : PPMFile) (bs : list (option Z)) : Prop :=
  heap w !! p = Some (Struct f) /\
  heap w !! data f = Some (Bytes bs) /\
  p <> data f.

(** The number of bytes [sdl_render_once] copies, and the decoder
    allocates, for an image. *)
Definition buffer_size (f : PPMFile) : Z :=
  to_size_t (wrap_int (wrap_int (width f * height f) * 4)).

(** The world after the pixel buffer was allocated and [px] was stored
    into it, out of [n] pixels. *)
Definition with_pixels (n : nat) (px : list (Z * Z * Z)) (w : world) : world :=
  {| heap := <[next w := Bytes (flat_map cell px
                                 ++ replicate (4 * (n - length px)) None)]> (heap w);
     next := Pos.succ (next w);
     trace := trace w |}.

(** The image a well-formed text decodes to. *)
Definition shown_image (path : string) (tw th tm : token) (d : block) : PPMFile :=
  {| path := path; magic_number := ["P"%char; "3"%char];
     width := magnitude tw; height := magnitude th;
     max_color := magnitude tm; data := d |}.

Definition outcome_trace {A} (r : result A) : list event :=
  match r with
  | Ret _ w | Exit _ w => trace w
  | Undefined => []
  end.

(** *** Events *)

Definition format_error : event :=
  Fprintf stderr (line "File is not in PPM P3 format.") [].

Definition dimension_error : event :=
  Fprintf stderr (line "Error reading image dimensions.") [].

Definition pixel_error : event :=
  Fprintf stderr (line "Error reading pixel data.") [].

Definition struct_error : event :=
  Fprintf stderr (line "Failed to allocate PPMFile struct.") [].

(** What [update_state] does once the new image is decoded: for the old
    image, if there is one, and for the new one. *)
Definition destroy_events (a : block) (fa : PPMFile) : list event :=
  [Free (data fa); Free a].

Definition details_events (f : PPMFile) : list event :=
  [Fprintf stdout (line "%s") [ArgStr (path f)];
   Fprintf stdout (line "Magic number: %s") [ArgChars (magic_number f)];
   Fprintf stdout (line "Size (WxH): %ix%i") [ArgInt (width f); ArgInt (height f)];
   Fprintf stdout (line "Max color: %i") [ArgInt (max_color f)]].

Definition adoption_events (p : block) (f : PPMFile) : list event :=
  [Store_ppm_file p;
   Sdl (SDL_SetWindowTitle (path f));
   Sdl (SDL_SetWindowSize (width f) (height f))] ++ details_events f.



(** The two frames of the presenter. *)
Definition blue_frame : list event :=
  [Sdl (SDL_SetRenderDrawColor 0 0 255 255); Sdl SDL_RenderClear;
   Sdl SDL_RenderPresent].

Definition image_frame (f : PPMFile) (bytes : list (option Z)) : list event :=
  [Sdl (SDL_CreateTexture (width f) (height f)); Sdl SDL_LockTexture;
   Sdl (TextureMemcpy bytes); Sdl SDL_UnlockTexture;
   Sdl (SDL_RenderCopy 0 0 (width f) (height f)); Sdl SDL_DestroyTexture;
   Sdl SDL_RenderPresent].

Definition is_present (e : event) : bool :=
  match e with Sdl SDL_RenderPresent => true | _ => false end.

Definition presents (es : list event) : nat := length (List.filter is_present es).

Definition default_window : sdl_call := SDL_CreateWindow "imgv" 500 500.

(** *** Partial correctness, for the lemmas on what a run leaves alone *)

Definition wp {A} (m : M A) (w : world) (Q : A -> world -> Prop) : Prop :=
  match m w with
  | Ret a w' => Q a w'
  | Exit _ _ => False
  | Undefined => True
  end.

(** What a run of the pixel loop can change: the bytes of [d] and, on a
    failed read, one line on [stderr]. *)
Definition touches (d : block) (errs : list event) (w w' : world) : Prop :=
  next w' = next w /\
  trace w' = trace w ++ errs /\
  (forall b, b <> d -> heap w' !! b = heap w !! b) /\
  (forall bs, heap w !! d = Some (Bytes bs) ->
              exists bs', heap w' !! d = Some (Bytes bs')).

(** What a run of [ppm_read_file] that returns has done. *)
Definition read_post (path : string) (w : world) (r : option block) (w' : world) : Prop :=
  world_ok w' /\ preserved w w' /\
  match r with
  | None => exists fmt args, trace w' = trace w ++ [Fprintf stderr fmt args]
  | Some p =>
      trace w' = trace w /\
      exists f bs, image_at w' p f bs /\ Imgv.path f = path /\
                   heap w !! p = None /\ heap w !! data f = None
  end.

(** *** Examples *)

Definition text_of (s : string) : stream := list_ascii_of_string s.

Definition tok (sp ds : string) : token :=
  {| sep := text_of sp; sign := None; digits := text_of ds |}.

Definition signed_tok (sp : string) (neg : bool) (ds : string) : token :=
  {| sep := text_of sp; sign := Some neg; digits := text_of ds |}.

(** An environment with the given files in which every allocation and
    every SDL call succeeds. *)
Fixpoint lookup_file (files : list (string * stream)) (p : string) : option stream :=
  match files with
  | [] => None
  | (name, content) :: files' =>
      if String.eqb name p then Some content else lookup_file files' p
  end.

Definition friendly (files : list (string * stream)) : env :=
  {| fopen := lookup_file files;
     malloc_succeeds := fun _ _ => true;
     sdl_succeeds := fun _ _ => true |}.

Definition empty_world : world := {| heap := ∅; next := 1%positive; trace := [] |}.

(** A world with one image in it: a single pixel, at blocks 1 and 2. *)
Definition one_image : world :=
  {| heap := <[1%positive := Bytes [Some 255; Some 3; Some 2; Some 1]]>
               (<[2%positive := Struct {| path := "old.ppm";
                                          magic_number := text_of "P3";
                                          width := 1; height := 1;
                                          max_color := 255; data := 1%positive |}]> ∅);
     next := 3%positive;
     trace := [] |}.



Definition wrapping_pixels : list pixel_tokens :=
  [(signed_tok " " true "1", tok " " "256", tok " " "300")].

Definition two_files : env :=
  friendly [("a.ppm"%string, text_of "P3 1 1 255 1 2 3");
            ("b.ppm"%string, text_of "P3 1 1 255 4 5 6")].

End Spec.

(** ** Vocabulary of the further properties

    The outcomes of the decoder in full, the state the viewer keeps
    between two events, and the start of [main]. *)

Module Outcomes.
Import Libc Imgv Spec.

(** *** What a run of the decoder leaves *)

Definition open_error (path : string) : event :=
  Fprintf stderr (line "Failed to open file %s.") [ArgStr path].

Definition max_color_error : event :=
  Fprintf stderr (line "Error reading max color.") [].

Definition allocation_error : event :=
  Fprintf stderr (line "Failed to allocate image pixel data array.") [].

(** The lines of lines 18-53, printed before there is a pixel buffer, and
    those of lines 63 and 79, printed when there is one. *)
Definition early_reports (path : string) : list event :=
  [open_error path; format_error; dimension_error; max_color_error;
   allocation_error].

Definition late_reports : list event := [pixel_error; struct_error].

(** [num_pixels], line 47. *)
Definition num_pixels (f : PPMFile) : Z := wrap_int (width f * height f).

(** The world after the pixel buffer was allocated, with [bs] in it, and
    after the struct was allocated and filled in as well. *)
Definition with_buffer (bs : list (option Z)) (w : world) : world :=
  {| heap := <[next w := Bytes bs]> (heap w);
     next := Pos.succ (next w);
     trace := trace w |}.

Definition with_image (f : PPMFile) (bs : list (option Z)) (w : world) : world :=
  {| heap := <[Pos.succ (next w) := Struct f]> (<[next w := Bytes bs]> (heap w));
     next := Pos.succ (Pos.succ (next w));
     trace := trace w |}.

(** The buffer after [px] was stored, out of [n] pixels. *)
Definition partly_written (n : nat) (px : list (Z * Z * Z)) : list (option Z) :=
  flat_map cell px ++ replicate (4 * (n - length px)) None.

(** The header of [text] as the three calls of [fscanf] of lines 25-42
    read it, and the stream [f4] left for the pixels.  Of [f] only the
    width, the height and the maximum count. *)
Definition header_scans (text : stream) (f : PPMFile) (f4 : stream) : Prop :=
  exists f1 f2 f3,
    eat_space text = "P"%char :: "3"%char :: f1 /\
    scan_i f1 = Converted (width f) f2 /\
    scan_i f2 = Converted (height f) f3 /\
    scan_i f3 = Converted (max_color f) f4.

Definition header (wd ht mc : Z) : PPMFile :=
  {| path := EmptyString; magic_number := []; width := wd; height := ht;
     max_color := mc; data := 1%positive |}.

(** The same as a function, to compute with. *)
Definition scan_header (text : stream) : option (Z * Z * Z * stream) :=
  match eat_space text with
  | p :: t :: f1 =>
      if (code p =? 80) && (code t =? 51) then
        match scan_i f1 with
        | Converted wd f2 =>
            match scan_i f2 with
            | Converted ht f3 =>
                match scan_i f3 with
                | Converted mc f4 => Some (wd, ht, mc, f4)
                | _ => None
                end
            | _ => None
            end
        | _ => None
        end
      else None
  | _ => None
  end.

(** The struct [ppm_read_file] fills in for a header, lines 83-88. *)
Definition decoded (path : string) (f : PPMFile) (d : block) : PPMFile :=
  {| path := path; magic_number := ["P"%char; "3"%char];
     width := width f; height := height f; max_color := max_color f; data := d |}.

(** What a run of [ppm_read_file] that returns has done, in full. *)
Definition read_outcome (E : env) (path : string) (w : world) (r : option block)
  (w' : world) : Prop :=
  match r with
  | None =>
      (exists e, In e (early_reports path) /\ w' = add_trace [e] w) \/
      (exists e bs, In e late_reports /\ w' = add_trace [e] (with_buffer bs w))
  | Some p =>
      exists f bs text f4,
        p = Pos.succ (next w) /\ w' = with_image f bs w /\
        data f = next w /\ Imgv.path f = path /\
        magic_number f = ["P"%char; "3"%char] /\
        fopen E path = Some text /\ header_scans text f f4 /\
        Z.of_nat (length bs) = buffer_size f /\
        (0 <= num_pixels f ->
         exists px after,
           scan_triplets (Z.to_nat (num_pixels f)) f4 = (px, Some after) /\
           bs = flat_map cell px)
  end.

(** A header whose pixel buffer has room for every pixel it announces:
    [num_pixels * 4] does not wrap around. *)
Definition fits (f : PPMFile) : Prop :=
  num_pixels f <= 0 \/ num_pixels f * 4 < 2 ^ 31.

Definition text_fits (text : stream) : bool :=
  match scan_header text with
  | Some (wd, ht, _, _) =>
      (wrap_int (wd * ht) <=? 0) || (wrap_int (wd * ht) * 4 <? 2 ^ 31)
  | None => true
  end.

(** No file of the environment announces more pixels than fit. *)
Definition files_fit (E : env) : Prop :=
  forall path text f f4,
    fopen E path = Some text -> header_scans text f f4 -> fits f.

(** *** Header tokens with a sign

    What [%i] stores for a decimal token: the number [strtol] returns,
    converted to [int]. *)
Definition int_value (t : token) : Z :=
  wrap_int (strtol (negative (sign t)) 10 (digits t)).

(** A token [%i] reads in base ten: no leading zero; a sign is allowed. *)
Definition decimal_token (t : token) : bool :=
  token_ok t && nonzero_head (digits t).

Definition header_of (tw th tm : token) : PPMFile :=
  header (int_value tw) (int_value th) (int_value tm).

(** *** The state of the viewer

    What [main] keeps in [ppm_file]: no image, or a live image whose
    buffer is as long as the presenter takes it to be. *)
Definition shown (w : world) (ppm_file : option block) : Prop :=
  match ppm_file with
  | None => True
  | Some p => exists f bs, image_at w p f bs /\ Z.of_nat (length bs) = buffer_size f
  end.

Definition viewer_ok (w : world) (ppm_file : option block) : Prop :=
  world_ok w /\ shown w ppm_file.

(** What [update_state] leaves when the decoder returned the image [f]
    with the bytes [bs]. *)
Definition after_update (old : option block) (w : world) (f : PPMFile)
  (bs : list (option Z)) (w2 : world) : Prop :=
  match old with
  | None =>
      w2 = add_trace (adoption_events (Pos.succ (next w)) f) (with_image f bs w)
  | Some a =>
      exists fa bsa,
        image_at w a fa bsa /\
        w2 = add_trace (destroy_events a fa ++ adoption_events (Pos.succ (next w)) f)
               (set_heap (delete a (delete (data fa) (heap (with_image f bs w))))
                  (with_image f bs w))
  end.

(** The events that end the loop, the one that loads a file, and the
    batches without one. *)
Definition quits (ev : SDL_Event) : bool :=
  match ev with
  | SDL_QUIT => true
  | SDL_KEYDOWN sym => (sym =? SDLK_ESCAPE) || (sym =? SDLK_q)
  | _ => false
  end.

Definition is_drop (ev : SDL_Event) : bool :=
  match ev with SDL_DROPFILE _ => true | _ => false end.

Definition passive (evs : list SDL_Event) : bool :=
  forallb (fun ev => negb (is_drop ev)) evs.

(** Whether a run of the decoder returned an image, and whether handling
    an event loads one. *)
Definition returned_image (r : result (option block)) : bool :=
  match r with
  | Ret (Some _) _ => true
  | _ => false
  end.

Definition loads (E : env) (ev : SDL_Event) (w : world) : bool :=
  match ev with
  | SDL_DROPFILE file => returned_image (ppm_read_file E file w)
  | _ => false
  end.

(** *** The start of [main]

    Lines 185-193: the image named by the first argument, if there is
    one and it can be decoded. *)
Definition startup_load (E : env) (argv : list string) : M (option block) :=
  match argv with
  | _ :: argv1 :: _ =>
      ppm_file ← ppm_read_file E argv1;
      match ppm_file with
      | Some p => ppm_print_details p
      | None => ret tt
      end;;
      ret ppm_file
  | _ => ret None
  end.

(** The window [main] asks for, lines 202-211. *)
Definition window_for (w : world) (ppm_file : option block) : sdl_call :=
  match ppm_file with
  | Some p =>
      match heap w !! p with
      | Some (Struct f) => SDL_CreateWindow (path f) (width f) (height f)
      | _ => default_window
      end
  | None => default_window
  end.

(** The calls up to the first frame, and up to each of the three fatal
    failures. *)
Definition window_setup (win : sdl_call) : list event :=
  [Sdl SDL_Init; Sdl win; Sdl SDL_EventState; Sdl SDL_CreateRenderer].

Definition init_failure : list event :=
  [Sdl SDL_Init;
   Fprintf stderr (line_dot "Failed to initialise SDL: %s") [ArgSdlError]].

Definition window_failure (win : sdl_call) : list event :=
  [Sdl SDL_Init; Sdl win;
   Fprintf stderr (line_dot "Failed to create SDL window: %s") [ArgSdlError]].

Definition renderer_failure (win : sdl_call) : list event :=
  [Sdl SDL_Init; Sdl win; Sdl SDL_EventState; Sdl SDL_CreateRenderer;
   Fprintf stderr (line_dot "Failed to create SDL renderer: %s") [ArgSdlError]].

(** *** Examples *)

Definition one_file (name content : string) : env :=
  friendly [(name, text_of content)].

(** 2^30 pixels: four bytes each are 2^32 bytes, 0 as an [int]. *)
Definition huge : env := one_file "huge.ppm" "P3 32768 32768 255 1 2 3".

(** An environment without files in which every SDL call fails. *)
Definition no_display : env :=
  {| fopen := fun _ => None;
     malloc_succeeds := fun _ _ => true;
     sdl_succeeds := fun _ _ => false |}.

(** A buffer of three pixels of which the first is stored. *)
Definition half_filled : world :=
  {| heap := <[1%positive := Bytes ([Some 255; Some 3; Some 2; Some 1]
                                    ++ replicate 8 None)]> ∅;
     next := 2%positive;
     trace := [] |}.

(** A file with a comment after the tag. *)
Definition commented : stream :=
  text_of (String.append "P3" (String.append nl (String.append "# made by hand"
    (String.append nl "1 1 255 1 2 3")))).

(** The image of [a.ppm] in [two_files]. *)
Definition image_a (d : block) : PPMFile := decoded "a.ppm" (header 1 1 255) d.

(** *** A width with a leading zero

    The digits [%i] reads in base eight after a leading [0], and the
    number it stores for them. *)
Definition octal (ds : list ascii) : bool :=
  match ds with [] => false | _ => forallb (digit_in 8) ds end.

Definition octal_value (ds : list ascii) : Z :=
  wrap_int (strtol false 8 ("0"%char :: ds)).

(** A text whose width is [0] followed by the octal digits [ds]. *)
Definition octal_width_text (sp ds : list ascii) (th tm : token)
  (px : list pixel_tokens) (trailing : stream) : stream :=
  "P"%char :: "3"%char ::
  sp ++ "0"%char :: ds ++ token_text th ++ token_text tm ++ pixels_text px ++ trailing.



End Outcomes.

(** ** Lemmas about the scanner, the decoder and the state machine *)

Module Facts.
Import Libc Imgv Spec.

(** *** The scanner on examples *)

Example scan_i_decimal : scan_i (text_of " 42 rest") = Converted 42 (text_of " rest").
Proof. reflexivity. Qed.

Example scan_i_negative : scan_i (text_of "-7") = Converted (-7) [].
Proof. reflexivity. Qed.

Example scan_i_hexadecimal : scan_i (text_of " 0x1F,") = Converted 31 (text_of ",").
Proof. reflexivity. Qed.

Example scan_i_octal : scan_i (text_of "010 1") = Converted 8 (text_of " 1").
Proof. reflexivity. Qed.

Example scan_i_wraps : scan_i (text_of "4294967297") = Converted 1 [].
Proof. reflexivity. Qed.

Example scan_i_no_digits : scan_i (text_of " +x") = MatchingFailure.
Proof. reflexivity. Qed.

Example scan_i_end_of_file : scan_i (text_of "  ") = InputFailure.
Proof. reflexivity. Qed.

Example scan_hhu_saturates :
  scan_hhu (text_of "18446744073709551616") = Converted 255 [].
Proof. reflexivity. Qed.

Example scan_s_two : scan_s 2 (text_of " P36") = Converted (text_of "P3") (text_of "6").
Proof. reflexivity. Qed.

Example fscanf_hhu3_short : (fscanf_hhu3 (text_of "1 2") 0 0 0).1.1.1.1 = 2.
Proof. reflexivity. Qed.

(** *** Characters, white space and digits *)

Lemma code_inj c1 c2 : code c1 = code c2 -> c1 = c2.
Proof.
  unfold code. intros H. apply N2Z.inj in H.
  rewrite <- (ascii_N_embedding c1), <- (ascii_N_embedding c2). now rewrite H.
Qed.

Lemma isdigit_not_space c : isdigit c = true -> isspace c = false.
Proof. unfold isdigit, isspace. lia. Qed.

Lemma digit_in_10 c : digit_in 10 c = isdigit c.
Proof. unfold digit_in, isdigit. simpl. lia. Qed.

Lemma blank_spaces sp : blank sp = true -> forallb isspace sp = true.
Proof. now destruct sp. Qed.

Lemma eat_space_blank sp s : blank sp = true -> eat_space (sp ++ s) = eat_space s.
Proof.
  intros H%blank_spaces. induction sp as [|c sp IH]; simpl; [done|].
  simpl in H. apply andb_true_iff in H as [Hc Hsp]. rewrite Hc. auto.
Qed.

Lemma read_digits_decimal ds rest :
  forallb isdigit ds = true -> delimited rest = true ->
  read_digits 10 (ds ++ rest) = (ds, rest).
Proof.
  intros Hds Hrest. induction ds as [|c ds IH]; simpl.
  - destruct rest as [|c rest]; [done|]. simpl in *.
    rewrite digit_in_10. now destruct (isdigit c).
  - simpl in Hds. apply andb_true_iff in Hds as [Hc Hds].
    rewrite digit_in_10, Hc, IH; auto.
Qed.

Lemma read_sign_token sg ds rest :
  decimal ds = true ->
  read_sign (sign_text sg ++ ds ++ rest) = (sg, ds ++ rest).
Proof.
  intros Hds. destruct sg as [[]|]; try reflexivity.
  destruct ds as [|c ds]; [discriminate|]. simpl in *.
  apply andb_true_iff in Hds as [Hc _]. unfold isdigit in Hc.
  destruct (code c =? 45) eqn:E1; [lia|].
  destruct (code c =? 43) eqn:E2; [lia|]. reflexivity.
Qed.

Lemma eat_space_token t rest :
  token_ok t = true ->
  eat_space (token_text t ++ rest) = sign_text (sign t) ++ digits t ++ rest.
Proof.
  unfold token_ok, token_text. intros [Hsp Hds]%andb_true_iff.
  rewrite <- !app_assoc, eat_space_blank by done.
  destruct (digits t) as [|c ds] eqn:Ed; [discriminate|].
  simpl in Hds. apply andb_true_iff in Hds as [Hc _].
  destruct (sign t) as [[]|]; simpl; try reflexivity.
  now rewrite (isdigit_not_space c).
Qed.

Lemma read_base_10 c s :
  read_base 10 (c :: s) = if code c =? 48 then ([c], 10, s) else ([], 10, c :: s).
Proof.
  simpl. destruct (code c =? 48); [|reflexivity].
  destruct s as [|x s]; [reflexivity|]. now destruct (tolower x =? 120).
Qed.

Lemma read_base_0_nonzero c s :
  code c <> 48 -> read_base 0 (c :: s) = ([], 10, c :: s).
Proof. intros H. simpl. destruct (code c =? 48) eqn:E; [lia|reflexivity]. Qed.

(** A decimal token, delimited, is read entirely and nothing more. *)
Lemma scan_number_decimal signed sg sp ds rest :
  blank sp = true -> decimal ds = true -> delimited rest = true ->
  scan_number signed 10 (sp ++ sign_text sg ++ ds ++ rest)
  = Converted (if signed then strtol (negative sg) 10 ds
               else strtoul (negative sg) 10 ds) rest.
Proof.
  intros Hsp Hds Hrest. unfold scan_number.
  pose proof (eat_space_token {| sep := sp; sign := sg; digits := ds |} rest) as He.
  unfold token_ok, token_text in He. simpl in He.
  rewrite <- !app_assoc in He. rewrite He by (now rewrite Hsp, Hds). clear He.
  destruct (sign_text sg ++ ds ++ rest) as [|c0 s0] eqn:E0.
  { destruct sg as [[]|], ds; simpl in *; discriminate. }
  rewrite <- E0, read_sign_token by done. clear E0 c0 s0.
  destruct ds as [|c ds]; [discriminate|]. simpl in Hds.
  apply andb_true_iff in Hds as [Hc Hds].
  rewrite <- app_comm_cons, read_base_10.
  destruct (code c =? 48) eqn:E48.
  - rewrite read_digits_decimal by done. simpl.
    now destruct sg as [[]|].
  - rewrite app_comm_cons, read_digits_decimal by (simpl; now rewrite ?Hc).
    simpl. now destruct sg as [[]|].
Qed.

Lemma scan_number_i_decimal sg sp ds rest :
  blank sp = true -> decimal ds = true -> nonzero_head ds = true ->
  delimited rest = true ->
  scan_number true 0 (sp ++ sign_text sg ++ ds ++ rest)
  = Converted (strtol (negative sg) 10 ds) rest.
Proof.
  intros Hsp Hds Hnz Hrest. unfold scan_number.
  pose proof (eat_space_token {| sep := sp; sign := sg; digits := ds |} rest) as He.
  unfold token_ok, token_text in He. simpl in He.
  rewrite <- !app_assoc in He. rewrite He by (now rewrite Hsp, Hds). clear He.
  destruct (sign_text sg ++ ds ++ rest) as [|c0 s0] eqn:E0.
  { destruct sg as [[]|], ds; simpl in *; discriminate. }
  rewrite <- E0, read_sign_token by done. clear E0 c0 s0.
  destruct ds as [|c ds]; [discriminate|]. simpl in Hds, Hnz.
  rewrite <- app_comm_cons, read_base_0_nonzero by lia.
  rewrite app_comm_cons, read_digits_decimal by done.
  simpl. now destruct sg as [[]|].
Qed.

(** *** Integers, the monad and the pixel loop *)

Lemma wrap_int_small z : - 2 ^ 31 <= z < 2 ^ 31 -> wrap_int z = z.
Proof. intros H. unfold wrap_int. rewrite Z.mod_small; lia. Qed.

Lemma to_size_t_small z : 0 <= z < 2 ^ 64 -> to_size_t z = z.
Proof. intros H. unfold to_size_t. rewrite Z.mod_small; lia. Qed.

Lemma bind_unfold {A B} (m : M A) (k : A -> M B) w :
  (m ≫= k) w = match m w with
                | Ret a w' => k a w'
                | Exit st w' => Exit st w'
                | Undefined => Undefined
                end.
Proof. reflexivity. Qed.

Lemma fscanf_hhu3_spec f r0 g0 b0 :
  match scan_triplet f with
  | Some (r, g, b, f') => fscanf_hhu3 f r0 g0 b0 = (3, r, g, b, f')
  | None => exists k r g b f', fscanf_hhu3 f r0 g0 b0 = (k, r, g, b, f') /\ k <> 3
  end.
Proof.
  unfold scan_triplet, fscanf_hhu3.
  destruct (scan_hhu f) as [r f1| |]; simpl;
    [|by repeat eexists; try reflexivity; compute; discriminate..].
  destruct (scan_hhu f1) as [g f2| |]; simpl;
    [|by repeat eexists; try reflexivity; compute; discriminate..].
  destruct (scan_hhu f2) as [b f3| |]; simpl;
    [reflexivity|by repeat eexists; try reflexivity; compute; discriminate..].
Qed.

Lemma store_byte_at d v pre x post w :
  heap w !! d = Some (Bytes (pre ++ x :: post)) ->
  store_byte d (Z.of_nat (length pre)) v w
  = Ret tt (set_heap (<[d := Bytes (pre ++ Some v :: post)]> (heap w)) w).
Proof.
  intros Hd. unfold store_byte. rewrite Hd.
  rewrite length_app. simpl length.
  assert ((0 <=? Z.of_nat (length pre)) &&
          (Z.of_nat (length pre) <? Z.of_nat (length pre + S (length post)))
          = true) as ->.
  { apply andb_true_iff; split; [apply Z.leb_le | apply Z.ltb_lt]; lia. }
  rewrite Nat2Z.id.
  replace (length pre) with (length pre + 0)%nat at 1 by lia.
  rewrite insert_app_r. reflexivity.
Qed.

Lemma drop_cell {A} k (x0 x1 x2 x3 : A) post :
  drop (4 * S k) (x0 :: x1 :: x2 :: x3 :: post) = drop (4 * k) post.
Proof. replace (4 * S k)%nat with (S (S (S (S (4 * k))))) by lia. reflexivity. Qed.

Section Loop.

Context (E : env).

(** The four stores of lines 70-73. *)
Lemma store_cell {B} d i r g b pre x0 x1 x2 x3 post w (k : M B) :
  heap w !! d = Some (Bytes (pre ++ x0 :: x1 :: x2 :: x3 :: post)) ->
  Z.of_nat (length pre) = 4 * i -> 4 * i + 3 < 2 ^ 31 ->
  (store_byte d (wrap_int (i * 4)) 255;;
   store_byte d (wrap_int (wrap_int (i * 4) + 1)) b;;
   store_byte d (wrap_int (wrap_int (i * 4) + 2)) g;;
   store_byte d (wrap_int (wrap_int (i * 4) + 3)) r;;
   k) w
  = k (set_heap (<[d := Bytes (pre ++ cell (r, g, b) ++ post)]> (heap w)) w).
Proof.
  intros Hd Hlen Hi.
  assert (0 <= i) by lia.
  rewrite !(wrap_int_small (i * 4)) by lia.
  rewrite !wrap_int_small by lia.
  replace (i * 4) with (Z.of_nat (length pre)) by lia.
  rewrite bind_unfold, (store_byte_at _ _ _ _ _ _ Hd).
  rewrite bind_unfold.
  replace (Z.of_nat (length pre) + 1) with (Z.of_nat (length (pre ++ [Some 255])))
    by (rewrite length_app; simpl; lia).
  rewrite (store_byte_at d b (pre ++ [Some 255]) x1 (x2 :: x3 :: post))
    by (simpl; rewrite lookup_insert_eq, <- !app_assoc; reflexivity).
  rewrite bind_unfold.
  replace (Z.of_nat (length pre) + 2)
    with (Z.of_nat (length ((pre ++ [Some 255]) ++ [Some b])))
    by (rewrite !length_app; simpl; lia).
  rewrite (store_byte_at d g ((pre ++ [Some 255]) ++ [Some b]) x2 (x3 :: post))
    by (simpl; rewrite lookup_insert_eq, <- !app_assoc; reflexivity).
  rewrite bind_unfold.
  replace (Z.of_nat (length pre) + 3)
    with (Z.of_nat (length (((pre ++ [Some 255]) ++ [Some b]) ++ [Some g])))
    by (rewrite !length_app; simpl; lia).
  rewrite (store_byte_at d r (((pre ++ [Some 255]) ++ [Some b]) ++ [Some g]) x3 post)
    by (simpl; rewrite lookup_insert_eq, <- !app_assoc; reflexivity).
  f_equal. unfold set_heap. simpl. rewrite !insert_insert_eq.
  rewrite <- !app_assoc. reflexivity.
Qed.

(** The loop against [scan_triplets]: with room for [n] more pixels after
    [pre], it stores the pixels that could be read, in order, and reports
    the first one that could not. *)
Lemma pixel_loop_spec d n : forall i f w pre post,
  heap w !! d = Some (Bytes (pre ++ post)) ->
  Z.of_nat (length pre) = 4 * i ->
  length post = (4 * n)%nat ->
  4 * (i + Z.of_nat n) <= 2 ^ 31 ->
  pixel_loop n i d f w
  = let '(px, after) := scan_triplets n f in
    Ret after
      (add_trace (match after with Some _ => [] | None => [pixel_error] end)
         (set_heap (<[d := Bytes (pre ++ flat_map cell px
                                   ++ drop (4 * length px) post)]> (heap w)) w)).
Proof.
  induction n as [|n IH]; intros i f w pre post Hd Hpre Hpost Hmax.
  - simpl. unfold ret, add_trace, set_heap. simpl. rewrite app_nil_r.
    rewrite insert_id by done. now destruct w.
  - simpl pixel_loop. simpl scan_triplets.
    pose proof (fscanf_hhu3_spec f 0 0 0) as Hf.
    destruct (scan_triplet f) as [[[[r g] b] f']|].
    + rewrite Hf. change (negb (3 =? 3)) with false. cbv iota.
      destruct post as [|x0 [|x1 [|x2 [|x3 post]]]]; simpl in Hpost; try lia.
      rewrite (store_cell d i r g b pre x0 x1 x2 x3 post) by (done || lia).
      rewrite (IH (i + 1) f' _ (pre ++ cell (r, g, b)) post); cycle 1.
      { simpl. now rewrite lookup_insert_eq, <- app_assoc. }
      { rewrite length_app. simpl. lia. }
      { lia. }
      { lia. }
      destruct (scan_triplets n f') as [px after]. f_equal.
      unfold add_trace, set_heap. cbn [heap next trace].
      rewrite insert_insert_eq. cbn [flat_map length].
      rewrite (drop_cell (length px)), <- !app_assoc. reflexivity.
    + destruct Hf as (k & r & g & b & f' & -> & Hk).
      destruct (k =? 3) eqn:Ek; [lia|]. simpl.
      unfold fprintf, emit, ret, add_trace, set_heap, pixel_error. simpl.
      rewrite drop_0, insert_id by done. reflexivity.
Qed.

End Loop.

(** *** What a run leaves alone *)

Lemma wp_ret {A} (a : A) w (Q : A -> world -> Prop) : Q a w -> wp (ret a) w Q.
Proof. done. Qed.

Lemma wp_bind {A B} (m : M A) (k : A -> M B) w (Q : B -> world -> Prop) :
  wp m w (fun a w' => wp (k a) w' Q) -> wp (m ≫= k) w Q.
Proof. unfold wp. rewrite bind_unfold. now destruct (m w). Qed.

Lemma wp_mono {A} (m : M A) w (Q Q' : A -> world -> Prop) :
  wp m w Q -> (forall a w', Q a w' -> Q' a w') -> wp m w Q'.
Proof. unfold wp. destruct (m w); auto. Qed.

Lemma wp_fprintf ch fmt args w (Q : unit -> world -> Prop) :
  Q tt (add_trace [Fprintf ch fmt args] w) -> wp (fprintf ch fmt args) w Q.
Proof. done. Qed.

Lemma wp_store_byte d i v w (Q : unit -> world -> Prop) :
  (forall bs bs', heap w !! d = Some (Bytes bs) ->
                  Q tt (set_heap (<[d := Bytes bs']> (heap w)) w)) ->
  wp (store_byte d i v) w Q.
Proof.
  intros H. unfold wp, store_byte.
  destruct (heap w !! d) as [[bs|]|] eqn:Hd; try done.
  destruct (_ && _); [|done]. now apply (H bs).
Qed.

Lemma touches_refl d w : touches d [] w w.
Proof. repeat split; eauto. now rewrite app_nil_r. Qed.

Lemma touches_store d bs bs' errs w0 w :
  touches d errs w0 w -> heap w !! d = Some (Bytes bs) ->
  touches d errs w0 (set_heap (<[d := Bytes bs']> (heap w)) w).
Proof.
  intros (Hn & Ht & Ho & Hd) Hb. repeat split; simpl; auto.
  - intros b Hne. rewrite lookup_insert_ne by done. auto.
  - intros ? _. rewrite lookup_insert_eq. eauto.
Qed.

Lemma pixel_loop_touches d n : forall i f w0 w,
  touches d [] w0 w ->
  wp (pixel_loop n i d f) w
     (fun after w' =>
        touches d (match after with Some _ => [] | None => [pixel_error] end) w0 w').
Proof.
  induction n as [|n IH]; intros i f w0 w Hw; simpl pixel_loop.
  - now apply wp_ret.
  - destruct (fscanf_hhu3 f 0 0 0) as [[[[k r] g] b] f'].
    destruct (negb (k =? 3)).
    + apply wp_bind, wp_fprintf, wp_ret.
      destruct Hw as (Hn & Ht & Ho & Hd). repeat split; simpl; auto.
      now rewrite Ht, app_nil_r.
    + repeat (apply wp_bind, wp_store_byte; intros ? ? ?).
      apply IH. eauto using touches_store.
Qed.

Section Frame.

Context (E : env).

Lemma wp_malloc size w (Q : option block -> world -> Prop) :
  Q None w ->
  Q (Some (next w))
    {| heap := <[next w := Bytes (replicate (Z.to_nat size) None)]> (heap w);
       next := Pos.succ (next w); trace := trace w |} ->
  wp (malloc E size) w Q.
Proof. intros H1 H2. unfold wp, malloc. now destruct (_ && _). Qed.

Lemma wp_store_struct b f w (Q : unit -> world -> Prop) :
  (forall o, heap w !! b = Some o -> Q tt (set_heap (<[b := Struct f]> (heap w)) w)) ->
  wp (store_struct b f) w Q.
Proof.
  intros H. unfold wp, store_struct. destruct (heap w !! b) eqn:Hb; [|done].
  now apply (H o).
Qed.

Lemma read_fail_post path w fmt args :
  world_ok w -> read_post path w None (add_trace [Fprintf stderr fmt args] w).
Proof.
  intros Hw. split; [exact Hw|]. split; [now intros b o Hb|].
  now exists fmt, args.
Qed.

(** Whatever the file holds, a run of [ppm_read_file] that returns has
    kept every object that was there, and has either printed one line or
    built an image in two fresh blocks. *)
Lemma ppm_read_file_post path w :
  world_ok w -> wp (ppm_read_file E path) w (read_post path w).
Proof.
  intros Hw. unfold ppm_read_file.
  destruct (fopen E path) as [text|];
    [|apply wp_bind, wp_fprintf, wp_ret; now apply read_fail_post].
  destruct (fscanf_2s text) as [[k magic] f1].
  destruct (_ || _);
    [apply wp_bind, wp_fprintf, wp_ret; now apply read_fail_post|].
  destruct (fscanf_i_i f1 0 0) as [[[k2 wd] ht] f2].
  destruct (negb _);
    [apply wp_bind, wp_fprintf, wp_ret; now apply read_fail_post|].
  destruct (fscanf_i f2 0) as [[k3 mc] f3].
  destruct (negb _);
    [apply wp_bind, wp_fprintf, wp_ret; now apply read_fail_post|].
  apply wp_bind, wp_malloc;
    [apply wp_bind, wp_fprintf, wp_ret; now apply read_fail_post|].
  set (d := next w). assert (Hdn : d = next w) by reflexivity.
  set (w1 := {| heap := _; next := Pos.succ d; trace := trace w |}).
  clearbody d.
  assert (Hfresh : forall b o, heap w !! b = Some o -> b <> d).
  { intros b o Hb ->. apply Hw in Hb. lia. }
  apply wp_bind.
  eapply wp_mono; [apply (pixel_loop_touches d _ _ _ w1 w1), touches_refl|].
  intros after w2 (Hn & Ht & Ho & Hd).
  destruct (Hd _ (lookup_insert_eq _ _ _)) as [bs Hbs].
  assert (Hok2 : world_ok w2).
  { intros b o Hb. rewrite Hn. simpl. destruct (decide (b = d)) as [->|Hne]; [lia|].
    rewrite Ho in Hb by done. simpl in Hb. rewrite lookup_insert_ne in Hb by done.
    apply Hw in Hb. lia. }
  assert (Hpres2 : preserved w w2).
  { intros b o Hb. rewrite Ho by eauto. simpl.
    rewrite lookup_insert_ne; [done|]. intros Hbd. now apply (Hfresh b o). }
  destruct after as [f4|].
  - apply wp_bind, wp_malloc.
    + apply wp_bind, wp_fprintf, wp_ret. repeat split; simpl; eauto.
      do 2 eexists. rewrite Ht, app_nil_r. reflexivity.
    + apply wp_bind, wp_store_struct. intros _ _. apply wp_ret.
      rewrite Hn. simpl next. set (p := Pos.succ d).
      assert (Hp : p = Pos.succ d) by reflexivity. clearbody p.
      assert (Hpd : p <> d) by lia.
      unfold read_post, set_heap, world_ok, preserved; simpl.
      rewrite insert_insert_eq.
      repeat split.
      * intros b o Hb.
        destruct (decide (b = p)) as [->|Hne]; [lia|].
        rewrite lookup_insert_ne in Hb by done. apply Hok2 in Hb.
        rewrite Hn in Hb. simpl in Hb. lia.
      * intros b o Hb. rewrite lookup_insert_ne; [now apply Hpres2|].
        intros <-. apply Hw in Hb. lia.
      * now rewrite Ht, app_nil_r.
      * exists {| path := path; magic_number := magic; width := wd;
                  height := ht; max_color := mc; data := d |}, bs.
        unfold image_at. simpl.
        rewrite lookup_insert_eq, lookup_insert_ne by done.
        repeat split; auto.
        -- destruct (heap w !! p) eqn:Hhp; [|done].
           apply Hw in Hhp. lia.
        -- destruct (heap w !! d) eqn:Hhd; [|done].
           apply Hw in Hhd. lia.
  - apply wp_ret. repeat split; auto. do 2 eexists. rewrite Ht. reflexivity.
Qed.

End Frame.

(** *** The decoder on a stream whose header scans *)

Lemma fscanf_2s_P3 text f1 :
  eat_space text = "P"%char :: "3"%char :: f1 ->
  fscanf_2s text = (1, ["P"%char; "3"%char], f1).
Proof. intros H. unfold fscanf_2s, scan_s. rewrite H. reflexivity. Qed.

Lemma fscanf_i_i_ok f1 wd f2 ht f3 w0 h0 :
  scan_i f1 = Converted wd f2 -> scan_i f2 = Converted ht f3 ->
  fscanf_i_i f1 w0 h0 = (2, wd, ht, f3).
Proof. intros H1 H2. unfold fscanf_i_i. now rewrite H1, H2. Qed.

Lemma fscanf_i_ok f mc f' m0 :
  scan_i f = Converted mc f' -> fscanf_i f m0 = (1, mc, f').
Proof. intros H. unfold fscanf_i. now rewrite H. Qed.

Lemma scan_triplets_length n : forall f,
  (length (scan_triplets n f).1 <= n)%nat /\
  (forall f', (scan_triplets n f).2 = Some f' -> length (scan_triplets n f).1 = n).
Proof.
  induction n as [|n IH]; intros f; simpl; [by auto|].
  destruct (scan_triplet f) as [[[[r g] b] f1]|]; simpl; [|split; [lia|done]].
  specialize (IH f1). destruct (scan_triplets n f1) as [px after]. simpl in *.
  destruct IH as [IH1 IH2]. split; [lia|]. intros f' H. now rewrite (IH2 f').
Qed.

Lemma add_trace_nil w : add_trace [] w = w.
Proof. destruct w. unfold add_trace. simpl. now rewrite app_nil_r. Qed.

Section Scanned.

Context (E : env).

Lemma malloc_ok size w :
  size <= PTRDIFF_MAX -> malloc_succeeds E (next w) size = true ->
  malloc E size w
  = Ret (Some (next w))
        {| heap := <[next w := Bytes (replicate (Z.to_nat size) None)]> (heap w);
           next := Pos.succ (next w); trace := trace w |}.
Proof.
  intros H1 H2. unfold malloc. rewrite H2.
  destruct (size <=? PTRDIFF_MAX) eqn:Hs; [reflexivity|lia].
Qed.

(** [ppm_read_file] once the tag and the three integers of the header are
    read, for a size that [int] can hold and a pixel buffer that could be
    allocated. *)
Lemma ppm_read_file_scanned path w text f1 wd f2 ht f3 mc f4 :
  fopen E path = Some text ->
  eat_space text = "P"%char :: "3"%char :: f1 ->
  scan_i f1 = Converted wd f2 ->
  scan_i f2 = Converted ht f3 ->
  scan_i f3 = Converted mc f4 ->
  0 <= wd * ht -> wd * ht * 4 < 2 ^ 31 ->
  malloc_succeeds E (next w) (wd * ht * 4) = true ->
  ppm_read_file E path w
  = let n := Z.to_nat (wd * ht) in
    let '(px, after) := scan_triplets n f4 in
    let w1 := with_pixels n px w in
    match after with
    | None => Ret None (add_trace [pixel_error] w1)
    | Some _ =>
        if malloc_succeeds E (next w1) sizeof_PPMFile
        then Ret (Some (next w1))
                 {| heap := <[next w1 :=
                               Struct {| path := path;
                                         magic_number := ["P"%char; "3"%char];
                                         width := wd; height := ht;
                                         max_color := mc; data := next w |}]>
                              (heap w1);
                    next := Pos.succ (next w1);
                    trace := trace w |}
        else Ret None (add_trace [struct_error] w1)
    end.
Proof.
  intros Hopen Hmagic Hw Hh Hm Hpos Hmax Hmalloc.
  unfold ppm_read_file. rewrite Hopen, (fscanf_2s_P3 _ _ Hmagic).
  change (negb (1 =? 1) || _ || _) with false. cbv iota.
  rewrite (fscanf_i_i_ok _ _ _ _ _ 0 0 Hw Hh).
  change (negb (2 =? 2)) with false. cbv iota.
  rewrite (fscanf_i_ok _ _ _ 0 Hm).
  change (negb (1 =? 1)) with false. cbv iota. cbv zeta.
  rewrite (wrap_int_small (wd * ht)) by lia.
  rewrite (wrap_int_small (wd * ht * 4)) by lia.
  rewrite to_size_t_small by lia.
  rewrite bind_unfold.
  rewrite (malloc_ok (wd * ht * 4) w) by (done || (unfold PTRDIFF_MAX; lia)).
  rewrite bind_unfold.
  set (n := Z.to_nat (wd * ht)).
  rewrite (pixel_loop_spec (next w) n 0 f4 _ [] (replicate (4 * n) None)); cycle 1.
  { simpl. rewrite lookup_insert_eq. do 3 f_equal. lia. }
  { reflexivity. }
  { apply length_replicate. }
  { lia. }
  pose proof (scan_triplets_length n f4) as [Hle Heq].
  destruct (scan_triplets n f4) as [px after]. simpl in Hle, Heq.
  assert (Hw1 : set_heap
            (<[next w := Bytes ([] ++ flat_map cell px ++
                                drop (4 * length px) (replicate (4 * n) None))]>
               (<[next w := Bytes (replicate (Z.to_nat (wd * ht * 4)) None)]> (heap w)))
            {| heap := <[next w := Bytes (replicate (Z.to_nat (wd * ht * 4)) None)]> (heap w);
               next := Pos.succ (next w); trace := trace w |}
          = with_pixels n px w).
  { unfold set_heap, with_pixels. cbn [heap next trace].
    rewrite insert_insert_eq, drop_replicate, app_nil_l.
    do 4 f_equal. f_equal. lia. }
  cbn [heap] in Hw1 |- *. rewrite Hw1. clear Hw1.
  destruct after as [f5|].
  - rewrite add_trace_nil, bind_unfold. unfold malloc.
    change (sizeof_PPMFile <=? PTRDIFF_MAX) with true. cbn [andb].
    destruct (malloc_succeeds E (next (with_pixels n px w)) sizeof_PPMFile).
    + rewrite bind_unfold. unfold store_struct. cbn [heap next trace].
      rewrite lookup_insert_eq, insert_insert_eq. reflexivity.
    + reflexivity.
  - reflexivity.
Qed.

End Scanned.

(** *** Tokens *)

Lemma digits_value_acc ds : forall acc,
  fold_left (fun a c => a * 10 + digit_value c) ds acc
  = acc * 10 ^ Z.of_nat (length ds) + digits_value 10 ds.
Proof.
  unfold digits_value. induction ds as [|c ds IH]; intros acc.
  - simpl. lia.
  - cbn [fold_left length]. rewrite IH, (IH (0 * 10 + digit_value c)).
    rewrite Nat2Z.inj_succ, Z.pow_succ_r by lia. ring.
Qed.

Lemma digit_value_range c : isdigit c = true -> 0 <= digit_value c <= 9.
Proof. unfold digit_value. intros H. rewrite H. unfold isdigit in H. lia. Qed.

Lemma fold_digits_nonneg ds : forall acc,
  forallb isdigit ds = true -> 0 <= acc ->
  0 <= fold_left (fun a c => a * 10 + digit_value c) ds acc.
Proof.
  induction ds as [|c ds IH]; intros acc Hds Hacc; simpl; [done|].
  simpl in Hds. apply andb_true_iff in Hds as [Hc Hds]. apply IH; [done|].
  pose proof (digit_value_range c Hc). lia.
Qed.

Lemma digits_value_nonneg ds :
  forallb isdigit ds = true -> 0 <= digits_value 10 ds.
Proof. intros H. now apply fold_digits_nonneg. Qed.

Lemma magnitude_nonneg t : token_ok t = true -> 0 <= magnitude t.
Proof.
  unfold token_ok, decimal. intros [_ H]%andb_true_iff.
  apply digits_value_nonneg. now destruct (digits t).
Qed.

Lemma sample_value_mod t :
  token_ok t = true -> magnitude t <= ULONG_MAX ->
  sample_value t = token_value t mod 256.
Proof.
  intros Hok Hmax. pose proof (magnitude_nonneg t Hok) as Hpos.
  unfold sample_value, strtoul, token_value. fold (magnitude t).
  destruct (magnitude t >? ULONG_MAX) eqn:Hgt; [lia|].
  destruct (negative (sign t)); [|done].
  unfold to_uint8. apply Z.mod_mod_divide. now exists (2 ^ 56).
Qed.

Lemma delimited_token t rest : token_ok t = true -> delimited (token_text t ++ rest) = true.
Proof.
  unfold token_ok, token_text, blank. intros [Hsp _]%andb_true_iff.
  destruct (sep t) as [|c sp]; [discriminate|]. simpl in *.
  apply andb_true_iff in Hsp as [Hc _].
  destruct (isdigit c) eqn:Hd; [|done]. apply isdigit_not_space in Hd. congruence.
Qed.

Lemma scan_hhu_token t rest :
  token_ok t = true -> delimited rest = true ->
  scan_hhu (token_text t ++ rest) = Converted (sample_value t) rest.
Proof.
  intros Ht Hrest. pose proof Ht as [Hsp Hds]%andb_true_iff.
  unfold scan_hhu, token_text. rewrite <- !app_assoc.
  now rewrite scan_number_decimal by done.
Qed.

Lemma scan_i_token t rest :
  header_token t = true -> magnitude t < 2 ^ 31 -> delimited rest = true ->
  scan_i (token_text t ++ rest) = Converted (magnitude t) rest.
Proof.
  unfold header_token. intros [[Hok Hsg]%andb_true_iff Hnz]%andb_true_iff Hmax Hrest.
  pose proof (magnitude_nonneg t Hok) as Hpos.
  apply andb_true_iff in Hok as [Hsp Hds].
  unfold scan_i, token_text. rewrite <- !app_assoc.
  rewrite scan_number_i_decimal by done.
  destruct (sign t); [discriminate|]. simpl negative.
  unfold strtol. fold (magnitude t).
  destruct (magnitude t >? LONG_MAX) eqn:Hgt; [unfold LONG_MAX in Hgt; lia|].
  now rewrite wrap_int_small by lia.
Qed.

Lemma delimited_pixels px trailing :
  forallb pixel_ok px = true -> delimited trailing = true ->
  delimited (pixels_text px ++ trailing) = true.
Proof.
  intros Hpx Ht. destruct px as [|[[r g] b] px]; [done|].
  simpl in *. apply andb_true_iff in Hpx as [[[Hr _]%andb_true_iff _]%andb_true_iff _].
  rewrite <- !app_assoc. now apply delimited_token.
Qed.

Lemma scan_triplet_pixel p rest :
  pixel_ok p = true -> delimited rest = true ->
  scan_triplet (pixel_text p ++ rest) = Some (pixel_value p, rest).
Proof.
  destruct p as [[r g] b]. simpl.
  intros [[Hr Hg]%andb_true_iff Hb]%andb_true_iff Hrest.
  unfold scan_triplet. rewrite <- !app_assoc.
  rewrite scan_hhu_token by (done || now apply delimited_token).
  rewrite scan_hhu_token by (done || now apply delimited_token).
  now rewrite scan_hhu_token.
Qed.

Lemma scan_triplets_pixels px : forall trailing,
  forallb pixel_ok px = true -> delimited trailing = true ->
  scan_triplets (length px) (pixels_text px ++ trailing)
  = (map pixel_value px, Some trailing).
Proof.
  induction px as [|p px IH]; intros trailing Hpx Ht; [done|].
  simpl in Hpx. apply andb_true_iff in Hpx as [Hp Hpx].
  cbn [length scan_triplets pixels_text flat_map].
  rewrite <- app_assoc, scan_triplet_pixel by (done || now apply delimited_pixels).
  fold (pixels_text px). rewrite IH by done.
  cbn [map]. now destruct (pixel_value p) as [[r g] b].
Qed.

(** Fewer pixels than asked for: the scan stops at the first triplet that
    cannot be read. *)
Lemma scan_triplets_short px : forall n bad,
  forallb pixel_ok px = true -> delimited bad = true ->
  scan_triplet bad = None -> (length px < n)%nat ->
  scan_triplets n (pixels_text px ++ bad) = (map pixel_value px, None).
Proof.
  induction px as [|p px IH]; intros n bad Hpx Hbad Hnone Hlen.
  - destruct n; [simpl in Hlen; lia|]. simpl. now rewrite Hnone.
  - simpl in Hpx. apply andb_true_iff in Hpx as [Hp Hpx].
    destruct n; simpl in Hlen; [lia|].
    cbn [scan_triplets pixels_text flat_map].
    rewrite <- app_assoc, scan_triplet_pixel by (done || now apply delimited_pixels).
    fold (pixels_text px). rewrite IH by (done || lia).
    cbn [map]. now destruct (pixel_value p) as [[r g] b].
Qed.

(** *** Input that does not scan *)

Lemma eat_space_head s c r : eat_space s = c :: r -> isspace c = false.
Proof.
  induction s as [|a s IH]; simpl; [done|].
  destruct (isspace a) eqn:Ha; [done|]. now intros [= <- <-].
Qed.

Lemma scan_number_fails signed base0 f :
  base0 = 0 \/ base0 = 10 ->
  numeric_start f = false ->
  scan_number signed base0 f = InputFailure \/
  scan_number signed base0 f = MatchingFailure.
Proof.
  unfold numeric_start, scan_number. intros Hbase.
  destruct (eat_space f) as [|c s0] eqn:He; [now left|].
  destruct (read_sign (c :: s0)) as [sg s1]. simpl.
  destruct s1 as [|d s1]; [intros _; right; now destruct Hbase as [-> | ->]|].
  intros Hd. right. simpl.
  destruct (code d =? 48) eqn:E48; [unfold isdigit in Hd; lia|].
  destruct Hbase as [-> | ->]; simpl; rewrite digit_in_10, Hd; reflexivity.
Qed.

Lemma scan_i_fails f :
  numeric_start f = false -> forall v rest, scan_i f <> Converted v rest.
Proof.
  intros H v rest. unfold scan_i.
  destruct (scan_number_fails true 0 f (or_introl eq_refl) H) as [-> | ->];
    discriminate.
Qed.

Lemma scan_hhu_fails f :
  numeric_start f = false -> forall v rest, scan_hhu f <> Converted v rest.
Proof.
  intros H v rest. unfold scan_hhu.
  destruct (scan_number_fails false 10 f (or_intror eq_refl) H) as [-> | ->];
    discriminate.
Qed.

Lemma numeric_start_delimited junk :
  numeric_start junk = false -> delimited junk = true.
Proof.
  destruct junk as [|c junk]; [done|]. unfold numeric_start. simpl.
  destruct (isdigit c) eqn:Hc; [|done].
  rewrite (isdigit_not_space c Hc). simpl.
  unfold isdigit in Hc.
  destruct (code c =? 45) eqn:E1; [lia|].
  destruct (code c =? 43) eqn:E2; [lia|]. simpl.
  unfold isdigit. intros H. rewrite H in Hc. discriminate.
Qed.

Lemma delimited_partial ts junk :
  forallb token_ok ts = true -> numeric_start junk = false ->
  delimited (partial_text ts junk) = true.
Proof.
  intros Hts Hjunk. destruct ts as [|t ts]; [now apply numeric_start_delimited|].
  simpl in Hts. apply andb_true_iff in Hts as [Ht _].
  unfold partial_text. cbn [flat_map]. rewrite <- app_assoc.
  now apply delimited_token.
Qed.

(** Fewer than three tokens and then no number: no triplet. *)
Lemma scan_triplet_partial ts junk :
  (length ts < 3)%nat -> forallb token_ok ts = true ->
  numeric_start junk = false ->
  scan_triplet (partial_text ts junk) = None.
Proof.
  intros Hlen Hts Hjunk. pose proof (numeric_start_delimited junk Hjunk) as Hd.
  assert (Hfail : match scan_hhu junk with Converted _ _ => False | _ => True end).
  { destruct (scan_hhu junk) as [v r| |] eqn:Hs; [|done..].
    now apply (scan_hhu_fails junk Hjunk v r). }
  unfold scan_triplet, partial_text.
  destruct ts as [|t1 [|t2 [|t3 ts]]]; simpl in Hlen; try lia; cbn [flat_map app].
  - now destruct (scan_hhu junk).
  - simpl in Hts. apply andb_true_iff in Hts as [H1 _].
    rewrite app_nil_r, scan_hhu_token by done. now destruct (scan_hhu junk).
  - simpl in Hts. apply andb_true_iff in Hts as [H1 [H2 _]%andb_true_iff].
    rewrite app_nil_r, <- app_assoc.
    rewrite scan_hhu_token by (done || now apply delimited_token).
    rewrite scan_hhu_token by done. now destruct (scan_hhu junk).
Qed.

Lemma magic_mismatch text :
  (forall rest, eat_space text <> "P"%char :: "3"%char :: rest) ->
  let '(k, magic, _) := fscanf_2s text in
  negb (k =? 1) || negb (code (char_at magic 0) =? 80)
  || negb (code (char_at magic 1) =? 51) = true.
Proof.
  intros Hne. unfold fscanf_2s, scan_s.
  destruct (eat_space text) as [|c1 s] eqn:He; [reflexivity|].
  pose proof (eat_space_head _ _ _ He) as Hc1.
  cbn [read_nonspace]. rewrite Hc1.
  destruct s as [|c2 s].
  { cbn. now rewrite orb_true_r. }
  destruct (isspace c2) eqn:Hc2.
  { cbn. now rewrite orb_true_r. }
  cbn. destruct (code c1 =? 80) eqn:E1; [|done].
  destruct (code c2 =? 51) eqn:E2; [|done].
  apply Z.eqb_eq in E1, E2.
  exfalso. apply (Hne s). f_equal; [|f_equal]; apply code_inj; done.
Qed.

Section HeaderErrors.

Context (E : env).

Lemma ppm_read_file_format_error path text w :
  fopen E path = Some text ->
  (forall rest, eat_space text <> "P"%char :: "3"%char :: rest) ->
  ppm_read_file E path w = Ret None (add_trace [format_error] w).
Proof.
  intros Hopen Hne. unfold ppm_read_file. rewrite Hopen.
  pose proof (magic_mismatch text Hne) as Hm.
  destruct (fscanf_2s text) as [[k magic] f1]. rewrite Hm. reflexivity.
Qed.

Lemma ppm_read_file_dimension_error path text f1 w :
  fopen E path = Some text ->
  eat_space text = "P"%char :: "3"%char :: f1 ->
  (forall wd f2 ht f3, scan_i f1 = Converted wd f2 -> scan_i f2 <> Converted ht f3) ->
  ppm_read_file E path w = Ret None (add_trace [dimension_error] w).
Proof.
  intros Hopen Hmagic Hdim. unfold ppm_read_file.
  rewrite Hopen, (fscanf_2s_P3 _ _ Hmagic).
  change (negb (1 =? 1) || _ || _) with false. cbv iota.
  unfold fscanf_i_i.
  destruct (scan_i f1) as [wd f2| |] eqn:H1; try reflexivity.
  destruct (scan_i f2) as [ht f3| |] eqn:H2; try reflexivity.
  now destruct (Hdim wd f2 ht f3).
Qed.

End HeaderErrors.

(** *** The state machine *)

Lemma add_trace_add_trace es1 es2 w :
  add_trace es2 (add_trace es1 w) = add_trace (es1 ++ es2) w.
Proof. unfold add_trace. simpl. now rewrite app_assoc. Qed.

Lemma emit_add e w : emit e w = Ret tt (add_trace [e] w).
Proof. reflexivity. Qed.

Ltac run_emits :=
  repeat (rewrite ?bind_unfold, ?emit_add; cbv beta iota);
  rewrite ?add_trace_add_trace.

Ltac world_eq :=
  unfold add_trace, set_heap, ret; cbn [heap next trace];
  rewrite <- ?app_assoc; reflexivity.

Lemma load_struct_at p f w :
  heap w !! p = Some (Struct f) -> load_struct p w = Ret f w.
Proof. intros H. unfold load_struct. now rewrite H. Qed.

Lemma free_at b o w :
  heap w !! b = Some o ->
  free b w = Ret tt (add_trace [Free b] (set_heap (delete b (heap w)) w)).
Proof. intros H. unfold free. now rewrite H. Qed.

Lemma ppm_print_details_at p f w :
  heap w !! p = Some (Struct f) ->
  ppm_print_details p w = Ret tt (add_trace (details_events f) w).
Proof.
  intros H. unfold ppm_print_details.
  rewrite bind_unfold, (load_struct_at p f) by done.
  unfold fprintf. run_emits. reflexivity.
Qed.

Lemma ppm_destroy_at a fa bs w :
  image_at w a fa bs ->
  ppm_destroy a w
  = Ret tt (add_trace (destroy_events a fa)
              (set_heap (delete a (delete (data fa) (heap w))) w)).
Proof.
  intros (Ha & Hd & Hne). unfold ppm_destroy.
  rewrite bind_unfold, (load_struct_at a fa) by done.
  rewrite bind_unfold, (free_at (data fa) (Bytes bs)) by done.
  rewrite (free_at a (Struct fa)); cycle 1.
  { simpl. now rewrite lookup_delete_ne. }
  world_eq.
Qed.

Section Machine.

Context (E : env).

Lemma ppm_read_file_returns path w r w1 :
  world_ok w -> ppm_read_file E path w = Ret r w1 -> read_post path w r w1.
Proof.
  intros Hw Hr. pose proof (ppm_read_file_post E path w Hw) as H.
  unfold wp in H. now rewrite Hr in H.
Qed.

Lemma update_state_failed path old w w1 :
  ppm_read_file E path w = Ret None w1 ->
  update_state E path old w = Ret (false, old) w1.
Proof. intros H. unfold update_state. now rewrite bind_unfold, H. Qed.

(** [update_state] when the decode succeeded and there is no image to
    replace. *)
Lemma update_state_adopts path w p w1 f :
  ppm_read_file E path w = Ret (Some p) w1 ->
  heap w1 !! p = Some (Struct f) ->
  update_state E path None w
  = Ret (true, Some p) (add_trace (adoption_events p f) w1).
Proof.
  intros Hr Hp. unfold update_state. rewrite bind_unfold, Hr.
  rewrite bind_unfold. unfold ret at 1. run_emits.
  rewrite (load_struct_at p f) by done.
  unfold sdl_. run_emits.
  rewrite (ppm_print_details_at p f) by done.
  world_eq.
Qed.

(** [update_state] when the decode succeeded and there is an image to
    replace. *)
Lemma update_state_replaces path w a fa bs p w1 f :
  ppm_read_file E path w = Ret (Some p) w1 ->
  image_at w1 a fa bs ->
  heap w1 !! p = Some (Struct f) -> p <> a -> p <> data fa ->
  update_state E path (Some a) w
  = Ret (true, Some p)
        (add_trace (destroy_events a fa ++ adoption_events p f)
           (set_heap (delete a (delete (data fa) (heap w1))) w1)).
Proof.
  intros Hr Ha Hp Hpa Hpd. unfold update_state. rewrite bind_unfold, Hr.
  rewrite bind_unfold, (ppm_destroy_at a fa bs) by done.
  run_emits.
  rewrite (load_struct_at p f); cycle 1.
  { simpl. now rewrite !lookup_delete_ne. }
  unfold sdl_. run_emits.
  rewrite (ppm_print_details_at p f); cycle 1.
  { simpl. now rewrite !lookup_delete_ne. }
  world_eq.
Qed.

End Machine.

(** *** Well-formed texts *)

Lemma header_token_ok t : header_token t = true -> token_ok t = true.
Proof. unfold header_token. now intros [[H _]%andb_true_iff _]%andb_true_iff. Qed.

Lemma nonzero_head_pos ds :
  decimal ds = true -> nonzero_head ds = true -> 0 < digits_value 10 ds.
Proof.
  destruct ds as [|c ds]; [done|]. simpl. intros [Hc Hds]%andb_true_iff Hnz.
  unfold digits_value. cbn [fold_left]. rewrite digits_value_acc.
  pose proof (digits_value_nonneg ds Hds).
  assert (1 <= digit_value c).
  { unfold digit_value. rewrite Hc. unfold isdigit in Hc.
    apply negb_true_iff, Z.eqb_neq in Hnz. lia. }
  assert (0 < 10 ^ Z.of_nat (length ds)) by (apply Z.pow_pos_nonneg; lia).
  nia.
Qed.

Lemma header_token_pos t : header_token t = true -> 0 < magnitude t.
Proof.
  unfold header_token, token_ok.
  intros [[[_ Hd]%andb_true_iff _]%andb_true_iff Hnz]%andb_true_iff.
  now apply nonzero_head_pos.
Qed.

Section Decode.

Context (E : env).

(** The decoder on a well-formed text. *)
Lemma decode_text path w tw th tm px trailing :
  fopen E path = Some (ppm_text tw th tm px trailing) ->
  header_ok tw th tm ->
  forallb pixel_ok px = true ->
  Z.of_nat (length px) = magnitude tw * magnitude th ->
  delimited trailing = true ->
  malloc_succeeds E (next w) (magnitude tw * magnitude th * 4) = true ->
  malloc_succeeds E (Pos.succ (next w)) sizeof_PPMFile = true ->
  ppm_read_file E path w
  = Ret (Some (Pos.succ (next w)))
        {| heap := <[Pos.succ (next w) := Struct (shown_image path tw th tm (next w))]>
                     (<[next w := Bytes (flat_map cell (map pixel_value px))]> (heap w));
           next := Pos.succ (Pos.succ (next w));
           trace := trace w |}.
Proof.
  intros Hopen (Hw & Hh & Hm & Hsize & Hmax) Hpx Hlen Htr Hm1 Hm2.
  pose proof (header_token_pos _ Hw). pose proof (header_token_pos _ Hh).
  pose proof (header_token_ok _ Hh) as Hh'. pose proof (header_token_ok _ Hm) as Hm'.
  assert (Hdp : delimited (pixels_text px ++ trailing) = true)
    by now apply delimited_pixels.
  rewrite (ppm_read_file_scanned E path w (ppm_text tw th tm px trailing)
             (token_text tw ++ token_text th ++ token_text tm
              ++ pixels_text px ++ trailing)
             (magnitude tw)
             (token_text th ++ token_text tm ++ pixels_text px ++ trailing)
             (magnitude th)
             (token_text tm ++ pixels_text px ++ trailing)
             (magnitude tm) (pixels_text px ++ trailing)); try done.
  - cbv zeta.
    replace (Z.to_nat (magnitude tw * magnitude th)) with (length px) by lia.
    rewrite scan_triplets_pixels by done.
    unfold with_pixels. cbn [heap next trace].
    rewrite Hm2, length_map, Nat.sub_diag, app_nil_r. reflexivity.
  - apply scan_i_token; [done|nia|now apply delimited_token].
  - apply scan_i_token; [done|nia|now apply delimited_token].
  - now apply scan_i_token.
  - nia.
Qed.

End Decode.


Lemma length_cells vals : length (flat_map cell vals) = (4 * length vals)%nat.
Proof.
  induction vals as [|[[r g] b] vals IH]; [done|].
  cbn [flat_map cell app length]. lia.
Qed.

(** *** Releases, plain samples, the presenter, the example worlds *)








Lemma flat_map_stored px : flat_map cell (map pixel_value px) = flat_map stored px.
Proof.
  induction px as [|[[r g] b] px IH]; [done|].
  cbn [map flat_map]. now rewrite IH.
Qed.

Lemma preserved_with_pixels n px w es :
  world_ok w -> preserved w (add_trace es (with_pixels n px w)).
Proof.
  intros Hw b o Hb. simpl. rewrite lookup_insert_ne; [done|].
  intros <-. apply Hw in Hb. lia.
Qed.

Lemma one_image_ok : world_ok one_image.
Proof.
  intros b o Hb. unfold one_image in *. cbn [heap next] in *.
  destruct (decide (b = 1%positive)) as [->|H1]; [done|].
  destruct (decide (b = 2%positive)) as [->|H2]; [done|].
  now rewrite !lookup_insert_ne in Hb by done.
Qed.

Lemma empty_world_ok : world_ok empty_world.
Proof. intros b o Hb. simpl in Hb. now rewrite lookup_empty in Hb. Qed.

Lemma sdl_add E c w :
  sdl E c w = Ret (sdl_succeeds E (trace w) c) (add_trace [Sdl c] w).
Proof. reflexivity. Qed.

Lemma sdl_render_once_image E p f bs w :
  image_at w p f bs ->
  Z.of_nat (length bs) = buffer_size f ->
  sdl_render_once E (Some p) w
  = if negb (sdl_succeeds E (trace w) (SDL_CreateTexture (width f) (height f)))
    then Exit EXIT_FAILURE
           (add_trace [Sdl (SDL_CreateTexture (width f) (height f));
                       Fprintf stderr (line "Failed to create SDL texture: %s.")
                         [ArgSdlError]] w)
    else if negb (sdl_succeeds E
                    (trace w ++ [Sdl (SDL_CreateTexture (width f) (height f))])
                    SDL_LockTexture)
    then Exit EXIT_FAILURE
           (add_trace [Sdl (SDL_CreateTexture (width f) (height f));
                       Sdl SDL_LockTexture;
                       Fprintf stderr (line "Failed to lock SDL texture: %s.")
                         [ArgSdlError]] w)
    else Ret tt (add_trace (image_frame f bs) w).
Proof.
  intros (Hp & Hd & _) Hlen. unfold sdl_render_once.
  rewrite bind_unfold, bind_unfold, (load_struct_at p f) by done.
  rewrite bind_unfold, sdl_add.
  destruct (negb (sdl_succeeds E (trace w) _)).
  { unfold fprintf, exit. run_emits. first [reflexivity | f_equal; world_eq]. }
  rewrite bind_unfold, sdl_add. cbn [trace add_trace].
  destruct (negb (sdl_succeeds E _ SDL_LockTexture)).
  { unfold fprintf, exit. run_emits. first [reflexivity | f_equal; world_eq]. }
  rewrite bind_unfold. unfold load_bytes.
  change (heap (add_trace _ (add_trace _ w))) with (heap w). rewrite Hd.
  fold (buffer_size f). rewrite <- Hlen.
  rewrite Z.leb_refl, Nat2Z.id, firstn_all.
  unfold sdl_. run_emits. unfold image_frame. first [reflexivity | f_equal; world_eq].
Qed.

Lemma one_image_at :
  image_at one_image 2%positive
    {| path := "old.ppm"; magic_number := text_of "P3"; width := 1; height := 1;
       max_color := 255; data := 1%positive |}
    [Some 255; Some 3; Some 2; Some 1].
Proof. repeat split; done. Qed.

End Facts.

(** ** Lemmas about the outcomes of the decoder and the event loop *)

Module OutcomeFacts.
Import Libc Imgv Spec Facts Outcomes.

(** *** The outcomes of the decoder *)

Lemma wp_undefined_store {B} d i v (k : M B) w bs (Q : B -> world -> Prop) :
  heap w !! d = Some (Bytes bs) -> i = Z.of_nat (length bs) ->
  wp (store_byte d i v;; k) w Q.
Proof.
  intros Hd ->. unfold wp. rewrite bind_unfold. unfold store_byte. rewrite Hd.
  assert ((Z.of_nat (length bs) <? Z.of_nat (length bs)) = false) as ->
    by (apply Z.ltb_ge; lia).
  now rewrite andb_false_r.
Qed.

(** With room for fewer pixels than the loop is to read, the loop does not
    come to its end: it reports a pixel that cannot be read, or it stores
    past the end of the buffer. *)
Lemma pixel_loop_small_buffer d m : forall n i f w bs,
  heap w !! d = Some (Bytes bs) ->
  0 <= i ->
  Z.of_nat (length bs) = 4 * (i + Z.of_nat m) ->
  (m < n)%nat ->
  4 * (i + Z.of_nat m) < 2 ^ 31 ->
  wp (pixel_loop n i d f) w (fun after _ => after = None).
Proof.
  induction m as [|m IH]; intros n i f w bs Hd Hi Hlen Hmn Hmax;
    (destruct n as [|n]; [lia|]); simpl pixel_loop;
    destruct (fscanf_hhu3 f 0 0 0) as [[[[k r] g] b] f'];
    (destruct (negb (k =? 3)); [apply wp_bind, wp_fprintf, wp_ret; reflexivity|]).
  - eapply wp_undefined_store; [exact Hd|].
    rewrite wrap_int_small by lia. lia.
  - assert (Hsplit : bs = take (Z.to_nat (4 * i)) bs ++ drop (Z.to_nat (4 * i)) bs)
      by (symmetry; apply take_drop).
    assert (Hpre : Z.of_nat (length (take (Z.to_nat (4 * i)) bs)) = 4 * i)
      by (rewrite length_take; lia).
    assert (Hpost : length (drop (Z.to_nat (4 * i)) bs) = (4 * S m)%nat)
      by (rewrite length_drop; lia).
    destruct (drop (Z.to_nat (4 * i)) bs) as [|x0 [|x1 [|x2 [|x3 post]]]];
      simpl in Hpost; try lia.
    rewrite Hsplit in Hd.
    unfold wp.
    rewrite (store_cell d i r g b _ x0 x1 x2 x3 post) by (done || lia).
    apply (IH n (i + 1) f' _ (take (Z.to_nat (4 * i)) bs ++ cell (r, g, b) ++ post)).
    + simpl. now rewrite lookup_insert_eq.
    + lia.
    + rewrite !length_app. simpl. lia.
    + lia.
    + lia.
Qed.


Lemma wp_and {A} (m : M A) w (Q1 Q2 : A -> world -> Prop) :
  wp m w Q1 -> wp m w Q2 -> wp m w (fun a w' => Q1 a w' /\ Q2 a w').
Proof. unfold wp. destruct (m w); tauto. Qed.

Lemma wrap_int_range z : - 2 ^ 31 <= wrap_int z < 2 ^ 31.
Proof.
  unfold wrap_int. pose proof (Z.mod_pos_bound (z + 2 ^ 31) (2 ^ 32)). lia.
Qed.

(** The tag that passes the test of line 27. *)
Lemma magic_P3 text k magic f1 :
  fscanf_2s text = (k, magic, f1) ->
  negb (k =? 1) || negb (code (char_at magic 0) =? 80)
  || negb (code (char_at magic 1) =? 51) = false ->
  magic = ["P"%char; "3"%char] /\ eat_space text = "P"%char :: "3"%char :: f1.
Proof.
  unfold fscanf_2s, scan_s. intros Hscan Hcheck.
  apply orb_false_iff in Hcheck as [Hcheck H1].
  apply orb_false_iff in Hcheck as [Hk H0].
  apply negb_false_iff, Z.eqb_eq in Hk, H0, H1.
  destruct (eat_space text) as [|c s] eqn:He.
  { simpl in Hscan. injection Hscan as <- _ _. discriminate. }
  pose proof (eat_space_head _ _ _ He) as Hc.
  simpl in Hscan. rewrite Hc in Hscan.
  destruct s as [|c2 s].
  { injection Hscan as _ <- _. discriminate. }
  destruct (isspace c2).
  { injection Hscan as _ <- _. discriminate. }
  injection Hscan as _ <- <-. simpl in H0, H1.
  apply (code_inj c "P"%char) in H0. apply (code_inj c2 "3"%char) in H1.
  now subst.
Qed.

Lemma fscanf_i_i_two f1 w0 h0 wd ht f3 :
  fscanf_i_i f1 w0 h0 = (2, wd, ht, f3) ->
  exists f2, scan_i f1 = Converted wd f2 /\ scan_i f2 = Converted ht f3.
Proof.
  unfold fscanf_i_i.
  destruct (scan_i f1) as [a f2| |]; [|discriminate..].
  destruct (scan_i f2) as [b f3'| |] eqn:H2; [|discriminate..].
  intros [= <- <- <-]. now exists f2.
Qed.

Lemma fscanf_i_one f m0 mc f' :
  fscanf_i f m0 = (1, mc, f') -> scan_i f = Converted mc f'.
Proof.
  unfold fscanf_i. destruct (scan_i f) as [a r| |]; [|discriminate..].
  now intros [= <- <-].
Qed.

Lemma world_eta h n t w : heap w = h -> next w = n -> trace w = t ->
  w = {| heap := h; next := n; trace := t |}.
Proof. destruct w. simpl. now intros -> -> ->. Qed.

Section Outcome.

Context (E : env).

(** Lines 76-89: the struct is allocated and filled in, or line 78
    reports that it could not be. *)
Lemma wp_struct_tail f bs w (Q : option block -> world -> Prop) :
  Q None (add_trace [struct_error] (with_buffer bs w)) ->
  Q (Some (Pos.succ (next w))) (with_image f bs w) ->
  wp (ppm_file ← malloc E sizeof_PPMFile;
      match ppm_file with
      | None =>
          fprintf stderr (line "Failed to allocate PPMFile struct.") [];;
          ret None
      | Some ppm_file => store_struct ppm_file f;; ret (Some ppm_file)
      end) (with_buffer bs w) Q.
Proof.
  intros Hnone Hsome. unfold wp. rewrite bind_unfold. unfold malloc.
  destruct (_ && _).
  - rewrite bind_unfold. unfold store_struct. cbn [heap next trace with_buffer].
    rewrite lookup_insert_eq. unfold ret. rewrite insert_insert_eq. exact Hsome.
  - unfold fprintf. run_emits. exact Hnone.
Qed.

(** What a run of [ppm_read_file] that returns has done, whatever the
    file holds. *)
Lemma ppm_read_file_outcome path w :
  wp (ppm_read_file E path) w (read_outcome E path w).
Proof.
  unfold ppm_read_file.
  destruct (fopen E path) as [text|] eqn:Hopen.
  2:{ apply wp_bind, wp_fprintf, wp_ret. left. eexists. split; [|reflexivity].
      simpl. auto. }
  destruct (fscanf_2s text) as [[k magic] f1] eqn:Hmagic.
  destruct (_ || _) eqn:Hcheck.
  { apply wp_bind, wp_fprintf, wp_ret. left. eexists. split; [|reflexivity].
    simpl. auto. }
  destruct (magic_P3 _ _ _ _ Hmagic Hcheck) as [-> Htag].
  destruct (fscanf_i_i f1 0 0) as [[[k2 wd] ht] f2] eqn:Hdims.
  destruct (negb (k2 =? 2)) eqn:Hk2.
  { apply wp_bind, wp_fprintf, wp_ret. left. eexists. split; [|reflexivity].
    simpl. auto. }
  apply negb_false_iff, Z.eqb_eq in Hk2. subst k2.
  apply fscanf_i_i_two in Hdims as (f1' & Hwd & Hht).
  destruct (fscanf_i f2 0) as [[k3 mc] f3] eqn:Hmax.
  destruct (negb (k3 =? 1)) eqn:Hk3.
  { apply wp_bind, wp_fprintf, wp_ret. left. eexists. split; [|reflexivity].
    simpl. auto 6. }
  apply negb_false_iff, Z.eqb_eq in Hk3. subst k3.
  apply fscanf_i_one in Hmax.
  cbv zeta.
  set (n := wrap_int (wd * ht)). set (L := wrap_int (n * 4)).
  pose proof (wrap_int_range (wd * ht)) as Hn. fold n in Hn.
  pose proof (wrap_int_range (n * 4)) as HL. fold L in HL.
  assert (HLdef : L = wrap_int (n * 4)) by reflexivity.
  set (f := {| path := path; magic_number := ["P"%char; "3"%char];
               width := wd; height := ht; max_color := mc; data := next w |}).
  assert (Hhead : header_scans text f f3) by (now exists f1, f1', f2).
  unfold wp. rewrite bind_unfold. unfold malloc at 1.
  destruct (to_size_t L <=? PTRDIFF_MAX) eqn:Hsize; cbn [andb].
  2:{ unfold fprintf. run_emits. left. eexists. split; [|reflexivity].
      simpl. auto 7. }
  destruct (malloc_succeeds E (next w) (to_size_t L)).
  2:{ unfold fprintf. run_emits. left. eexists. split; [|reflexivity].
      simpl. auto 7. }
  apply Z.leb_le in Hsize. unfold to_size_t, PTRDIFF_MAX in Hsize.
  assert (HL0 : 0 <= L).
  { destruct (Z.lt_ge_cases L 0) as [Hneg|]; [|done].
    rewrite <- (Z.mod_add L 1 (2 ^ 64)) in Hsize by lia.
    rewrite Z.mod_small in Hsize by lia. lia. }
  unfold to_size_t. rewrite (Z.mod_small L) by lia.
  fold (with_buffer (replicate (Z.to_nat L) None) w).
  assert (Hsz : Z.of_nat (length (replicate (Z.to_nat L) (@None Z))) = buffer_size f).
  { rewrite length_replicate. unfold buffer_size, to_size_t. simpl. fold n. fold L.
    rewrite Z.mod_small by lia. lia. }
  fold (wp (after ← pixel_loop (Z.to_nat n) 0 (next w) f3;
            match after with
            | None => ret None
            | Some _ =>
                ppm_file ← malloc E sizeof_PPMFile;
                match ppm_file with
                | None =>
                    fprintf stderr (line "Failed to allocate PPMFile struct.") [];;
                    ret None
                | Some ppm_file => store_struct ppm_file f;; ret (Some ppm_file)
                end
            end) (with_buffer (replicate (Z.to_nat L) None) w) (read_outcome E path w)).
  destruct (Z.le_gt_cases n 0) as [Hn0|Hn0].
  - (* no iteration *)
    replace (Z.to_nat n) with 0%nat by lia. simpl pixel_loop.
    apply wp_bind, wp_ret, wp_struct_tail.
    + right. exists struct_error, (replicate (Z.to_nat L) None).
      split; [simpl; auto|reflexivity].
    + exists f, (replicate (Z.to_nat L) None), text, f3. repeat split; auto.
      unfold num_pixels. simpl. fold n. intros Hn1.
      assert (n = 0) as Hz by lia. exists [], f3. split; [now rewrite Hz|].
      replace L with 0; [reflexivity|]. now rewrite HLdef, Hz.
  - destruct (Z.lt_ge_cases (n * 4) (2 ^ 31)) as [Hfit|Hover].
    + (* the buffer has room for every pixel *)
      assert (L = n * 4) as HLn by (rewrite HLdef; apply wrap_int_small; lia).
      unfold wp. rewrite bind_unfold.
      rewrite (pixel_loop_spec (next w) (Z.to_nat n) 0 f3 _ []
                 (replicate (Z.to_nat L) None));
        [|simpl; now rewrite lookup_insert_eq|reflexivity
         |rewrite length_replicate; lia|lia].
      pose proof (scan_triplets_length (Z.to_nat n) f3) as [Hle Hall].
      destruct (scan_triplets (Z.to_nat n) f3) as [px after] eqn:Hpx.
      simpl in Hle, Hall.
      destruct after as [f4|].
      * specialize (Hall _ eq_refl).
        rewrite add_trace_nil.
        rewrite drop_ge by (rewrite length_replicate; lia).
        rewrite app_nil_r. cbn [app].
        replace (set_heap _ _) with (with_buffer (flat_map cell px) w)
          by (unfold set_heap, with_buffer; simpl; now rewrite insert_insert_eq).
        apply wp_struct_tail.
        -- right. exists struct_error, (flat_map cell px).
           split; [simpl; auto|reflexivity].
        -- exists f, (flat_map cell px), text, f3. repeat split; auto.
           ++ rewrite length_cells. unfold buffer_size, to_size_t. simpl.
              fold n. fold L. rewrite Z.mod_small by lia. lia.
           ++ intros _. exists px, f4. split; [exact Hpx|reflexivity].
      * unfold ret. right. eexists pixel_error, _. split; [simpl; auto|].
        unfold set_heap, with_buffer, add_trace. simpl.
        rewrite insert_insert_eq. reflexivity.
    + (* the size wrapped around: the buffer is too small *)
      assert (Hdiv : L = 4 * (n - 2 ^ 30 * ((n * 4 + 2 ^ 31) / 2 ^ 32))).
      { rewrite HLdef. unfold wrap_int. rewrite Z.mod_eq by lia. lia. }
      assert (Hk : 1 <= (n * 4 + 2 ^ 31) / 2 ^ 32)
        by (apply Z.div_le_lower_bound; lia).
      set (m := n - 2 ^ 30 * ((n * 4 + 2 ^ 31) / 2 ^ 32)) in *.
      assert (Hm : m = n - 2 ^ 30 * ((n * 4 + 2 ^ 31) / 2 ^ 32)) by reflexivity.
      clearbody m.
      apply wp_bind.
      eapply wp_mono.
      { apply wp_and.
        - apply (pixel_loop_small_buffer (next w) (Z.to_nat m) (Z.to_nat n) 0 f3 _
                   (replicate (Z.to_nat L) None)).
          + simpl. now rewrite lookup_insert_eq.
          + lia.
          + rewrite length_replicate. lia.
          + lia.
          + lia.
        - apply (pixel_loop_touches (next w) _ _ _
                   (with_buffer (replicate (Z.to_nat L) None) w)), touches_refl. }
      intros after w2 [-> (Hnx & Htr & Hothers & Hbuf)].
      apply wp_ret.
      destruct (Hbuf _ (lookup_insert_eq _ _ _)) as [bs' Hbs'].
      right. exists pixel_error, bs'. split; [simpl; auto|].
      apply world_eta; [|exact Hnx|exact Htr].
      apply map_eq. intros b. simpl.
      destruct (decide (b = next w)) as [->|Hne].
      * now rewrite Hbs', lookup_insert_eq.
      * rewrite Hothers by done. simpl. now rewrite !lookup_insert_ne by done.
Qed.

End Outcome.

Lemma ppm_read_file_outcome_ret E path w r w' :
  ppm_read_file E path w = Ret r w' -> read_outcome E path w r w'.
Proof.
  intros H. pose proof (ppm_read_file_outcome E path w) as Hwp.
  unfold wp in Hwp. now rewrite H in Hwp.
Qed.

Lemma ppm_read_file_no_exit E path w st w' : ppm_read_file E path w <> Exit st w'.
Proof.
  intros H. pose proof (ppm_read_file_outcome E path w) as Hwp.
  unfold wp in Hwp. now rewrite H in Hwp.
Qed.

Lemma header_scans_fun text f f4 g g4 :
  header_scans text f f4 -> header_scans text g g4 ->
  width f = width g /\ height f = height g /\ max_color f = max_color g /\ f4 = g4.
Proof.
  intros (a1 & a2 & a3 & Ha & Ha1 & Ha2 & Ha3) (b1 & b2 & b3 & Hb & Hb1 & Hb2 & Hb3).
  rewrite Ha in Hb. injection Hb as <-.
  rewrite Ha1 in Hb1. injection Hb1 as -> <-.
  rewrite Ha2 in Hb2. injection Hb2 as -> <-.
  rewrite Ha3 in Hb3. injection Hb3 as -> <-.
  auto.
Qed.

(** *** A buffer that is too small *)

Lemma scan_triplets_S n f :
  scan_triplets (S n) f
  = match scan_triplet f with
    | None => ([], None)
    | Some (r, g, b, f') =>
        let '(px, after) := scan_triplets n f' in ((r, g, b) :: px, after)
    end.
Proof. reflexivity. Qed.

Lemma pixel_loop_overflows d m : forall n i f w bs px after,
  heap w !! d = Some (Bytes bs) ->
  0 <= i ->
  Z.of_nat (length bs) = 4 * (i + Z.of_nat m) ->
  (m < n)%nat ->
  4 * (i + Z.of_nat m) < 2 ^ 31 ->
  scan_triplets (S m) f = (px, Some after) ->
  pixel_loop n i d f w = Undefined.
Proof.
  induction m as [|m IH]; intros n i f w bs px after Hd Hi Hlen Hmn Hmax Hscan;
    (destruct n as [|n]; [lia|]); cbn [pixel_loop];
    pose proof (fscanf_hhu3_spec f 0 0 0) as Hf;
    rewrite scan_triplets_S in Hscan;
    (destruct (scan_triplet f) as [[[[r g] b] f']|]; [|discriminate]);
    rewrite Hf; change (negb (3 =? 3)) with false; cbv iota.
  - rewrite bind_unfold. unfold store_byte. rewrite Hd.
    rewrite wrap_int_small by lia.
    assert ((i * 4 <? Z.of_nat (length bs)) = false) as -> by (apply Z.ltb_ge; lia).
    now rewrite andb_false_r.
  - destruct (scan_triplets (S m) f') as [px' after'] eqn:Hrest.
    injection Hscan as _ ->.
    assert (Hsplit : bs = take (Z.to_nat (4 * i)) bs ++ drop (Z.to_nat (4 * i)) bs)
      by (symmetry; apply take_drop).
    assert (Hpre : Z.of_nat (length (take (Z.to_nat (4 * i)) bs)) = 4 * i)
      by (rewrite length_take; lia).
    assert (Hpost : length (drop (Z.to_nat (4 * i)) bs) = (4 * S m)%nat)
      by (rewrite length_drop; lia).
    destruct (drop (Z.to_nat (4 * i)) bs) as [|x0 [|x1 [|x2 [|x3 post]]]];
      simpl in Hpost; try lia.
    rewrite Hsplit in Hd.
    rewrite (store_cell d i r g b _ x0 x1 x2 x3 post) by (done || lia).
    apply (IH n (i + 1) f' _ (take (Z.to_nat (4 * i)) bs ++ cell (r, g, b) ++ post)
              px' after).
    + simpl. now rewrite lookup_insert_eq.
    + lia.
    + rewrite !length_app. simpl. lia.
    + lia.
    + lia.
    + exact Hrest.
Qed.

(** *** The decoder on a header that scans *)

Section Header.

Context (E : env).

(** Lines 47-89 are what is left to do once the header is read. *)
Lemma header_steps path text f f4 w :
  fopen E path = Some text -> header_scans text f f4 ->
  ppm_read_file E path w
  = (let num_pixels := wrap_int (width f * height f) in
     data ← malloc E (to_size_t (wrap_int (num_pixels * 4)));
     match data with
     | None =>
         fprintf stderr (line "Failed to allocate image pixel data array.") [];;
         ret None
     | Some data =>
         after ← pixel_loop (Z.to_nat num_pixels) 0 data f4;
         match after with
         | None => ret None
         | Some _ =>
             ppm_file ← malloc E sizeof_PPMFile;
             match ppm_file with
             | None =>
                 fprintf stderr (line "Failed to allocate PPMFile struct.") [];;
                 ret None
             | Some ppm_file =>
                 store_struct ppm_file (decoded path f data);;
                 ret (Some ppm_file)
             end
         end
     end) w.
Proof.
  intros Hopen (f1 & f2 & f3 & Htag & Hw & Hh & Hm).
  unfold ppm_read_file. rewrite Hopen, (fscanf_2s_P3 _ _ Htag).
  change (negb (1 =? 1) || _ || _) with false. cbv iota.
  rewrite (fscanf_i_i_ok _ _ _ _ _ 0 0 Hw Hh).
  change (negb (2 =? 2)) with false. cbv iota.
  rewrite (fscanf_i_ok _ _ _ 0 Hm).
  change (negb (1 =? 1)) with false. cbv iota. reflexivity.
Qed.

(** The decoder against [scan_triplets], for a size that fits. *)
Lemma ppm_read_file_fits path w text f f4 :
  fopen E path = Some text -> header_scans text f f4 ->
  0 <= num_pixels f -> num_pixels f * 4 < 2 ^ 31 ->
  malloc_succeeds E (next w) (num_pixels f * 4) = true ->
  ppm_read_file E path w
  = let n := Z.to_nat (num_pixels f) in
    let '(px, after) := scan_triplets n f4 in
    match after with
    | None => Ret None (add_trace [pixel_error] (with_buffer (partly_written n px) w))
    | Some _ =>
        if malloc_succeeds E (Pos.succ (next w)) sizeof_PPMFile
        then Ret (Some (Pos.succ (next w)))
               (with_image (decoded path f (next w)) (partly_written n px) w)
        else Ret None (add_trace [struct_error] (with_buffer (partly_written n px) w))
    end.
Proof.
  intros Hopen Hhead Hpos Hmax Hmalloc.
  rewrite (header_steps path text f f4 w Hopen Hhead).
  cbv zeta. change (wrap_int (width f * height f)) with (num_pixels f).
  rewrite (wrap_int_small (num_pixels f * 4)) by lia.
  rewrite to_size_t_small by lia.
  rewrite bind_unfold.
  rewrite (malloc_ok E (num_pixels f * 4) w) by (done || (unfold PTRDIFF_MAX; lia)).
  rewrite bind_unfold.
  set (n := Z.to_nat (num_pixels f)).
  rewrite (pixel_loop_spec (next w) n 0 f4 _ [] (replicate (4 * n) None)); cycle 1.
  { simpl. rewrite lookup_insert_eq. do 3 f_equal. lia. }
  { reflexivity. }
  { apply length_replicate. }
  { lia. }
  pose proof (scan_triplets_length n f4) as [Hle Heq].
  destruct (scan_triplets n f4) as [px after]. simpl in Hle, Heq.
  match goal with
  | |- context [set_heap ?h ?w0] =>
      replace (set_heap h w0) with (with_buffer (partly_written n px) w)
  end.
  2:{ unfold set_heap, with_buffer, partly_written. cbn [heap next trace].
      rewrite insert_insert_eq, drop_replicate, app_nil_l.
      do 4 f_equal. f_equal. lia. }
  destruct after as [f5|].
  - rewrite add_trace_nil, bind_unfold. unfold malloc.
    change (sizeof_PPMFile <=? PTRDIFF_MAX) with true. cbn [andb].
    cbn [next with_buffer].
    destruct (malloc_succeeds E (Pos.succ (next w)) sizeof_PPMFile).
    + rewrite bind_unfold. unfold store_struct. cbn [heap next trace with_buffer].
      rewrite lookup_insert_eq, insert_insert_eq. reflexivity.
    + reflexivity.
  - reflexivity.
Qed.

Lemma ppm_read_file_refused path w text f f4 :
  fopen E path = Some text -> header_scans text f f4 ->
  wrap_int (num_pixels f * 4) < 0 \/
  malloc_succeeds E (next w) (buffer_size f) = false ->
  ppm_read_file E path w = Ret None (add_trace [allocation_error] w).
Proof.
  intros Hopen Hhead Hfail.
  rewrite (header_steps path text f f4 w Hopen Hhead).
  cbv zeta. change (wrap_int (width f * height f)) with (num_pixels f).
  change (to_size_t (wrap_int (num_pixels f * 4))) with (buffer_size f).
  rewrite bind_unfold. unfold malloc.
  assert ((buffer_size f <=? PTRDIFF_MAX)
          && malloc_succeeds E (next w) (buffer_size f) = false) as ->.
  { destruct Hfail as [Hneg| ->]; [|apply andb_false_r].
    apply andb_false_iff. left. apply Z.leb_gt.
    unfold buffer_size, to_size_t, PTRDIFF_MAX.
    change (wrap_int (wrap_int (width f * height f) * 4))
      with (wrap_int (num_pixels f * 4)).
    pose proof (wrap_int_range (num_pixels f * 4)).
    rewrite <- (Z.mod_add _ 1 (2 ^ 64)) by lia.
    rewrite Z.mod_small by lia. lia. }
  unfold fprintf. run_emits. reflexivity.
Qed.

Lemma ppm_read_file_max_color_error path w text f1 wd f2 ht f3 :
  fopen E path = Some text ->
  eat_space text = "P"%char :: "3"%char :: f1 ->
  scan_i f1 = Converted wd f2 ->
  scan_i f2 = Converted ht f3 ->
  (forall mc f4, scan_i f3 <> Converted mc f4) ->
  ppm_read_file E path w = Ret None (add_trace [max_color_error] w).
Proof.
  intros Hopen Htag Hw Hh Hm.
  unfold ppm_read_file. rewrite Hopen, (fscanf_2s_P3 _ _ Htag).
  change (negb (1 =? 1) || _ || _) with false. cbv iota.
  rewrite (fscanf_i_i_ok _ _ _ _ _ 0 0 Hw Hh).
  change (negb (2 =? 2)) with false. cbv iota.
  destruct (fscanf_i f3 0) as [[k mc] f4] eqn:Hmax.
  destruct (negb (k =? 1)) eqn:Hk.
  - unfold fprintf. run_emits. reflexivity.
  - apply negb_false_iff, Z.eqb_eq in Hk. subst k.
    apply fscanf_i_one in Hmax. now apply Hm in Hmax.
Qed.

End Header.

(** *** Headers with a sign or beyond the range of [int] *)

Lemma scan_i_signed t rest :
  decimal_token t = true -> delimited rest = true ->
  scan_i (token_text t ++ rest) = Converted (int_value t) rest.
Proof.
  intros Ht Hrest. apply andb_true_iff in Ht as [Hok Hhead].
  apply andb_true_iff in Hok as [Hsep Hds].
  unfold scan_i, token_text. rewrite <- !app_assoc.
  now rewrite (scan_number_i_decimal (sign t) (sep t) (digits t) rest).
Qed.

Lemma decimal_token_ok t : decimal_token t = true -> token_ok t = true.
Proof. intros Ht. now apply andb_true_iff in Ht as [Hok _]. Qed.

Lemma header_scans_text tw th tm px trailing :
  decimal_token tw = true -> decimal_token th = true -> decimal_token tm = true ->
  forallb pixel_ok px = true -> delimited trailing = true ->
  header_scans (ppm_text tw th tm px trailing) (header_of tw th tm)
    (pixels_text px ++ trailing).
Proof.
  intros Hw Hh Hm Hpx Htrail.
  exists (token_text tw ++ token_text th ++ token_text tm ++ pixels_text px ++ trailing),
         (token_text th ++ token_text tm ++ pixels_text px ++ trailing),
         (token_text tm ++ pixels_text px ++ trailing).
  split; [reflexivity|].
  split; [|split].
  - apply scan_i_signed; [done|]. now apply delimited_token, decimal_token_ok.
  - apply scan_i_signed; [done|]. now apply delimited_token, decimal_token_ok.
  - apply scan_i_signed; [done|]. now apply delimited_pixels.
Qed.

(** *** [%i] after a leading zero *)

Lemma digit_in_8_digit c : digit_in 8 c = true -> isdigit c = true /\ code c < 56.
Proof.
  unfold digit_in. change (8 =? 16) with false. cbv iota.
  intros H. apply andb_true_iff in H as [Hd Hlt]. apply Z.ltb_lt in Hlt.
  split; [exact Hd|lia].
Qed.

Lemma read_digits_octal ds rest :
  forallb (digit_in 8) ds = true -> delimited rest = true ->
  read_digits 8 (ds ++ rest) = (ds, rest).
Proof.
  intros Hds Hrest. induction ds as [|c ds IH].
  - destruct rest as [|c rest]; [reflexivity|]. simpl in *.
    unfold digit_in. change (8 =? 16) with false. cbv iota.
    apply negb_true_iff in Hrest. now rewrite Hrest.
  - simpl in *. apply andb_true_iff in Hds as [Hc Hds].
    rewrite Hc, IH by done. reflexivity.
Qed.

Lemma scan_i_octal_digits sp ds rest :
  blank sp = true -> octal ds = true -> delimited rest = true ->
  scan_i (sp ++ "0"%char :: ds ++ rest) = Converted (octal_value ds) rest.
Proof.
  intros Hsp Hds Hrest. unfold scan_i, scan_number.
  rewrite (eat_space_blank sp) by done.
  destruct ds as [|d ds]; [discriminate|].
  assert (Hall : forallb (digit_in 8) (d :: ds) = true) by exact Hds.
  change (eat_space ("0"%char :: (d :: ds) ++ rest))
    with ("0"%char :: (d :: ds) ++ rest).
  cbv iota beta.
  change (read_sign ("0"%char :: (d :: ds) ++ rest))
    with (@None bool, "0"%char :: (d :: ds) ++ rest).
  cbv iota beta.
  assert (Hbase : read_base 0 ("0"%char :: (d :: ds) ++ rest)
                  = (["0"%char], 8, (d :: ds) ++ rest)).
  { cbn [read_base app]. change (code "0" =? 48) with true. cbv iota.
    simpl in Hall. apply andb_true_iff in Hall as [Hd _].
    apply digit_in_8_digit in Hd as [Hdig Hlt].
    unfold isdigit in Hdig. apply andb_true_iff in Hdig as [Hlo Hhi].
    apply Z.leb_le in Hlo, Hhi.
    assert ((tolower d =? 120) = false) as ->.
    { apply Z.eqb_neq. unfold tolower.
      destruct ((65 <=? code d) && (code d <=? 90)) eqn:Hup; [|lia].
      apply andb_true_iff in Hup as [Hup _]. apply Z.leb_le in Hup. lia. }
    reflexivity. }
  rewrite Hbase. cbv iota beta.
  rewrite (read_digits_octal (d :: ds) rest Hall Hrest). reflexivity.
Qed.

Lemma header_scans_octal sp ds th tm px trailing :
  blank sp = true -> octal ds = true ->
  decimal_token th = true -> decimal_token tm = true ->
  forallb pixel_ok px = true -> delimited trailing = true ->
  header_scans (octal_width_text sp ds th tm px trailing)
    (header (octal_value ds) (int_value th) (int_value tm))
    (pixels_text px ++ trailing).
Proof.
  intros Hsp Hds Hh Hm Hpx Htrail.
  exists (sp ++ "0"%char :: ds ++ token_text th ++ token_text tm
          ++ pixels_text px ++ trailing),
         (token_text th ++ token_text tm ++ pixels_text px ++ trailing),
         (token_text tm ++ pixels_text px ++ trailing).
  split; [reflexivity|].
  split; [|split].
  - apply scan_i_octal_digits; [done..|]. now apply delimited_token, decimal_token_ok.
  - apply scan_i_signed; [done|]. now apply delimited_token, decimal_token_ok.
  - apply scan_i_signed; [done|]. now apply delimited_pixels.
Qed.

(** *** Files that fit *)

(** The header of a text, as [ppm_read_file] scans it. *)
Lemma scan_header_scans text wd ht mc f4 :
  scan_header text = Some (wd, ht, mc, f4) ->
  forall f g4, header_scans text f g4 ->
               width f = wd /\ height f = ht /\ max_color f = mc /\ g4 = f4.
Proof.
  unfold scan_header. intros Hscan f g4 (f1 & f2 & f3 & Htag & Hw & Hh & Hm).
  rewrite Htag, Hw, Hh, Hm in Hscan. now injection Hscan as <- <- <- <-.
Qed.

Lemma scan_header_none text f g4 :
  scan_header text = None -> ~ header_scans text f g4.
Proof.
  unfold scan_header. intros Hscan (f1 & f2 & f3 & Htag & Hw & Hh & Hm).
  now rewrite Htag, Hw, Hh, Hm in Hscan.
Qed.

Lemma files_fit_friendly files :
  forallb (fun file => text_fits file.2) files = true -> files_fit (friendly files).
Proof.
  intros Hall path text f f4 Hopen Hhead. simpl in Hopen.
  induction files as [|[name content] files IH]; [discriminate|].
  simpl in Hall, Hopen. apply andb_true_iff in Hall as [Hfit Hall].
  destruct (String.eqb name path); [|now apply IH].
  injection Hopen as ->. unfold text_fits in Hfit.
  destruct (scan_header text) as [[[[wd ht] mc] g4]|] eqn:Hscan.
  - destruct (scan_header_scans _ _ _ _ _ Hscan f f4 Hhead) as (Hw & Hh & _).
    unfold fits, num_pixels. rewrite Hw, Hh.
    apply orb_true_iff in Hfit as [Hle|Hlt]; [left; lia|right; lia].
  - now apply scan_header_none in Hhead.
Qed.

(** *** Worlds with a new image *)

Lemma world_ok_with_image f bs w : world_ok w -> world_ok (with_image f bs w).
Proof.
  intros Hw b o Hb. simpl in *.
  destruct (decide (b = Pos.succ (next w))) as [->|]; [lia|].
  rewrite lookup_insert_ne in Hb by done.
  destruct (decide (b = next w)) as [->|]; [lia|].
  rewrite lookup_insert_ne in Hb by done. apply Hw in Hb. lia.
Qed.

Lemma preserved_with_image f bs w : world_ok w -> preserved w (with_image f bs w).
Proof.
  intros Hw b o Hb. pose proof (Hw _ _ Hb). simpl.
  rewrite !lookup_insert_ne by lia. exact Hb.
Qed.

Lemma image_at_with_image f bs w :
  data f = next w -> image_at (with_image f bs w) (Pos.succ (next w)) f bs.
Proof.
  intros Hd. unfold image_at. simpl. rewrite Hd.
  rewrite lookup_insert_eq, lookup_insert_ne, lookup_insert_eq by lia.
  repeat split; lia.
Qed.

Lemma world_ok_add_trace es w : world_ok w -> world_ok (add_trace es w).
Proof. intros Hw b o Hb. exact (Hw b o Hb). Qed.

Lemma world_ok_with_buffer bs w : world_ok w -> world_ok (with_buffer bs w).
Proof.
  intros Hw b o Hb. simpl in *.
  destruct (decide (b = next w)) as [->|]; [lia|].
  rewrite lookup_insert_ne in Hb by done. apply Hw in Hb. lia.
Qed.

Lemma shown_preserved w w' p : preserved w w' -> shown w p -> shown w' p.
Proof.
  intros Hp. destruct p as [a|]; [|done].
  intros (f & bs & (Ha & Hd & Hne) & Hlen). exists f, bs.
  repeat split; auto.
Qed.

Lemma world_ok_destroyed a d w :
  world_ok w -> world_ok (set_heap (delete a (delete d (heap w))) w).
Proof.
  intros Hw b o Hb. simpl in *.
  destruct (decide (b = a)) as [->|]; [now rewrite lookup_delete_eq in Hb|].
  rewrite lookup_delete_ne in Hb by done.
  destruct (decide (b = d)) as [->|]; [now rewrite lookup_delete_eq in Hb|].
  rewrite lookup_delete_ne in Hb by done. now apply Hw in Hb.
Qed.

(** *** A failed and a successful load, from a state the viewer can be in *)

Lemma read_failure_keeps E path w w1 p :
  viewer_ok w p -> ppm_read_file E path w = Ret None w1 -> viewer_ok w1 p.
Proof.
  intros [Hw Hs] Hread.
  destruct (ppm_read_file_returns E path w None w1 Hw Hread) as (Hw1 & Hpres & _).
  split; [exact Hw1|]. now apply (shown_preserved w).
Qed.

Lemma update_state_image E path old w f bs :
  viewer_ok w old ->
  ppm_read_file E path w = Ret (Some (Pos.succ (next w))) (with_image f bs w) ->
  data f = next w ->
  exists w2,
    update_state E path old w = Ret (true, Some (Pos.succ (next w))) w2 /\
    after_update old w f bs w2 /\
    world_ok w2 /\ image_at w2 (Pos.succ (next w)) f bs.
Proof.
  intros [Hw Hs] Hread Hd.
  pose proof (image_at_with_image f bs w Hd) as Himg.
  pose proof (world_ok_with_image f bs w Hw) as Hw1.
  destruct old as [a|].
  - destruct Hs as (fa & bsa & (Ha & Hda & Hne) & Hlena).
    pose proof (Hw _ _ Ha). pose proof (Hw _ _ Hda).
    assert (Himga : image_at (with_image f bs w) a fa bsa).
    { repeat split; [| |done]; now apply preserved_with_image. }
    destruct Himg as (Hp & Hpd & Hpne).
    exists (add_trace (destroy_events a fa ++ adoption_events (Pos.succ (next w)) f)
              (set_heap (delete a (delete (data fa) (heap (with_image f bs w))))
                 (with_image f bs w))).
    split; [|split; [|split]].
    + apply (update_state_replaces E path w a fa bsa _ _ f Hread Himga Hp); lia.
    + exists fa, bsa. split; [now repeat split|reflexivity].
    + apply world_ok_add_trace, world_ok_destroyed, Hw1.
    + unfold image_at, add_trace, set_heap. cbn [heap].
      rewrite Hd in *. rewrite !lookup_delete_ne by lia. done.
  - exists (add_trace (adoption_events (Pos.succ (next w)) f) (with_image f bs w)).
    split; [|split; [|split]].
    + apply (update_state_adopts E path w _ _ f Hread), Himg.
    + reflexivity.
    + apply world_ok_add_trace, Hw1.
    + exact Himg.
Qed.

Lemma update_state_success E path old w p w1 :
  viewer_ok w old ->
  ppm_read_file E path w = Ret (Some p) w1 ->
  exists f bs w2,
    w1 = with_image f bs w /\ p = Pos.succ (next w) /\ data f = next w /\
    Z.of_nat (length bs) = buffer_size f /\
    update_state E path old w = Ret (true, Some p) w2 /\
    after_update old w f bs w2 /\
    viewer_ok w2 (Some p) /\ image_at w2 p f bs.
Proof.
  intros Hok Hread.
  destruct (ppm_read_file_outcome_ret _ _ _ _ _ Hread)
    as (f & bs & text & f4 & -> & -> & Hd & _ & _ & _ & _ & Hlen & _).
  destruct (update_state_image E path old w f bs Hok Hread Hd)
    as (w2 & Hup & Hafter & Hw2 & Himg).
  exists f, bs, w2.
  refine (conj eq_refl (conj eq_refl (conj Hd (conj Hlen (conj Hup (conj Hafter
            (conj (conj Hw2 _) Himg))))))).
  now exists f, bs.
Qed.

(** *** One event *)

Section Events.

Context (E : env).

Lemma handle_event_passive ev p r w :
  is_drop ev = false ->
  handle_event E ev (p, r) w = Ret (p, r && negb (quits ev)) w.
Proof.
  destruct ev as [|sym|file|]; try discriminate; intros _; simpl.
  - now rewrite andb_false_r.
  - unfold ret. destruct (_ || _); simpl; now rewrite ?andb_false_r, ?andb_true_r.
  - unfold ret. now rewrite andb_true_r.
Qed.

Lemma handle_drop_undefined file old r w :
  ppm_read_file E file w = Undefined ->
  handle_event E (SDL_DROPFILE file) (old, r) w = Undefined.
Proof.
  intros H. simpl. rewrite bind_unfold. unfold update_state.
  now rewrite bind_unfold, H.
Qed.

Lemma handle_drop_failure file old r w w1 :
  ppm_read_file E file w = Ret None w1 ->
  handle_event E (SDL_DROPFILE file) (old, r) w
  = Ret (old, r) (add_trace [Sdl (SDL_free file)] w1).
Proof.
  intros H. simpl. rewrite bind_unfold, (update_state_failed E file old w w1 H).
  unfold sdl_. run_emits. reflexivity.
Qed.

Lemma handle_drop_success file old r w p w2 f bs :
  update_state E file old w = Ret (true, Some p) w2 ->
  image_at w2 p f bs -> Z.of_nat (length bs) = buffer_size f ->
  handle_event E (SDL_DROPFILE file) (old, r) w
  = if negb (sdl_succeeds E (trace w2) (SDL_CreateTexture (width f) (height f)))
    then Exit EXIT_FAILURE
           (add_trace [Sdl (SDL_CreateTexture (width f) (height f));
                       Fprintf stderr (line "Failed to create SDL texture: %s.")
                         [ArgSdlError]] w2)
    else if negb (sdl_succeeds E
                    (trace w2 ++ [Sdl (SDL_CreateTexture (width f) (height f))])
                    SDL_LockTexture)
    then Exit EXIT_FAILURE
           (add_trace [Sdl (SDL_CreateTexture (width f) (height f));
                       Sdl SDL_LockTexture;
                       Fprintf stderr (line "Failed to lock SDL texture: %s.")
                         [ArgSdlError]] w2)
    else Ret (Some p, r) (add_trace (image_frame f bs ++ [Sdl (SDL_free file)]) w2).
Proof.
  intros Hup Himg Hlen. simpl. rewrite bind_unfold, Hup. cbv beta iota.
  rewrite bind_unfold, (sdl_render_once_image E p f bs w2 Himg Hlen).
  destruct (negb (sdl_succeeds E (trace w2) _)); [reflexivity|].
  destruct (negb (sdl_succeeds E _ SDL_LockTexture)); [reflexivity|].
  unfold sdl_. run_emits. reflexivity.
Qed.

(** Whatever the event, the state stays one the viewer can be in; the
    handler leaves only through [exit(EXIT_FAILURE)], and its behaviour is
    defined whenever that of the decoder is. *)
Lemma handle_event_keeps ev p r w :
  viewer_ok w p ->
  match handle_event E ev (p, r) w with
  | Ret (p', r') w' => viewer_ok w' p' /\ (r' = r \/ r' = false)
  | Exit st _ => st = EXIT_FAILURE
  | Undefined => exists file, ev = SDL_DROPFILE file /\
                              ppm_read_file E file w = Undefined
  end.
Proof.
  intros Hok.
  destruct (is_drop ev) eqn:Hdrop.
  2:{ rewrite handle_event_passive by done. split; [done|].
      destruct (quits ev), r; auto. }
  destruct ev as [| |file|]; try discriminate.
  destruct (ppm_read_file E file w) as [[p1|] w1|st w1|] eqn:Hread.
  - destruct (update_state_success E file p w p1 w1 Hok Hread)
      as (f & bs & w2 & _ & _ & _ & Hlen & Hup & _ & Hok2 & Himg).
    rewrite (handle_drop_success file p r w p1 w2 f bs Hup Himg Hlen).
    destruct (negb (sdl_succeeds E (trace w2) _)); [reflexivity|].
    destruct (negb (sdl_succeeds E _ SDL_LockTexture)); [reflexivity|].
    split; [|now left]. destruct Hok2 as [Hw2 Hs2].
    split; [now apply world_ok_add_trace|exact Hs2].
  - rewrite (handle_drop_failure file p r w w1 Hread). split; [|now left].
    destruct (read_failure_keeps E file w w1 p Hok Hread) as [Hw1 Hs1].
    split; [now apply world_ok_add_trace|exact Hs1].
  - now apply ppm_read_file_no_exit in Hread.
  - rewrite handle_drop_undefined by done. now exists file.
Qed.

(** The decoder's behaviour is defined when the buffer has room for the
    pixels the header announces. *)
Lemma ppm_read_file_defined path w :
  (forall text f f4, fopen E path = Some text -> header_scans text f f4 -> fits f) ->
  exists r w', ppm_read_file E path w = Ret r w'.
Proof.
  intros Hfit. unfold ppm_read_file.
  destruct (fopen E path) as [text|] eqn:Hopen.
  2:{ unfold fprintf. run_emits. eauto. }
  destruct (fscanf_2s text) as [[k magic] f1] eqn:Hmagic.
  destruct (_ || _) eqn:Hcheck.
  { unfold fprintf. run_emits. eauto. }
  destruct (magic_P3 _ _ _ _ Hmagic Hcheck) as [-> Htag].
  destruct (fscanf_i_i f1 0 0) as [[[k2 wd] ht] f2] eqn:Hdims.
  destruct (negb (k2 =? 2)) eqn:Hk2.
  { unfold fprintf. run_emits. eauto. }
  apply negb_false_iff, Z.eqb_eq in Hk2. subst k2.
  apply fscanf_i_i_two in Hdims as (f1' & Hwd & Hht).
  destruct (fscanf_i f2 0) as [[k3 mc] f3] eqn:Hmax.
  destruct (negb (k3 =? 1)) eqn:Hk3.
  { unfold fprintf. run_emits. eauto. }
  apply negb_false_iff, Z.eqb_eq in Hk3. subst k3.
  apply fscanf_i_one in Hmax.
  cbv zeta.
  set (f := {| path := path; magic_number := ["P"%char; "3"%char];
               width := wd; height := ht; max_color := mc; data := next w |}).
  assert (Hhead : header_scans text f f3) by (now exists f1, f1', f2).
  specialize (Hfit text f f3 eq_refl Hhead). unfold fits, num_pixels in Hfit.
  simpl in Hfit.
  set (n := wrap_int (wd * ht)) in *. set (L := wrap_int (n * 4)).
  pose proof (wrap_int_range (wd * ht)) as Hn. fold n in Hn.
  pose proof (wrap_int_range (n * 4)) as HL. fold L in HL.
  assert (HLdef : L = wrap_int (n * 4)) by reflexivity. clearbody L.
  rewrite bind_unfold. unfold malloc at 1.
  destruct (to_size_t L <=? PTRDIFF_MAX) eqn:Hsize; cbn [andb].
  2:{ unfold fprintf. run_emits. eauto. }
  destruct (malloc_succeeds E (next w) (to_size_t L)).
  2:{ unfold fprintf. run_emits. eauto. }
  apply Z.leb_le in Hsize. unfold to_size_t, PTRDIFF_MAX in Hsize.
  assert (HL0 : 0 <= L).
  { destruct (Z.lt_ge_cases L 0) as [Hneg|]; [|done].
    rewrite <- (Z.mod_add L 1 (2 ^ 64)) in Hsize by lia.
    rewrite Z.mod_small in Hsize by lia. lia. }
  unfold to_size_t. rewrite (Z.mod_small L) by lia.
  fold (with_buffer (replicate (Z.to_nat L) None) w).
  assert (Htail : forall bs,
    exists r w',
      (ppm_file ← malloc E sizeof_PPMFile;
       match ppm_file with
       | None =>
           fprintf stderr (line "Failed to allocate PPMFile struct.") [];;
           ret None
       | Some ppm_file => store_struct ppm_file f;; ret (Some ppm_file)
       end) (with_buffer bs w) = Ret r w').
  { intros bs. rewrite bind_unfold. unfold malloc. destruct (_ && _).
    - rewrite bind_unfold. unfold store_struct. cbn [heap next trace with_buffer].
      rewrite lookup_insert_eq. unfold ret. eauto.
    - unfold fprintf. run_emits. eauto. }
  rewrite bind_unfold.
  destruct (Z.le_gt_cases n 0) as [Hn0|Hn0].
  - replace (Z.to_nat n) with 0%nat by lia. simpl pixel_loop. unfold ret at 1.
    cbv beta iota. apply Htail.
  - assert (Hroom : n * 4 < 2 ^ 31) by lia.
    assert (L = n * 4) as HLn by (rewrite HLdef; apply wrap_int_small; lia).
    rewrite (pixel_loop_spec (next w) (Z.to_nat n) 0 f3 _ []
               (replicate (Z.to_nat L) None));
      [|simpl; now rewrite lookup_insert_eq|reflexivity
       |rewrite length_replicate; lia|lia].
    destruct (scan_triplets (Z.to_nat n) f3) as [px [f4|]].
    + rewrite add_trace_nil. cbn [app].
      match goal with
      | |- context [set_heap (<[_ := Bytes ?b]> _) _] =>
          replace (set_heap (<[next w := Bytes b]> _) _) with (with_buffer b w)
            by (unfold set_heap, with_buffer; simpl; now rewrite insert_insert_eq)
      end.
      apply Htail.
    + unfold ret. eauto.
Qed.

Lemma files_fit_defined path w :
  files_fit E -> exists r w', ppm_read_file E path w = Ret r w'.
Proof. intros Hfit. apply ppm_read_file_defined. intros text. apply Hfit. Qed.

Lemma poll_events_keeps evs : forall p r w,
  files_fit E -> viewer_ok w p ->
  match poll_events E evs (p, r) w with
  | Ret (p', r') w' => viewer_ok w' p' /\ (r = false -> r' = false)
  | Exit st _ => st = EXIT_FAILURE
  | Undefined => False
  end.
Proof.
  induction evs as [|ev evs IH]; intros p r w Hfit Hok.
  - simpl. now split.
  - cbn [poll_events]. rewrite bind_unfold.
    pose proof (handle_event_keeps ev p r w Hok) as Hev.
    destruct (handle_event E ev (p, r) w) as [[p1 r1] w1|st w1|].
    + destruct Hev as [Hok1 Hr1].
      specialize (IH p1 r1 w1 Hfit Hok1).
      destruct (poll_events E evs (p1, r1) w1) as [[p2 r2] w2|st w2|]; [|done..].
      destruct IH as [Hok2 Hr2]. split; [exact Hok2|].
      intros ->. apply Hr2. now destruct Hr1.
    + exact Hev.
    + destruct Hev as (file & _ & Hundef).
      destruct (files_fit_defined file w Hfit) as (r0 & w0 & Hret). congruence.
Qed.

Lemma event_loop_keeps batches : forall p w,
  files_fit E -> viewer_ok w p ->
  match event_loop E batches p w with
  | Ret st w' => world_ok w' /\ (st = None \/ st = Some EXIT_SUCCESS)
  | Exit st _ => st = EXIT_FAILURE
  | Undefined => False
  end.
Proof.
  induction batches as [|evs batches IH]; intros p w Hfit Hok.
  - simpl. split; [apply Hok|now left].
  - cbn [event_loop]. rewrite bind_unfold.
    pose proof (poll_events_keeps evs p true w Hfit Hok) as Hpoll.
    destruct (poll_events E evs (p, true) w) as [[p1 r1] w1|st w1|]; [|done..].
    destruct Hpoll as [Hok1 _].
    destruct r1; [now apply IH|].
    split; [apply Hok1|now right].
Qed.

End Events.

(** *** The event loop *)

Section EventLoop.

Context (E : env).

Lemma poll_events_passive evs : forall p r w,
  passive evs = true ->
  poll_events E evs (p, r) w = Ret (p, r && negb (existsb quits evs)) w.
Proof.
  induction evs as [|ev evs IH]; intros p r w Hp.
  - simpl. unfold ret. now rewrite andb_true_r.
  - apply andb_true_iff in Hp as [Hev Hp]. apply negb_true_iff in Hev.
    cbn [poll_events existsb]. rewrite bind_unfold, handle_event_passive by done.
    rewrite IH by done. now rewrite negb_orb, andb_assoc.
Qed.

Lemma event_loop_passive batches : forall p w,
  forallb passive batches = true ->
  event_loop E batches p w
  = Ret (if existsb (existsb quits) batches then Some EXIT_SUCCESS else None) w.
Proof.
  induction batches as [|evs batches IH]; intros p w Hp.
  - reflexivity.
  - apply andb_true_iff in Hp as [Hevs Hp].
    cbn [event_loop existsb]. rewrite bind_unfold, poll_events_passive by done.
    cbn [andb]. destruct (existsb quits evs); cbn [negb orb]; [reflexivity|].
    now apply IH.
Qed.

Lemma handle_event_stays_stopped ev p w p' r' w' :
  handle_event E ev (p, false) w = Ret (p', r') w' -> r' = false.
Proof.
  destruct (is_drop ev) eqn:Hdrop.
  2:{ rewrite handle_event_passive by done. now intros [= _ <- _]. }
  destruct ev as [| |file|]; try discriminate.
  cbn [handle_event]. rewrite bind_unfold.
  destruct (update_state E file p w) as [[u p1] w1| |]; [|discriminate..].
  rewrite bind_unfold.
  destruct ((if u then sdl_render_once E p1 else ret tt) w1) as [[] w2| |];
    [|discriminate..].
  unfold sdl_. run_emits. now intros [= _ <- _].
Qed.

Lemma poll_events_stays_stopped evs : forall p w p' r' w',
  poll_events E evs (p, false) w = Ret (p', r') w' -> r' = false.
Proof.
  induction evs as [|ev evs IH]; intros p w p' r' w'.
  - now intros [= _ <- _].
  - cbn [poll_events]. rewrite bind_unfold.
    destruct (handle_event E ev (p, false) w) as [[p1 r1] w1| |] eqn:Hev;
      [|discriminate..].
    apply handle_event_stays_stopped in Hev as ->. apply IH.
Qed.

Lemma handle_event_quit ev p r w p' r' w' :
  quits ev = true -> handle_event E ev (p, r) w = Ret (p', r') w' -> r' = false.
Proof.
  intros Hq. rewrite handle_event_passive by (now destruct ev).
  rewrite Hq, andb_false_r. now intros [= _ <- _].
Qed.

Lemma poll_events_quit evs : forall p r w p' r' w',
  existsb quits evs = true ->
  poll_events E evs (p, r) w = Ret (p', r') w' -> r' = false.
Proof.
  induction evs as [|ev evs IH]; intros p r w p' r' w' Hq; [discriminate|].
  cbn [poll_events]. rewrite bind_unfold.
  destruct (handle_event E ev (p, r) w) as [[p1 r1] w1| |] eqn:Hev;
    [|discriminate..].
  cbn [existsb] in Hq. destruct (quits ev) eqn:Hqev.
  - apply (handle_event_quit _ _ _ _ _ _ _ Hqev) in Hev as ->.
    apply poll_events_stays_stopped.
  - now apply IH.
Qed.

End EventLoop.

(** *** Frames *)

Lemma presents_app es1 es2 : presents (es1 ++ es2) = (presents es1 + presents es2)%nat.
Proof. unfold presents. now rewrite List.filter_app, length_app. Qed.

(** *** The start of [main] *)

Section Startup.

Context (E : env).

Lemma startup_load_none argv w :
  (length argv <= 1)%nat -> startup_load E argv w = Ret None w.
Proof. destruct argv as [|a0 [|a1 more]]; simpl; intros; [reflexivity..|lia]. Qed.

Lemma startup_load_failed argv0 path more w w1 :
  ppm_read_file E path w = Ret None w1 ->
  startup_load E (argv0 :: path :: more) w = Ret None w1.
Proof.
  intros H. unfold startup_load. rewrite bind_unfold, H. reflexivity.
Qed.

Lemma startup_load_image argv0 path more w p w1 f :
  ppm_read_file E path w = Ret (Some p) w1 ->
  heap w1 !! p = Some (Struct f) ->
  startup_load E (argv0 :: path :: more) w
  = Ret (Some p) (add_trace (details_events f) w1).
Proof.
  intros H Hp. unfold startup_load. rewrite bind_unfold, H. cbv beta iota.
  rewrite bind_unfold, (ppm_print_details_at p f w1 Hp). reflexivity.
Qed.

(** Lines 195-231 after the image was or was not loaded. *)
Lemma main_startup_run argv w p w1 :
  startup_load E argv w = Ret p w1 ->
  shown w1 p ->
  main_startup E argv w
  = let win := window_for w1 p in
    if negb (sdl_succeeds E (trace w1) SDL_Init)
    then Exit EXIT_FAILURE (add_trace init_failure w1)
    else if negb (sdl_succeeds E (trace w1 ++ [Sdl SDL_Init]) win)
    then Exit EXIT_FAILURE (add_trace (window_failure win) w1)
    else if negb (sdl_succeeds E
                    (trace w1 ++ [Sdl SDL_Init; Sdl win; Sdl SDL_EventState])
                    SDL_CreateRenderer)
    then Exit EXIT_FAILURE (add_trace (renderer_failure win) w1)
    else (sdl_render_once E p;; ret p) (add_trace (window_setup win) w1).
Proof.
  intros Hload Hshown. unfold main_startup, startup_load in *.
  rewrite bind_unfold, Hload.
  rewrite bind_unfold, sdl_add.
  destruct (negb (sdl_succeeds E (trace w1) SDL_Init)).
  { unfold fprintf, exit. run_emits. reflexivity. }
  rewrite bind_unfold.
  assert (Htitle :
    (match p with
     | Some p0 => f ← load_struct p0; ret (path f, width f, height f)
     | None => ret ("imgv"%string, 500, 500)
     end) (add_trace [Sdl SDL_Init] w1)
    = Ret (match window_for w1 p with
           | SDL_CreateWindow t x y => (t, x, y)
           | _ => ("imgv"%string, 500, 500)
           end) (add_trace [Sdl SDL_Init] w1)
    /\ exists t x y, window_for w1 p = SDL_CreateWindow t x y).
  { destruct p as [a|]; [|split; [reflexivity|now eexists _, _, _]].
    destruct Hshown as (f & bs & (Ha & _) & _).
    unfold window_for. rewrite Ha. split; [|now eexists _, _, _].
    rewrite bind_unfold, (load_struct_at a f) by exact Ha. reflexivity. }
  destruct Htitle as [-> (t & x & y & Hwin)]. rewrite Hwin. cbv beta iota zeta.
  rewrite bind_unfold, sdl_add. cbn [trace add_trace].
  destruct (negb (sdl_succeeds E (trace w1 ++ [Sdl SDL_Init]) _)).
  { unfold fprintf, exit. run_emits. reflexivity. }
  unfold sdl_ at 1. run_emits.
  rewrite sdl_add. cbn [trace add_trace]. rewrite <- ?app_assoc. cbn [app].
  destruct (negb (sdl_succeeds E _ SDL_CreateRenderer)).
  { unfold fprintf, exit. run_emits. reflexivity. }
  rewrite add_trace_add_trace. reflexivity.
Qed.

End Startup.

(** *** States of the examples *)

Lemma viewer_ok_empty : viewer_ok empty_world None.
Proof. split; [exact empty_world_ok|exact I]. Qed.

Lemma viewer_ok_one_image : viewer_ok one_image (Some 2%positive).
Proof.
  split; [exact one_image_ok|].
  eexists _, _. split; [exact one_image_at|reflexivity].
Qed.

(** *** The whole of [main] *)

Section Whole.

Context (E : env).

Lemma sdl_render_once_none w :
  sdl_render_once E None w = Ret tt (add_trace blue_frame w).
Proof. unfold sdl_render_once, sdl_. run_emits. reflexivity. Qed.

Lemma startup_load_keeps argv w :
  world_ok w ->
  match startup_load E argv w with
  | Ret p w1 => viewer_ok w1 p
  | Exit _ _ => False
  | Undefined => exists argv0 path more,
                   argv = argv0 :: path :: more /\
                   ppm_read_file E path w = Undefined
  end.
Proof.
  intros Hw.
  destruct argv as [|a0 [|a1 more]]; [now split..|].
  destruct (ppm_read_file E a1 w) as [[p|] w1|st w1|] eqn:Hread.
  - destruct (update_state_success E a1 None w p w1 (conj Hw I) Hread)
      as (f & bs & w2 & -> & -> & Hd & Hlen & _).
    pose proof (image_at_with_image f bs w Hd) as Himg.
    rewrite (startup_load_image E a0 a1 more w _ _ f Hread) by apply Himg.
    split; [apply world_ok_add_trace, world_ok_with_image, Hw|].
    now exists f, bs.
  - rewrite (startup_load_failed E a0 a1 more w w1 Hread).
    exact (read_failure_keeps E a1 w w1 None (conj Hw I) Hread).
  - now apply ppm_read_file_no_exit in Hread.
  - unfold startup_load. rewrite bind_unfold, Hread. now exists a0, a1, more.
Qed.

Lemma main_startup_keeps argv w :
  files_fit E -> world_ok w ->
  match main_startup E argv w with
  | Ret p w' => viewer_ok w' p
  | Exit st _ => st = EXIT_FAILURE
  | Undefined => False
  end.
Proof.
  intros Hfit Hw. pose proof (startup_load_keeps argv w Hw) as Hload.
  destruct (startup_load E argv w) as [p w1|st w1|] eqn:Hrun; [|done|].
  2:{ destruct Hload as (a0 & a1 & more & _ & Hundef).
      destruct (files_fit_defined E a1 w Hfit) as (r0 & w0 & Hret). congruence. }
  destruct Hload as [Hw1 Hs1].
  rewrite (main_startup_run E argv w p w1 Hrun Hs1). cbv zeta.
  destruct (negb (sdl_succeeds E (trace w1) SDL_Init)); [reflexivity|].
  destruct (negb (sdl_succeeds E _ (window_for w1 p))); [reflexivity|].
  destruct (negb (sdl_succeeds E _ SDL_CreateRenderer)); [reflexivity|].
  rewrite bind_unfold.
  destruct p as [a|].
  - destruct Hs1 as (f & bs & Himg & Hlen).
    rewrite (sdl_render_once_image E a f bs (add_trace _ w1) Himg Hlen).
    destruct (negb (sdl_succeeds E _ (SDL_CreateTexture _ _))); [reflexivity|].
    destruct (negb (sdl_succeeds E _ SDL_LockTexture)); [reflexivity|].
    split; [exact Hw1|]. now exists f, bs.
  - rewrite sdl_render_once_none. split; [exact Hw1|exact I].
Qed.

Lemma main_keeps argv batches w :
  files_fit E -> world_ok w ->
  match main E argv batches w with
  | Ret st w' => world_ok w' /\ (st = None \/ st = Some EXIT_SUCCESS)
  | Exit st _ => st = EXIT_FAILURE
  | Undefined => False
  end.
Proof.
  intros Hfit Hw. unfold main. rewrite bind_unfold.
  pose proof (main_startup_keeps argv w Hfit Hw) as Hstart.
  destruct (main_startup E argv w) as [p w1|st w1|]; [|done..].
  now apply event_loop_keeps.
Qed.

End Whole.

End OutcomeFacts.

(** ** The claims of the specification *)

Module Claims.
Import Libc Imgv Spec Outcomes Facts OutcomeFacts.







(** C3.  When the decode of a dropped file fails ([ppm_read_file] returns
    NULL), handling the event returns -- the process goes on to the next
    event -- with [ppm_file] and [running] as they were; all that was done
    is the line on [stderr] and the [SDL_free] of the dropped path, so no
    retitle, no resize and no draw; every object of the heap, the old image
    among them, is as it was and nothing was freed. *)
Theorem failed_load_changes_nothing :
  forall E file ppm_file running evs w w1,
    world_ok w ->
    ppm_read_file E file w = Ret None w1 ->
    handle_event E (SDL_DROPFILE file) (ppm_file, running) w
    = Ret (ppm_file, running) (add_trace [Sdl (SDL_free file)] w1) /\
    (exists fmt args,
       trace (add_trace [Sdl (SDL_free file)] w1)
       = trace w ++ [Fprintf stderr fmt args; Sdl (SDL_free file)]) /\
    preserved w (add_trace [Sdl (SDL_free file)] w1) /\
    poll_events E (SDL_DROPFILE file :: evs) (ppm_file, running) w
    = poll_events E evs (ppm_file, running) (add_trace [Sdl (SDL_free file)] w1).
Proof.
  intros E file ppm_file running evs w w1 Hw Hread.
  assert (Hh : handle_event E (SDL_DROPFILE file) (ppm_file, running) w
               = Ret (ppm_file, running) (add_trace [Sdl (SDL_free file)] w1)).
  { unfold handle_event.
    rewrite bind_unfold, (update_state_failed E file ppm_file w w1 Hread).
    reflexivity. }
  destruct (ppm_read_file_returns E file w None w1 Hw Hread)
    as (_ & Hpres & fmt & args & Htrace).
  split; [exact Hh|]. split; [|split].
  - exists fmt, args. cbn [add_trace trace]. rewrite Htrace, <- app_assoc. reflexivity.
  - exact Hpres.
  - cbn [poll_events]. now rewrite bind_unfold, Hh.
Qed.

Lemma failed_load_changes_nothing_witness :
  handle_event (friendly []) (SDL_DROPFILE "gone.ppm") (Some 2%positive, true) one_image
  = Ret (Some 2%positive, true)
        (add_trace [Sdl (SDL_free "gone.ppm")]
           (add_trace [Fprintf stderr (line "Failed to open file %s.")
                         [ArgStr "gone.ppm"]] one_image)) /\
  (exists fmt args,
     trace (add_trace [Sdl (SDL_free "gone.ppm")]
              (add_trace [Fprintf stderr (line "Failed to open file %s.")
                            [ArgStr "gone.ppm"]] one_image))
     = trace one_image ++ [Fprintf stderr fmt args; Sdl (SDL_free "gone.ppm")]) /\
  preserved one_image
    (add_trace [Sdl (SDL_free "gone.ppm")]
       (add_trace [Fprintf stderr (line "Failed to open file %s.")
                     [ArgStr "gone.ppm"]] one_image)) /\
  poll_events (friendly []) [SDL_DROPFILE "gone.ppm"; SDL_QUIT]
    (Some 2%positive, true) one_image
  = poll_events (friendly []) [SDL_QUIT] (Some 2%positive, true)
      (add_trace [Sdl (SDL_free "gone.ppm")]
         (add_trace [Fprintf stderr (line "Failed to open file %s.")
                       [ArgStr "gone.ppm"]] one_image)).
Proof.
  apply (failed_load_changes_nothing (friendly []) "gone.ppm"%string
           (Some 2%positive) true [SDL_QUIT] one_image).
  - exact one_image_ok.
  - reflexivity.
Defined.

(** C4, as the code has it.  When the header is read, its byte count
    width*height*4 fits an [int] and the pixel buffer is allocated, and
    fewer than width*height well-formed triplets follow -- after the [k]
    pixels [px] that are there come at most two more tokens and then
    nothing, or something that is not a number -- the decoder reports the
    fixed line "Error reading pixel data." (there is no pixel index in it)
    and returns NULL; [update_state] then returns false and leaves
    [*ppm_file] and every object of the heap as they were.  The header is
    whatever the three calls of [fscanf] read: [f] holds its numbers. *)
Theorem truncated_pixels_are_pixel_error :
  forall E path w text f px ts junk old,
    fopen E path = Some text ->
    header_scans text f (pixels_text px ++ partial_text ts junk) ->
    forallb pixel_ok px = true ->
    Z.of_nat (length px) < num_pixels f ->
    num_pixels f * 4 < 2 ^ 31 ->
    (length ts < 3)%nat -> forallb token_ok ts = true ->
    numeric_start junk = false ->
    malloc_succeeds E (next w) (num_pixels f * 4) = true ->
    world_ok w ->
    exists w',
      ppm_read_file E path w = Ret None w' /\
      trace w' = trace w ++ [Fprintf stderr (line "Error reading pixel data.") []] /\
      update_state E path old w = Ret (false, old) w' /\
      preserved w w'.
Proof.
  intros E path w text f px ts junk old Hopen Hhead Hpx Hlen Hsize Hts Htok Hjunk
         Hmalloc Hok.
  set (bad := partial_text ts junk) in *.
  assert (Hbad : delimited bad = true) by now apply delimited_partial.
  assert (Hnone : scan_triplet bad = None) by now apply scan_triplet_partial.
  assert (Hread : ppm_read_file E path w
                  = Ret None (add_trace [pixel_error]
                      (with_pixels (Z.to_nat (num_pixels f))
                         (map pixel_value px) w))).
  { rewrite (ppm_read_file_fits E path w text f _ Hopen Hhead) by (done || lia).
    cbv zeta. now rewrite scan_triplets_short by (done || lia). }
  eexists. split; [exact Hread|]. split; [reflexivity|].
  split; [now apply update_state_failed|]. now apply preserved_with_pixels.
Qed.

Lemma truncated_pixels_are_pixel_error_witness :
  exists w',
    ppm_read_file (friendly [("short.ppm"%string, text_of "P3 2 1 255 1 2 3 4 5")])
      "short.ppm" one_image = Ret None w' /\
    trace w' = trace one_image
               ++ [Fprintf stderr (line "Error reading pixel data.") []] /\
    update_state (friendly [("short.ppm"%string, text_of "P3 2 1 255 1 2 3 4 5")])
      "short.ppm" (Some 2%positive) one_image
    = Ret (false, Some 2%positive) w' /\
    preserved one_image w'.
Proof.
  apply (truncated_pixels_are_pixel_error
           (friendly [("short.ppm"%string, text_of "P3 2 1 255 1 2 3 4 5")])
           "short.ppm"%string one_image (text_of "P3 2 1 255 1 2 3 4 5")
           (header 2 1 255)
           [(tok " " "1", tok " " "2", tok " " "3")]
           [tok " " "4"; tok " " "5"] [] (Some 2%positive)).
  - reflexivity.
  - exists (text_of " 2 1 255 1 2 3 4 5"), (text_of " 1 255 1 2 3 4 5"),
      (text_of " 255 1 2 3 4 5").
    repeat split; reflexivity.
  - reflexivity.
  - vm_compute. reflexivity.
  - vm_compute. reflexivity.
  - simpl. lia.
  - reflexivity.
  - reflexivity.
  - reflexivity.
  - exact one_image_ok.
Defined.

(** C4 as the specification states it fails: the report of a failure at
    pixel 0 and the report of a failure at pixel 1 are the same line, so no
    index can be read off it. *)
Lemma pixel_error_names_no_index :
  exists w0 w1,
    ppm_read_file (friendly [("t.ppm"%string, text_of "P3 2 1 255")])
      "t.ppm" empty_world = Ret None w0 /\
    ppm_read_file (friendly [("t.ppm"%string, text_of "P3 2 1 255 1 2 3")])
      "t.ppm" empty_world = Ret None w1 /\
    trace w0 = [Fprintf stderr (line "Error reading pixel data.") []] /\
    trace w1 = [Fprintf stderr (line "Error reading pixel data.") []] /\
    ~ exists index_of : list event -> nat,
        index_of (trace w0) = 0%nat /\ index_of (trace w1) = 1%nat.
Proof.
  do 2 eexists. split; [vm_compute; reflexivity|].
  split; [vm_compute; reflexivity|]. split; [reflexivity|]. split; [reflexivity|].
  intros (index_of & H0 & H1). cbn [trace] in H0, H1. congruence.
Qed.

(** C5, as the code has it.  After the tag the decoder reads two integers
    with [%i]; when either is missing (only white space is left) or not
    numeric (what follows the white space and an optional sign is not a
    digit), it reports "Error reading image dimensions." and returns NULL.
    The integers need not be positive: "-1 -1" is accepted and gives an
    image of width -1 and height -1. *)
Theorem bad_dimensions_are_dimension_error :
  (forall E path text f1 w,
     fopen E path = Some text ->
     eat_space text = "P"%char :: "3"%char :: f1 ->
     (numeric_start f1 = false \/
      exists wd f2, scan_i f1 = Converted wd f2 /\ numeric_start f2 = false) ->
     ppm_read_file E path w = Ret None (add_trace [dimension_error] w)) /\
  (exists p w' f,
     ppm_read_file (friendly [("neg.ppm"%string, text_of "P3 -1 -1 255 1 2 3")])
       "neg.ppm" empty_world = Ret (Some p) w' /\
     heap w' !! p = Some (Struct f) /\ width f = -1 /\ height f = -1).
Proof.
  split.
  - intros E path text f1 w Hopen Hmagic Hbad.
    apply (ppm_read_file_dimension_error E path text f1); try done.
    intros wd f2 ht f3 H1 H2.
    destruct Hbad as [Hbad | (wd' & f2' & H1' & Hbad)].
    + now apply (scan_i_fails f1 Hbad wd f2).
    + rewrite H1 in H1'. injection H1' as <- <-.
      now apply (scan_i_fails f2 Hbad ht f3).
  - do 3 eexists. split; [vm_compute; reflexivity|]. now vm_compute.
Qed.

Lemma bad_dimensions_are_dimension_error_witness :
  ppm_read_file (friendly [("w.ppm"%string, text_of "P3 12 x 255 1 2 3")])
    "w.ppm" empty_world
  = Ret None (add_trace [dimension_error] empty_world).
Proof.
  apply (proj1 bad_dimensions_are_dimension_error
           (friendly [("w.ppm"%string, text_of "P3 12 x 255 1 2 3")])
           "w.ppm"%string (text_of "P3 12 x 255 1 2 3")
           (text_of " 12 x 255 1 2 3") empty_world).
  - reflexivity.
  - reflexivity.
  - right. exists 12, (text_of " x 255 1 2 3"). split; reflexivity.
Defined.

(** C5 as the specification states it fails: an image is constructed
    whose width and height are not strictly positive. *)
Lemma nonpositive_dimensions_accepted :
  exists p w' f,
    ppm_read_file (friendly [("neg.ppm"%string, text_of "P3 -1 -1 255 1 2 3")])
      "neg.ppm" empty_world = Ret (Some p) w' /\
    heap w' !! p = Some (Struct f) /\
    ~ (0 < width f /\ 0 < height f).
Proof.
  do 3 eexists. split; [vm_compute; reflexivity|].
  split; [now vm_compute|]. simpl. lia.
Qed.

(** C6.  When the text has no tag "P3" after its leading white space --
    because it ends before two characters are read, or because the two
    characters read are not 'P' and '3' -- the decoder reports "File is not
    in PPM P3 format." and returns NULL; it has allocated nothing, the heap
    is the one it started from. *)
Theorem missing_tag_is_format_error :
  forall E path text w,
    fopen E path = Some text ->
    (forall rest, eat_space text <> "P"%char :: "3"%char :: rest) ->
    ppm_read_file E path w = Ret None (add_trace [format_error] w) /\
    heap (add_trace [format_error] w) = heap w.
Proof.
  intros E path text w Hopen Hne. split; [|reflexivity].
  now apply (ppm_read_file_format_error E path text).
Qed.

Lemma missing_tag_is_format_error_witness :
  ppm_read_file (friendly [("p6.ppm"%string, text_of "P6 1 1 255 abc")])
    "p6.ppm" empty_world
  = Ret None (add_trace [format_error] empty_world) /\
  heap (add_trace [format_error] empty_world) = heap empty_world.
Proof.
  apply (missing_tag_is_format_error
           (friendly [("p6.ppm"%string, text_of "P6 1 1 255 abc")])
           "p6.ppm"%string (text_of "P6 1 1 255 abc") empty_world).
  - reflexivity.
  - intros rest. simpl. discriminate.
Defined.

(** C7.  Without an active image the presenter sets the draw colour to
    (0, 0, 255, 255), clears the whole target with it and presents once.
    With an active image made by the decoder it presents once as well,
    provided SDL gives it the texture and the lock; when SDL refuses either,
    the process exits with a failure status and nothing is presented. *)
Theorem presenter_presents_once :
  forall E w,
    (sdl_render_once E None w = Ret tt (add_trace blue_frame w) /\
     presents blue_frame = 1%nat) /\
    (forall p f bs,
       image_at w p f bs ->
       Z.of_nat (length bs) = buffer_size f ->
       sdl_succeeds E (trace w) (SDL_CreateTexture (width f) (height f)) = true ->
       sdl_succeeds E (trace w ++ [Sdl (SDL_CreateTexture (width f) (height f))])
         SDL_LockTexture = true ->
       sdl_render_once E (Some p) w = Ret tt (add_trace (image_frame f bs) w) /\
       presents (image_frame f bs) = 1%nat) /\
    (forall p f bs,
       image_at w p f bs ->
       Z.of_nat (length bs) = buffer_size f ->
       sdl_succeeds E (trace w) (SDL_CreateTexture (width f) (height f)) = false \/
       sdl_succeeds E (trace w ++ [Sdl (SDL_CreateTexture (width f) (height f))])
         SDL_LockTexture = false ->
       exists es, sdl_render_once E (Some p) w = Exit EXIT_FAILURE (add_trace es w) /\
                  presents es = 0%nat).
Proof.
  intros E w. split; [|split].
  - split; [|reflexivity]. unfold sdl_render_once, sdl_. run_emits. reflexivity.
  - intros p f bs Himg Hlen Htex Hlock.
    rewrite (sdl_render_once_image E p f bs w Himg Hlen), Htex, Hlock.
    split; reflexivity.
  - intros p f bs Himg Hlen Hfail.
    rewrite (sdl_render_once_image E p f bs w Himg Hlen).
    destruct (sdl_succeeds E (trace w) _) eqn:Htex.
    + destruct Hfail as [Hfail | ->]; [discriminate|]. eexists. split; reflexivity.
    + eexists. split; reflexivity.
Qed.

Lemma presenter_presents_once_witness :
  sdl_render_once (friendly []) (Some 2%positive) one_image
  = Ret tt (add_trace
              (image_frame
                 {| path := "old.ppm"; magic_number := text_of "P3"; width := 1;
                    height := 1; max_color := 255; data := 1%positive |}
                 [Some 255; Some 3; Some 2; Some 1]) one_image) /\
  presents
    (image_frame
       {| path := "old.ppm"; magic_number := text_of "P3"; width := 1;
          height := 1; max_color := 255; data := 1%positive |}
       [Some 255; Some 3; Some 2; Some 1]) = 1%nat.
Proof.
  apply (proj1 (proj2 (presenter_presents_once (friendly []) one_image))
           2%positive _ _ one_image_at).
  - reflexivity.
  - reflexivity.
  - reflexivity.
Defined.

(** C8.  When a startup path is given and its decode fails, [main] goes
    on with [ppm_file = NULL]: once [SDL_Init] has succeeded, the next thing
    it does is to create the window with the title "imgv" and the size
    500x500, and when the window and the renderer are there it draws the
    blue frame and enters the event loop with no image. *)
Theorem startup_failure_falls_back :
  forall E argv0 path more batches w w1,
    ppm_read_file E path w = Ret None w1 ->
    sdl_succeeds E (trace w1) SDL_Init = true ->
    (exists rest,
       outcome_trace (main_startup E (argv0 :: path :: more) w)
       = trace w1 ++ [Sdl SDL_Init; Sdl default_window] ++ rest) /\
    (sdl_succeeds E (trace w1 ++ [Sdl SDL_Init]) default_window = true ->
     sdl_succeeds E (trace w1 ++ [Sdl SDL_Init; Sdl default_window; Sdl SDL_EventState])
       SDL_CreateRenderer = true ->
     main_startup E (argv0 :: path :: more) w
     = Ret None
         (add_trace ([Sdl SDL_Init; Sdl default_window; Sdl SDL_EventState;
                      Sdl SDL_CreateRenderer] ++ blue_frame) w1) /\
     main E (argv0 :: path :: more) batches w
     = event_loop E batches None
         (add_trace ([Sdl SDL_Init; Sdl default_window; Sdl SDL_EventState;
                      Sdl SDL_CreateRenderer] ++ blue_frame) w1)).
Proof.
  intros E argv0 path more batches w w1 Hread Hinit.
  assert (Hrun : main_startup E (argv0 :: path :: more) w
     = if negb (sdl_succeeds E (trace w1 ++ [Sdl SDL_Init]) default_window)
       then Exit EXIT_FAILURE
              (add_trace [Sdl SDL_Init; Sdl default_window;
                          Fprintf stderr (line_dot "Failed to create SDL window: %s")
                            [ArgSdlError]] w1)
       else if negb (sdl_succeeds E
                       (trace w1 ++ [Sdl SDL_Init; Sdl default_window; Sdl SDL_EventState])
                       SDL_CreateRenderer)
       then Exit EXIT_FAILURE
              (add_trace [Sdl SDL_Init; Sdl default_window; Sdl SDL_EventState;
                          Sdl SDL_CreateRenderer;
                          Fprintf stderr (line_dot "Failed to create SDL renderer: %s")
                            [ArgSdlError]] w1)
       else Ret None
              (add_trace ([Sdl SDL_Init; Sdl default_window; Sdl SDL_EventState;
                           Sdl SDL_CreateRenderer] ++ blue_frame) w1)).
  { unfold main_startup.
    rewrite bind_unfold, bind_unfold, Hread.
    rewrite bind_unfold. unfold ret at 1 2. cbv beta iota.
    rewrite bind_unfold, sdl_add, Hinit. cbn [negb].
    rewrite bind_unfold. unfold ret at 1. cbv beta iota.
    rewrite bind_unfold, sdl_add. cbn [trace add_trace]. fold default_window.
    destruct (negb (sdl_succeeds E (trace w1 ++ [Sdl SDL_Init]) default_window)).
    { unfold fprintf, exit. run_emits. first [reflexivity | f_equal; world_eq]. }
    unfold sdl_ at 1. run_emits.
    rewrite sdl_add. cbn [trace add_trace]. rewrite <- ?app_assoc. cbn [app].
    destruct (negb (sdl_succeeds E _ SDL_CreateRenderer)).
    { unfold fprintf, exit. run_emits. first [reflexivity | f_equal; world_eq]. }
    rewrite bind_unfold.
    unfold sdl_render_once, sdl_. run_emits. unfold blue_frame.
    first [reflexivity | f_equal; world_eq]. }
  split.
  - rewrite Hrun.
    destruct (negb (sdl_succeeds E (trace w1 ++ [Sdl SDL_Init]) default_window));
      [eexists; reflexivity|].
    destruct (negb (sdl_succeeds E _ SDL_CreateRenderer)); eexists; reflexivity.
  - intros Hwin Hren. rewrite Hwin, Hren in Hrun. cbn [negb] in Hrun.
    split; [exact Hrun|]. unfold main. now rewrite bind_unfold, Hrun.
Qed.

Lemma startup_failure_falls_back_witness :
  (exists rest,
     outcome_trace (main_startup (friendly []) ["imgv"%string; "gone.ppm"%string] empty_world)
     = trace (add_trace [Fprintf stderr (line "Failed to open file %s.")
                           [ArgStr "gone.ppm"]] empty_world)
       ++ [Sdl SDL_Init; Sdl default_window] ++ rest) /\
  (sdl_succeeds (friendly [])
     (trace (add_trace [Fprintf stderr (line "Failed to open file %s.")
                          [ArgStr "gone.ppm"]] empty_world) ++ [Sdl SDL_Init])
     default_window = true ->
   sdl_succeeds (friendly [])
     (trace (add_trace [Fprintf stderr (line "Failed to open file %s.")
                          [ArgStr "gone.ppm"]] empty_world)
      ++ [Sdl SDL_Init; Sdl default_window; Sdl SDL_EventState])
     SDL_CreateRenderer = true ->
   main_startup (friendly []) ["imgv"%string; "gone.ppm"%string] empty_world
   = Ret None
       (add_trace ([Sdl SDL_Init; Sdl default_window; Sdl SDL_EventState;
                    Sdl SDL_CreateRenderer] ++ blue_frame)
          (add_trace [Fprintf stderr (line "Failed to open file %s.")
                        [ArgStr "gone.ppm"]] empty_world)) /\
   main (friendly []) ["imgv"%string; "gone.ppm"%string] [[SDL_QUIT]] empty_world
   = event_loop (friendly []) [[SDL_QUIT]] None
       (add_trace ([Sdl SDL_Init; Sdl default_window; Sdl SDL_EventState;
                    Sdl SDL_CreateRenderer] ++ blue_frame)
          (add_trace [Fprintf stderr (line "Failed to open file %s.")
                        [ArgStr "gone.ppm"]] empty_world))).
Proof.
  apply (startup_failure_falls_back (friendly []) "imgv"%string "gone.ppm"%string
           [] [[SDL_QUIT]] empty_world).
  - reflexivity.
  - reflexivity.
Defined.

(** C9, as the code has it.  The decoder reads width*height triplets and
    stops.  When the header is read, its byte count width*height*4 fits an
    [int], the width*height triplets [px] that follow it are well formed
    and the two allocations succeed, the decoder returns the image of the
    header and of these pixels, whatever comes after the last sample: the
    result does not mention [trailing], which may be anything that does
    not begin with a digit (a digit would belong to the last sample).  The
    pixel loop, run on the buffer the decoder allocates, stores the pixels
    and leaves exactly [trailing] in the stream: nothing of it is read. *)
Theorem trailing_bytes_ignored :
  forall E path w text f px trailing,
    fopen E path = Some text ->
    header_scans text f (pixels_text px ++ trailing) ->
    forallb pixel_ok px = true ->
    Z.of_nat (length px) = num_pixels f ->
    num_pixels f * 4 < 2 ^ 31 ->
    delimited trailing = true ->
    malloc_succeeds E (next w) (num_pixels f * 4) = true ->
    malloc_succeeds E (Pos.succ (next w)) sizeof_PPMFile = true ->
    ppm_read_file E path w
    = Ret (Some (Pos.succ (next w)))
        (with_image (decoded path f (next w))
           (flat_map cell (map pixel_value px)) w) /\
    pixel_loop (length px) 0 (next w) (pixels_text px ++ trailing)
      (with_buffer (replicate (4 * length px) None) w)
    = Ret (Some trailing) (with_buffer (flat_map cell (map pixel_value px)) w).
Proof.
  intros E path w text f px trailing Hopen Hhead Hpx Hlen Hsize Htrail Hbuf Hstruct.
  split.
  - rewrite (ppm_read_file_fits E path w text f _ Hopen Hhead) by (done || lia).
    cbv zeta. rewrite <- Hlen, Nat2Z.id.
    rewrite (scan_triplets_pixels px trailing Hpx Htrail), Hstruct.
    unfold partly_written. rewrite length_map, Nat.sub_diag, Nat.mul_0_r.
    cbn [replicate]. now rewrite app_nil_r.
  - rewrite (pixel_loop_spec (next w) (length px) 0 _ _ []
               (replicate (4 * length px) None));
      [|simpl; now rewrite lookup_insert_eq|reflexivity|apply length_replicate|lia].
    rewrite (scan_triplets_pixels px trailing Hpx Htrail).
    rewrite add_trace_nil, length_map.
    rewrite drop_ge by (rewrite length_replicate; lia).
    rewrite app_nil_r. cbn [app].
    unfold set_heap, with_buffer. cbn [heap next trace].
    now rewrite insert_insert_eq.
Qed.

Lemma trailing_bytes_ignored_witness :
  ppm_read_file (one_file "more.ppm" "P3 1 1 255 1 2 3 and then 4 5 6 !")
    "more.ppm" empty_world
  = Ret (Some (Pos.succ (next empty_world)))
      (with_image (decoded "more.ppm" (header 1 1 255) (next empty_world))
         (flat_map cell (map pixel_value [(tok " " "1", tok " " "2", tok " " "3")]))
         empty_world) /\
  pixel_loop (length [(tok " " "1", tok " " "2", tok " " "3")]) 0 (next empty_world)
    (pixels_text [(tok " " "1", tok " " "2", tok " " "3")]
     ++ text_of " and then 4 5 6 !")
    (with_buffer
       (replicate (4 * length [(tok " " "1", tok " " "2", tok " " "3")]) None)
       empty_world)
  = Ret (Some (text_of " and then 4 5 6 !"))
      (with_buffer
         (flat_map cell (map pixel_value [(tok " " "1", tok " " "2", tok " " "3")]))
         empty_world).
Proof.
  apply (trailing_bytes_ignored (one_file "more.ppm" "P3 1 1 255 1 2 3 and then 4 5 6 !")
           "more.ppm"%string empty_world
           (text_of "P3 1 1 255 1 2 3 and then 4 5 6 !") (header 1 1 255)
           [(tok " " "1", tok " " "2", tok " " "3")]
           (text_of " and then 4 5 6 !")).
  - reflexivity.
  - exists (text_of " 1 1 255 1 2 3 and then 4 5 6 !"),
      (text_of " 1 255 1 2 3 and then 4 5 6 !"),
      (text_of " 255 1 2 3 and then 4 5 6 !").
    repeat split; reflexivity.
  - reflexivity.
  - reflexivity.
  - vm_compute. reflexivity.
  - reflexivity.
  - reflexivity.
  - reflexivity.
Defined.

(** C9 as the specification states it fails: a header can be well formed,
    with a pixel count that fits an [int], and be followed by all its
    well-formed triplets, and the decode still does not succeed.  For
    25000 by 25000 pixels the byte count does not fit an [int]; the size
    asked of [malloc] is the wrapped, negative one, and the file is
    refused, with or without trailing bytes. *)
Lemma large_image_is_not_decoded :
  header_token (tok " " "25000") = true /\
  header_token (tok " " "255") = true /\
  magnitude (tok " " "25000") * magnitude (tok " " "25000") < 2 ^ 31 /\
  forall E path w px trailing,
    fopen E path
    = Some (ppm_text (tok " " "25000") (tok " " "25000") (tok " " "255")
              px trailing) ->
    forallb pixel_ok px = true ->
    Z.of_nat (length px) = magnitude (tok " " "25000") * magnitude (tok " " "25000") ->
    delimited trailing = true ->
    ppm_read_file E path w = Ret None (add_trace [allocation_error] w).
Proof.
  split; [reflexivity|]. split; [reflexivity|]. split; [vm_compute; reflexivity|].
  intros E path w px trailing Hopen Hpx _ Htrail.
  apply (ppm_read_file_refused E path w _
           (header_of (tok " " "25000") (tok " " "25000") (tok " " "255"))
           (pixels_text px ++ trailing) Hopen).
  - now apply header_scans_text.
  - left. reflexivity.
Qed.

(** C10.  A sample token that is out of range -- too large, or signed -- is
    not an error: with samples that are arbitrary optionally signed decimal
    numbers the decode succeeds and each channel holds what [%hhu] scanned,
    reduced modulo 256; for a token within the range of [strtoul] that is the
    value of the token modulo 256.  In particular "-1" is read as 255 and
    "256" as 0. *)
Theorem out_of_range_sample_wraps :
  (forall E path w tw th tm px trailing,
     fopen E path = Some (ppm_text tw th tm px trailing) ->
     header_ok tw th tm ->
     forallb pixel_ok px = true ->
     Z.of_nat (length px) = magnitude tw * magnitude th ->
     delimited trailing = true ->
     malloc_succeeds E (next w) (magnitude tw * magnitude th * 4) = true ->
     malloc_succeeds E (Pos.succ (next w)) sizeof_PPMFile = true ->
     exists p f w',
       ppm_read_file E path w = Ret (Some p) w' /\
       heap w' !! p = Some (Struct f) /\
       heap w' !! data f = Some (Bytes (flat_map stored px))) /\
  (forall t,
     token_ok t = true -> magnitude t <= ULONG_MAX ->
     sample_value t = token_value t mod 256) /\
  (forall sp rest,
     blank sp = true -> delimited rest = true ->
     scan_hhu (sp ++ text_of "-1" ++ rest) = Converted 255 rest /\
     scan_hhu (sp ++ text_of "256" ++ rest) = Converted 0 rest).
Proof.
  split; [|split].
  - intros E path w tw th tm px trailing Hopen Hhdr Hpx Hlen Htr Hm1 Hm2.
    exists (Pos.succ (next w)), (shown_image path tw th tm (next w)).
    eexists. split; [now apply (decode_text E path w tw th tm px trailing)|].
    cbn [heap]. rewrite flat_map_stored, lookup_insert_eq.
    rewrite lookup_insert_ne, lookup_insert_eq by (simpl; lia). done.
  - exact sample_value_mod.
  - intros sp rest Hsp Hrest. split.
    + pose proof (scan_hhu_token
                    {| sep := sp; sign := Some true; digits := text_of "1" |} rest) as H.
      unfold token_text, token_ok in H. cbn [sep sign digits] in H.
      rewrite <- app_assoc in H. apply H; [now rewrite Hsp|done].
    + pose proof (scan_hhu_token
                    {| sep := sp; sign := None; digits := text_of "256" |} rest) as H.
      unfold token_text, token_ok in H. cbn [sep sign digits] in H.
      rewrite <- app_assoc in H. apply H; [now rewrite Hsp|done].
Qed.

Lemma out_of_range_sample_wraps_witness :
  exists p f w',
    ppm_read_file
      (friendly [("wrap.ppm"%string, text_of "P3 1 1 255 -1 256 300")])
      "wrap.ppm" empty_world = Ret (Some p) w' /\
    heap w' !! p = Some (Struct f) /\
    heap w' !! data f = Some (Bytes (flat_map stored wrapping_pixels)).
Proof.
  apply (proj1 out_of_range_sample_wraps
           (friendly [("wrap.ppm"%string, text_of "P3 1 1 255 -1 256 300")])
           "wrap.ppm"%string empty_world
           (tok " " "1") (tok " " "1") (tok " " "255") wrapping_pixels []).
  - reflexivity.
  - repeat split; reflexivity.
  - reflexivity.
  - reflexivity.
  - reflexivity.
  - reflexivity.
  - reflexivity.
Defined.

End Claims.

(** ** Further properties of the program *)

Module Properties.
Import Libc Imgv Spec Facts Outcomes OutcomeFacts.

(** *** The decoder, [ppm_read_file] *)

(** X1.  A decode that returns [NULL] has printed exactly one line on
    [stderr], one of seven messages, and nothing else is added to the
    trace.  When the line is one of the five printed up to the allocation
    of the pixel buffer, the blocks of the heap are as they were: neither
    call of [malloc] has given the decoder a block.  When it is one of the
    two printed later, the pixel buffer is the one new block and it is
    still allocated: no path of [ppm_read_file] frees it.  (The heap is
    that of the program's own calls of [malloc]; the stream opened on
    line 15, which no path closes, is not part of it.) *)
Theorem decode_failure_is_reported :
  forall E path w w1,
    ppm_read_file E path w = Ret None w1 ->
    (exists e, In e (early_reports path) /\
               trace w1 = trace w ++ [e] /\ heap w1 = heap w) \/
    (exists e bs, In e late_reports /\
                  trace w1 = trace w ++ [e] /\
                  heap w1 = <[next w := Bytes bs]> (heap w)).
Proof.
  intros E path w w1 Hread.
  destruct (ppm_read_file_outcome_ret E path w None w1 Hread)
    as [(e & He & ->)|(e & bs & He & ->)].
  - left. exists e. now repeat split.
  - right. exists e, bs. now repeat split.
Qed.

Lemma decode_failure_is_reported_witness :
  (exists e, In e (early_reports "short.ppm") /\
     trace (add_trace [pixel_error]
              (with_buffer [None; None; None; None] empty_world))
     = trace empty_world ++ [e] /\
     heap (add_trace [pixel_error]
             (with_buffer [None; None; None; None] empty_world))
     = heap empty_world) \/
  (exists e bs, In e late_reports /\
     trace (add_trace [pixel_error]
              (with_buffer [None; None; None; None] empty_world))
     = trace empty_world ++ [e] /\
     heap (add_trace [pixel_error]
             (with_buffer [None; None; None; None] empty_world))
     = <[next empty_world := Bytes bs]> (heap empty_world)).
Proof.
  apply (decode_failure_is_reported
           (friendly [("short.ppm"%string, text_of "P3 1 1 255 1 2")])
           "short.ppm"%string empty_world).
  reflexivity.
Defined.

(** X2.  An image the decoder returns is what the text of the file scans
    to: the struct holds the path, the tag [P3] and the three integers of
    the header as [%i] reads them, the buffer has the number of bytes
    [sdl_render_once] copies, and, unless the pixel count is negative, it
    holds one cell [255, b, g, r] for each triplet [%hhu %hhu %hhu] reads
    after the header, in order.  Nothing was printed and the only new
    blocks are the buffer and the struct. *)
Theorem returned_image_is_scanned :
  forall E path w p w1,
    ppm_read_file E path w = Ret (Some p) w1 ->
    exists f bs text f4,
      p = Pos.succ (next w) /\ w1 = with_image f bs w /\
      data f = next w /\ Imgv.path f = path /\
      magic_number f = ["P"%char; "3"%char] /\
      fopen E path = Some text /\ header_scans text f f4 /\
      Z.of_nat (length bs) = buffer_size f /\
      (0 <= num_pixels f ->
       exists px after,
         scan_triplets (Z.to_nat (num_pixels f)) f4 = (px, Some after) /\
         bs = flat_map cell px).
Proof.
  intros E path w p w1 Hread.
  exact (ppm_read_file_outcome_ret E path w (Some p) w1 Hread).
Qed.

Lemma returned_image_is_scanned_witness :
  exists f bs text f4,
    2%positive = Pos.succ (next empty_world) /\
    with_image (image_a 1%positive) [Some 255; Some 3; Some 2; Some 1] empty_world
    = with_image f bs empty_world /\
    data f = next empty_world /\ Imgv.path f = "a.ppm"%string /\
    magic_number f = ["P"%char; "3"%char] /\
    fopen two_files "a.ppm" = Some text /\ header_scans text f f4 /\
    Z.of_nat (length bs) = buffer_size f /\
    (0 <= num_pixels f ->
     exists px after,
       scan_triplets (Z.to_nat (num_pixels f)) f4 = (px, Some after) /\
       bs = flat_map cell px).
Proof.
  apply (returned_image_is_scanned two_files "a.ppm"%string empty_world).
  reflexivity.
Defined.

(** X3.  A header that announces more pixels than [int] can count bytes
    for: [num_pixels * 4] wraps around, so the buffer is smaller than the
    pixels need, and the decoder never returns an image from such a
    file. *)
Theorem oversized_image_is_not_returned :
  forall E path w text f f4,
    fopen E path = Some text ->
    header_scans text f f4 ->
    0 < num_pixels f ->
    2 ^ 31 <= num_pixels f * 4 ->
    returned_image (ppm_read_file E path w) = false.
Proof.
  intros E path w text f f4 Hopen Hhead Hn Hover.
  destruct (ppm_read_file E path w) as [[p|] w1| |] eqn:Hread; try reflexivity.
  exfalso.
  pose proof (wrap_int_range (width f * height f)) as Hn31.
  fold (num_pixels f) in Hn31.
  pose proof (wrap_int_range (num_pixels f * 4)) as HL.
  destruct (ppm_read_file_outcome_ret E path w (Some p) w1 Hread)
    as (g & bs & text' & g4 & _ & _ & _ & _ & _ & Hopen' & Hhead' & Hlen & Hfull).
  rewrite Hopen in Hopen'. injection Hopen' as <-.
  destruct (header_scans_fun _ _ _ _ _ Hhead Hhead') as (Hw & Hh & _ & _).
  assert (Hng : num_pixels g = num_pixels f)
    by (unfold num_pixels; now rewrite Hw, Hh).
  rewrite Hng in Hfull.
  destruct Hfull as (px' & after' & Hscan & ->); [lia|].
  pose proof (scan_triplets_length (Z.to_nat (num_pixels f)) g4) as [_ Hall].
  rewrite Hscan in Hall. specialize (Hall _ eq_refl). simpl in Hall.
  rewrite length_cells, Hall in Hlen.
  unfold buffer_size, to_size_t in Hlen. fold (num_pixels g) in Hlen.
  rewrite Hng in Hlen.
  destruct (Z.lt_ge_cases (wrap_int (num_pixels f * 4)) 0) as [Hneg|Hpos].
  - rewrite <- (Z.mod_add _ 1 (2 ^ 64)) in Hlen by lia.
    rewrite Z.mod_small in Hlen by lia. lia.
  - rewrite Z.mod_small in Hlen by lia. lia.
Qed.

Lemma oversized_image_is_not_returned_witness :
  returned_image (ppm_read_file huge "huge.ppm" empty_world) = false.
Proof.
  apply (oversized_image_is_not_returned huge "huge.ppm"%string empty_world
           (text_of "P3 32768 32768 255 1 2 3") (header 32768 32768 255)
           (text_of " 1 2 3")).
  - reflexivity.
  - exists (text_of " 32768 32768 255 1 2 3"), (text_of " 32768 255 1 2 3"),
      (text_of " 255 1 2 3").
    repeat split; reflexivity.
  - reflexivity.
  - vm_compute. discriminate.
Defined.

(** X4.  With such a header, when the wrapped size is allocated and the
    file holds one triplet more than the buffer has room for, the loop of
    lines 57-74 stores past the end of the buffer: the behaviour of the
    decoder is undefined. *)
Theorem oversized_image_overflows :
  forall E path w text f f4 px after,
    fopen E path = Some text ->
    header_scans text f f4 ->
    0 < num_pixels f ->
    2 ^ 31 <= num_pixels f * 4 ->
    buffer_size f <= PTRDIFF_MAX ->
    malloc_succeeds E (next w) (buffer_size f) = true ->
    scan_triplets (S (Z.to_nat (buffer_size f / 4))) f4 = (px, Some after) ->
    ppm_read_file E path w = Undefined.
Proof.
  intros E path w text f f4 px after Hopen Hhead Hn Hover Hsize Hmalloc Hscan.
  pose proof (wrap_int_range (width f * height f)) as Hn31.
  fold (num_pixels f) in Hn31.
  pose proof (wrap_int_range (num_pixels f * 4)) as HL.
  rewrite (header_steps E path text f f4 w Hopen Hhead).
  cbv zeta. change (wrap_int (width f * height f)) with (num_pixels f).
  change (to_size_t (wrap_int (num_pixels f * 4))) with (buffer_size f) in *.
  assert (HL0 : 0 <= wrap_int (num_pixels f * 4)).
  { destruct (Z.lt_ge_cases (wrap_int (num_pixels f * 4)) 0) as [Hneg|]; [|done].
    unfold buffer_size, to_size_t, PTRDIFF_MAX in Hsize.
    fold (num_pixels f) in Hsize.
    rewrite <- (Z.mod_add _ 1 (2 ^ 64)) in Hsize by lia.
    rewrite Z.mod_small in Hsize by lia. lia. }
  assert (Hbuf : buffer_size f = wrap_int (num_pixels f * 4)).
  { unfold buffer_size, to_size_t. fold (num_pixels f).
    apply Z.mod_small. lia. }
  assert (Hdiv : buffer_size f
                 = 4 * (num_pixels f
                        - 2 ^ 30 * ((num_pixels f * 4 + 2 ^ 31) / 2 ^ 32))).
  { rewrite Hbuf. unfold wrap_int. rewrite Z.mod_eq by lia. lia. }
  assert (Hk : 1 <= (num_pixels f * 4 + 2 ^ 31) / 2 ^ 32)
    by (apply Z.div_le_lower_bound; lia).
  assert (Hquot : buffer_size f / 4
                  = num_pixels f - 2 ^ 30 * ((num_pixels f * 4 + 2 ^ 31) / 2 ^ 32)).
  { rewrite Hdiv at 1. rewrite Z.mul_comm. apply Z.div_mul. lia. }
  rewrite bind_unfold, (malloc_ok E (buffer_size f) w Hsize Hmalloc).
  rewrite bind_unfold.
  rewrite (pixel_loop_overflows (next w) (Z.to_nat (buffer_size f / 4))
             (Z.to_nat (num_pixels f)) 0 f4 _
             (replicate (Z.to_nat (buffer_size f)) None) px after);
    [reflexivity| | | | | |exact Hscan].
  - simpl. now rewrite lookup_insert_eq.
  - lia.
  - rewrite length_replicate. lia.
  - lia.
  - lia.
Qed.

Lemma oversized_image_overflows_witness :
  ppm_read_file huge "huge.ppm" empty_world = Undefined.
Proof.
  apply (oversized_image_overflows huge "huge.ppm"%string empty_world
           (text_of "P3 32768 32768 255 1 2 3") (header 32768 32768 255)
           (text_of " 1 2 3") [(1, 2, 3)] []).
  - reflexivity.
  - exists (text_of " 32768 32768 255 1 2 3"), (text_of " 32768 255 1 2 3"),
      (text_of " 255 1 2 3").
    repeat split; reflexivity.
  - reflexivity.
  - vm_compute. discriminate.
  - vm_compute. discriminate.
  - reflexivity.
  - reflexivity.
Defined.

(** X5.  When the pixel buffer cannot be allocated the decoder prints
    "Failed to allocate image pixel data array.", returns [NULL] and has
    allocated nothing.  That is the case when [malloc] refuses, and always
    when the byte count [num_pixels * 4] is negative as an [int], for
    instance for a width of -1: as a [size_t] it is more than any
    allocation can be. *)
Theorem refused_buffer_is_reported :
  forall E path w text f f4,
    fopen E path = Some text ->
    header_scans text f f4 ->
    wrap_int (num_pixels f * 4) < 0 \/
    malloc_succeeds E (next w) (buffer_size f) = false ->
    ppm_read_file E path w = Ret None (add_trace [allocation_error] w).
Proof.
  intros E path w text f f4. apply ppm_read_file_refused.
Qed.

Lemma refused_buffer_is_reported_witness :
  ppm_read_file (one_file "neg.ppm" "P3 -1 1 255 1 2 3") "neg.ppm" empty_world
  = Ret None (add_trace [allocation_error] empty_world).
Proof.
  apply (refused_buffer_is_reported (one_file "neg.ppm" "P3 -1 1 255 1 2 3")
           "neg.ppm"%string empty_world (text_of "P3 -1 1 255 1 2 3")
           (header (-1) 1 255) (text_of " 1 2 3")).
  - reflexivity.
  - exists (text_of " -1 1 255 1 2 3"), (text_of " 1 255 1 2 3"),
      (text_of " 255 1 2 3").
    repeat split; reflexivity.
  - left. reflexivity.
Defined.

(** X6.  When the tag and both dimensions are read but no number follows
    them, the decoder prints "Error reading max color.", returns [NULL]
    and has allocated nothing. *)
Theorem missing_maximum_is_reported :
  forall E path w text f1 wd f2 ht f3,
    fopen E path = Some text ->
    eat_space text = "P"%char :: "3"%char :: f1 ->
    scan_i f1 = Converted wd f2 ->
    scan_i f2 = Converted ht f3 ->
    numeric_start f3 = false ->
    ppm_read_file E path w = Ret None (add_trace [max_color_error] w).
Proof.
  intros E path w text f1 wd f2 ht f3 Hopen Htag Hw Hh Hm.
  apply (ppm_read_file_max_color_error E path w text f1 wd f2 ht f3);
    try assumption.
  now apply scan_i_fails.
Qed.

Lemma missing_maximum_is_reported_witness :
  ppm_read_file (one_file "nomax.ppm" "P3 2 2 max") "nomax.ppm" empty_world
  = Ret None (add_trace [max_color_error] empty_world).
Proof.
  apply (missing_maximum_is_reported (one_file "nomax.ppm" "P3 2 2 max")
           "nomax.ppm"%string empty_world (text_of "P3 2 2 max")
           (text_of " 2 2 max") 2 (text_of " 2 max") 2 (text_of " max"));
    reflexivity.
Defined.

(** X7.  A header whose pixel count is zero: the loop of lines 57-74 does
    not run, whatever follows the header is not read, and the image is
    built with an empty buffer. *)
Theorem empty_image_reads_no_pixels :
  forall E path w text f f4,
    fopen E path = Some text ->
    header_scans text f f4 ->
    num_pixels f = 0 ->
    malloc_succeeds E (next w) 0 = true ->
    malloc_succeeds E (Pos.succ (next w)) sizeof_PPMFile = true ->
    ppm_read_file E path w
    = Ret (Some (Pos.succ (next w))) (with_image (decoded path f (next w)) [] w).
Proof.
  intros E path w text f f4 Hopen Hhead Hzero Hbuf Hstruct.
  rewrite (ppm_read_file_fits E path w text f f4 Hopen Hhead);
    rewrite ?Hzero; try done.
  cbv zeta. change (Z.to_nat 0) with 0%nat. cbn [scan_triplets].
  now rewrite Hstruct.
Qed.

Lemma empty_image_reads_no_pixels_witness :
  ppm_read_file (one_file "flat.ppm" "P3 0 7 255 junk") "flat.ppm" empty_world
  = Ret (Some (Pos.succ (next empty_world)))
        (with_image (decoded "flat.ppm" (header 0 7 255) (next empty_world)) []
           empty_world).
Proof.
  apply (empty_image_reads_no_pixels (one_file "flat.ppm" "P3 0 7 255 junk")
           "flat.ppm"%string empty_world (text_of "P3 0 7 255 junk")
           (header 0 7 255) (text_of " junk")).
  - reflexivity.
  - exists (text_of " 0 7 255 junk"), (text_of " 7 255 junk"), (text_of " 255 junk").
    repeat split; reflexivity.
  - reflexivity.
  - reflexivity.
  - reflexivity.
Defined.

(** X8.  A decode that fails after the pixel buffer was allocated, on a
    triplet that cannot be read or on the allocation of the struct,
    returns [NULL] and leaves the buffer allocated: it holds the cells of
    the pixels read so far, the bytes after them were never written, and
    no pointer to it is kept. *)
Theorem late_failure_leaves_the_buffer :
  forall E path w text f f4 px after,
    fopen E path = Some text ->
    header_scans text f f4 ->
    0 <= num_pixels f -> num_pixels f * 4 < 2 ^ 31 ->
    malloc_succeeds E (next w) (num_pixels f * 4) = true ->
    scan_triplets (Z.to_nat (num_pixels f)) f4 = (px, after) ->
    after = None \/ malloc_succeeds E (Pos.succ (next w)) sizeof_PPMFile = false ->
    ppm_read_file E path w
    = Ret None
        (add_trace [match after with None => pixel_error | Some _ => struct_error end]
           (with_buffer (partly_written (Z.to_nat (num_pixels f)) px) w)).
Proof.
  intros E path w text f f4 px after Hopen Hhead Hpos Hmax Hbuf Hscan Hfail.
  rewrite (ppm_read_file_fits E path w text f f4 Hopen Hhead Hpos Hmax Hbuf).
  cbv zeta. rewrite Hscan.
  destruct after as [f5|]; [|reflexivity].
  destruct Hfail as [|Hstruct]; [discriminate|]. now rewrite Hstruct.
Qed.

Lemma late_failure_leaves_the_buffer_witness :
  ppm_read_file (one_file "cut.ppm" "P3 2 1 255 1 2 3 4 5") "cut.ppm" empty_world
  = Ret None
      (add_trace [pixel_error]
         (with_buffer (partly_written (Z.to_nat (num_pixels (header 2 1 255)))
                         [(1, 2, 3)]) empty_world)).
Proof.
  apply (late_failure_leaves_the_buffer (one_file "cut.ppm" "P3 2 1 255 1 2 3 4 5")
           "cut.ppm"%string empty_world (text_of "P3 2 1 255 1 2 3 4 5")
           (header 2 1 255) (text_of " 1 2 3 4 5") [(1, 2, 3)] None).
  - reflexivity.
  - exists (text_of " 2 1 255 1 2 3 4 5"), (text_of " 1 255 1 2 3 4 5"),
      (text_of " 255 1 2 3 4 5").
    repeat split; reflexivity.
  - vm_compute. discriminate.
  - reflexivity.
  - reflexivity.
  - reflexivity.
  - left. reflexivity.
Defined.

(** X9.  The loop of lines 57-74 against the triplets of the stream: with
    room for [n] more pixels after the first [i], it stores one cell
    [255, b, g, r] for each triplet it reads, in order from byte [4 * i],
    and leaves the bytes before and after them as they were; it stops at
    the first triplet that cannot be read, prints "Error reading pixel
    data." and has stored nothing for that pixel or any later one. *)
Theorem pixel_loop_stores_the_triplets :
  forall d n i f w pre post,
    heap w !! d = Some (Bytes (pre ++ post)) ->
    Z.of_nat (length pre) = 4 * i ->
    length post = (4 * n)%nat ->
    4 * (i + Z.of_nat n) <= 2 ^ 31 ->
    pixel_loop n i d f w
    = Ret (scan_triplets n f).2
        (add_trace (match (scan_triplets n f).2 with
                    | Some _ => []
                    | None => [pixel_error]
                    end)
           (set_heap (<[d := Bytes (pre ++ flat_map cell (scan_triplets n f).1
                                      ++ drop (4 * length (scan_triplets n f).1) post)]>
                        (heap w)) w)).
Proof.
  intros d n i f w pre post Hd Hpre Hpost Hmax.
  rewrite (pixel_loop_spec d n i f w pre post Hd Hpre Hpost Hmax).
  now destruct (scan_triplets n f).
Qed.

Lemma pixel_loop_stores_the_triplets_witness :
  pixel_loop 2 1 1%positive (text_of " 4 5 6 7 8") half_filled
  = Ret (scan_triplets 2 (text_of " 4 5 6 7 8")).2
      (add_trace (match (scan_triplets 2 (text_of " 4 5 6 7 8")).2 with
                  | Some _ => []
                  | None => [pixel_error]
                  end)
         (set_heap
            (<[1%positive :=
                 Bytes ([Some 255; Some 3; Some 2; Some 1]
                        ++ flat_map cell (scan_triplets 2 (text_of " 4 5 6 7 8")).1
                        ++ drop (4 * length (scan_triplets 2 (text_of " 4 5 6 7 8")).1)
                             (replicate 8 None))]> (heap half_filled)) half_filled)).
Proof.
  apply (pixel_loop_stores_the_triplets 1%positive 2 1 (text_of " 4 5 6 7 8")
           half_filled [Some 255; Some 3; Some 2; Some 1] (replicate 8 None)).
  - reflexivity.
  - reflexivity.
  - reflexivity.
  - vm_compute. discriminate.
Defined.

(** X10.  [ppm_destroy], applied to the image [ppm_read_file] has
    returned, frees the two blocks the decoder got from [malloc], the
    buffer first and the struct after it, and no other: the blocks of the
    heap are then those there were before the decode.  (The heap is that
    of the program's own calls of [malloc]; the stream the decoder opened
    is not part of it, and [ppm_destroy] does not close it.) *)
Theorem destroy_frees_the_decoded_blocks :
  forall E path w p w1,
    world_ok w ->
    ppm_read_file E path w = Ret (Some p) w1 ->
    exists f w2,
      heap w1 !! p = Some (Struct f) /\
      ppm_destroy p w1 = Ret tt w2 /\
      trace w2 = trace w ++ [Free (data f); Free p] /\
      heap w2 = heap w.
Proof.
  intros E path w p w1 Hw Hread.
  destruct (ppm_read_file_outcome_ret E path w (Some p) w1 Hread)
    as (f & bs & _ & _ & -> & -> & Hd & _).
  pose proof (image_at_with_image f bs w Hd) as Himg.
  exists f. eexists. split; [apply Himg|].
  split; [exact (ppm_destroy_at _ f bs _ Himg)|].
  split; [reflexivity|].
  unfold add_trace, set_heap, with_image. cbn [heap next trace].
  assert (Hfresh : forall b, (next w <= b)%positive -> heap w !! b = None).
  { intros b Hb. destruct (heap w !! b) eqn:Hl; [|done]. apply Hw in Hl. lia. }
  rewrite Hd, delete_insert_ne by lia.
  rewrite (delete_insert_id (heap w) (next w)) by (apply Hfresh; lia).
  now rewrite delete_insert_id by (apply Hfresh; lia).
Qed.

Lemma destroy_frees_the_decoded_blocks_witness :
  exists f w2,
    heap (with_image (image_a 3%positive) [Some 255; Some 3; Some 2; Some 1]
            one_image) !! 4%positive
    = Some (Struct f) /\
    ppm_destroy 4%positive
      (with_image (image_a 3%positive) [Some 255; Some 3; Some 2; Some 1] one_image)
    = Ret tt w2 /\
    trace w2 = trace one_image ++ [Free (data f); Free 4%positive] /\
    heap w2 = heap one_image.
Proof.
  apply (destroy_frees_the_decoded_blocks two_files "a.ppm"%string one_image).
  - exact one_image_ok.
  - reflexivity.
Defined.

(** *** The viewer: [update_state], [sdl_render_once] and [main] *)

(** X11.  One turn of the [switch] of lines 240-262 keeps the state of
    the viewer sound: when [ppm_file] is [NULL] or a live image with a
    buffer of the size the presenter copies, it is so again after any
    event, and an event leaves [running] as it was or sets it to false.
    The handler leaves the process only through [exit(EXIT_FAILURE)], and
    its behaviour is undefined only when that of decoding the dropped
    file is: it frees no block twice and reads no freed block. *)
Theorem handle_event_keeps_the_viewer :
  forall E ev ppm_file running w,
    viewer_ok w ppm_file ->
    match handle_event E ev (ppm_file, running) w with
    | Ret (ppm_file', running') w' =>
        viewer_ok w' ppm_file' /\ (running' = running \/ running' = false)
    | Exit status _ => status = EXIT_FAILURE
    | Undefined =>
        exists file, ev = SDL_DROPFILE file /\ ppm_read_file E file w = Undefined
    end.
Proof.
  intros E ev ppm_file running w. apply handle_event_keeps.
Qed.

Lemma handle_event_keeps_the_viewer_witness :
  match handle_event two_files (SDL_DROPFILE "b.ppm") (Some 2%positive, true)
          one_image with
  | Ret (ppm_file', running') w' =>
      viewer_ok w' ppm_file' /\ (running' = true \/ running' = false)
  | Exit status _ => status = EXIT_FAILURE
  | Undefined =>
      exists file, SDL_DROPFILE "b.ppm" = SDL_DROPFILE file /\
                   ppm_read_file two_files file one_image = Undefined
  end.
Proof.
  apply (handle_event_keeps_the_viewer two_files (SDL_DROPFILE "b.ppm")
           (Some 2%positive) true one_image).
  exact viewer_ok_one_image.
Defined.

(** X12.  When no file announces more pixels than its buffer has room
    for, a run of the whole program, whatever the arguments and the
    events, stores into no block outside its bounds and uses or frees no
    block that was freed: [main] returns [EXIT_SUCCESS] or leaves through
    [exit(EXIT_FAILURE)]. *)
Theorem main_is_defined :
  forall E argv batches w,
    files_fit E ->
    world_ok w ->
    match main E argv batches w with
    | Ret status w' => world_ok w' /\ (status = None \/ status = Some EXIT_SUCCESS)
    | Exit status _ => status = EXIT_FAILURE
    | Undefined => False
    end.
Proof.
  intros E argv batches w. apply main_keeps.
Qed.

Lemma main_is_defined_witness :
  match main two_files ["imgv"%string; "a.ppm"%string]
          [[SDL_DROPFILE "b.ppm"; SDL_DROPFILE "gone.ppm"]; [SDL_QUIT]]
          empty_world with
  | Ret status w' => world_ok w' /\ (status = None \/ status = Some EXIT_SUCCESS)
  | Exit status _ => status = EXIT_FAILURE
  | Undefined => False
  end.
Proof.
  apply (main_is_defined two_files ["imgv"%string; "a.ppm"%string]
           [[SDL_DROPFILE "b.ppm"; SDL_DROPFILE "gone.ppm"]; [SDL_QUIT]]
           empty_world).
  - apply files_fit_friendly. reflexivity.
  - exact empty_world_ok.
Defined.

(** X13.  Events other than a dropped file have no effect on the world:
    a key other than Escape and q, and an event of any other type, is
    ignored.  Over batches of such events the loop of lines 236-269 ends
    with [EXIT_SUCCESS] at the first batch that holds a quit event, an
    Escape or a q, and the image on display is not freed. *)
Theorem idle_events_change_nothing :
  forall E batches ppm_file w,
    forallb passive batches = true ->
    event_loop E batches ppm_file w
    = Ret (if existsb (existsb quits) batches then Some EXIT_SUCCESS else None) w.
Proof.
  intros E batches ppm_file w. apply event_loop_passive.
Qed.

Lemma idle_events_change_nothing_witness :
  event_loop two_files
    [[SDL_OTHER; SDL_KEYDOWN 97]; [SDL_KEYDOWN SDLK_q; SDL_OTHER]; [SDL_QUIT]]
    (Some 2%positive) one_image
  = Ret (if existsb (existsb quits)
              [[SDL_OTHER; SDL_KEYDOWN 97]; [SDL_KEYDOWN SDLK_q; SDL_OTHER]; [SDL_QUIT]]
         then Some EXIT_SUCCESS else None) one_image.
Proof.
  apply (idle_events_change_nothing two_files
           [[SDL_OTHER; SDL_KEYDOWN 97]; [SDL_KEYDOWN SDLK_q; SDL_OTHER]; [SDL_QUIT]]
           (Some 2%positive) one_image).
  reflexivity.
Defined.

(** X14.  A quit event, an Escape or a q ends the loop whatever the state:
    the events polled after it in the same batch are still handled, a
    dropped file among them is still loaded, and when they are handled the
    loop returns [EXIT_SUCCESS] without polling again. *)
Theorem quit_ends_the_loop :
  forall E evs batches ppm_file w ppm_file' running' w',
    existsb quits evs = true ->
    poll_events E evs (ppm_file, true) w = Ret (ppm_file', running') w' ->
    event_loop E (evs :: batches) ppm_file w = Ret (Some EXIT_SUCCESS) w'.
Proof.
  intros E evs batches ppm_file w ppm_file' running' w' Hquit Hpoll.
  cbn [event_loop]. rewrite bind_unfold, Hpoll.
  now rewrite (poll_events_quit E evs _ _ _ _ _ _ Hquit Hpoll).
Qed.

Lemma quit_ends_the_loop_witness :
  event_loop two_files
    ([SDL_QUIT; SDL_DROPFILE "a.ppm"] :: [[SDL_DROPFILE "b.ppm"]]) None empty_world
  = Ret (Some EXIT_SUCCESS)
      (add_trace (adoption_events 2%positive (image_a 1%positive)
                  ++ image_frame (image_a 1%positive)
                       [Some 255; Some 3; Some 2; Some 1]
                  ++ [Sdl (SDL_free "a.ppm")])
         (with_image (image_a 1%positive) [Some 255; Some 3; Some 2; Some 1]
            empty_world)).
Proof.
  apply (quit_ends_the_loop two_files [SDL_QUIT; SDL_DROPFILE "a.ppm"]
           [[SDL_DROPFILE "b.ppm"]] None empty_world (Some 2%positive) false).
  - reflexivity.
  - reflexivity.
Defined.

(** X15.  Dropping a well-formed file on the viewer: the image on display,
    if there is one, is destroyed, the new one takes its place, the window
    takes the path as its title and the width and height of the image as
    its size, the details are printed, the image is presented once with
    the bytes the decoder stored, and the path is given back to SDL with
    [SDL_free]; [running] is left as it was. *)
Theorem dropped_image_is_shown :
  forall E file old running w tw th tm px trailing,
    viewer_ok w old ->
    fopen E file = Some (ppm_text tw th tm px trailing) ->
    header_ok tw th tm ->
    forallb pixel_ok px = true ->
    Z.of_nat (length px) = magnitude tw * magnitude th ->
    delimited trailing = true ->
    malloc_succeeds E (next w) (magnitude tw * magnitude th * 4) = true ->
    malloc_succeeds E (Pos.succ (next w)) sizeof_PPMFile = true ->
    (forall tr, sdl_succeeds E tr (SDL_CreateTexture (magnitude tw) (magnitude th))
                = true) ->
    (forall tr, sdl_succeeds E tr SDL_LockTexture = true) ->
    exists w2,
      after_update old w (shown_image file tw th tm (next w))
        (flat_map cell (map pixel_value px)) w2 /\
      handle_event E (SDL_DROPFILE file) (old, running) w
      = Ret (Some (Pos.succ (next w)), running)
          (add_trace (image_frame (shown_image file tw th tm (next w))
                        (flat_map cell (map pixel_value px))
                      ++ [Sdl (SDL_free file)]) w2).
Proof.
  intros E file old running w tw th tm px trailing Hok Hopen Hhead Hpx Hlen Htrail
    Hbuf Hstruct Htex Hlock.
  pose proof (decode_text E file w tw th tm px trailing Hopen Hhead Hpx Hlen Htrail
                Hbuf Hstruct) as Hread.
  destruct (update_state_image E file old w (shown_image file tw th tm (next w))
              (flat_map cell (map pixel_value px)) Hok Hread eq_refl)
    as (w2 & Hup & Hafter & Hw2 & Himg).
  exists w2. split; [exact Hafter|].
  rewrite (handle_drop_success E file old running w _ w2 _ _ Hup Himg).
  - cbn [shown_image width height]. now rewrite Htex, Hlock.
  - destruct Hhead as (Htw & Hth & _ & Hsize & _).
    pose proof (header_token_pos _ Htw). pose proof (header_token_pos _ Hth).
    rewrite length_cells, length_map.
    unfold buffer_size. cbn [shown_image width height].
    rewrite (wrap_int_small (magnitude tw * magnitude th)) by nia.
    rewrite wrap_int_small, to_size_t_small by nia. lia.
Qed.

Lemma dropped_image_is_shown_witness :
  exists w2,
    after_update (Some 2%positive) one_image
      (shown_image "b.ppm" (tok " " "1") (tok " " "1") (tok " " "255")
         (next one_image))
      (flat_map cell (map pixel_value [(tok " " "4", tok " " "5", tok " " "6")])) w2 /\
    handle_event two_files (SDL_DROPFILE "b.ppm") (Some 2%positive, true) one_image
    = Ret (Some (Pos.succ (next one_image)), true)
        (add_trace (image_frame
                      (shown_image "b.ppm" (tok " " "1") (tok " " "1") (tok " " "255")
                         (next one_image))
                      (flat_map cell
                         (map pixel_value [(tok " " "4", tok " " "5", tok " " "6")]))
                    ++ [Sdl (SDL_free "b.ppm")]) w2).
Proof.
  apply (dropped_image_is_shown two_files "b.ppm"%string (Some 2%positive) true
           one_image (tok " " "1") (tok " " "1") (tok " " "255")
           [(tok " " "4", tok " " "5", tok " " "6")] []).
  - exact viewer_ok_one_image.
  - reflexivity.
  - repeat split; vm_compute; reflexivity.
  - reflexivity.
  - reflexivity.
  - reflexivity.
  - reflexivity.
  - reflexivity.
  - reflexivity.
  - reflexivity.
Defined.

(** X16.  Started without a path, [main] reads no file: it opens the
    window "imgv" of 500 by 500 and presents the blue background once. *)
Theorem startup_without_argument :
  forall E argv w,
    (length argv <= 1)%nat ->
    sdl_succeeds E (trace w) SDL_Init = true ->
    sdl_succeeds E (trace w ++ [Sdl SDL_Init]) default_window = true ->
    sdl_succeeds E (trace w ++ [Sdl SDL_Init; Sdl default_window; Sdl SDL_EventState])
      SDL_CreateRenderer = true ->
    main_startup E argv w
    = Ret None (add_trace (window_setup default_window ++ blue_frame) w).
Proof.
  intros E argv w Hargs Hinit Hwin Hren.
  rewrite (main_startup_run E argv w None w (startup_load_none E argv w Hargs) I).
  cbv zeta. cbn [window_for]. rewrite Hinit, Hwin, Hren. cbn [negb].
  rewrite bind_unfold, sdl_render_once_none, add_trace_add_trace. reflexivity.
Qed.

Lemma startup_without_argument_witness :
  main_startup two_files ["imgv"%string] empty_world
  = Ret None (add_trace (window_setup default_window ++ blue_frame) empty_world).
Proof.
  apply (startup_without_argument two_files ["imgv"%string] empty_world).
  - simpl. lia.
  - reflexivity.
  - reflexivity.
  - reflexivity.
Defined.

(** X17.  Started with a path that decodes, [main] prints the details of
    the image, opens a window that has the path as its title and the
    width and height of the image as its size, and presents the image
    once, with the bytes of its buffer.  Over events that are no dropped
    files it then presents nothing more, returns [EXIT_SUCCESS] at the
    first batch with a quit event, an Escape or a q, and does not free
    the image.  Arguments after the path are ignored. *)
Theorem viewing_session :
  forall E argv0 path more batches w p w1,
    world_ok w ->
    ppm_read_file E path w = Ret (Some p) w1 ->
    (forall tr c, sdl_succeeds E tr c = true) ->
    forallb passive batches = true ->
    exists f bs,
      w1 = with_image f bs w /\
      main E (argv0 :: path :: more) batches w
      = Ret (if existsb (existsb quits) batches then Some EXIT_SUCCESS else None)
          (add_trace (details_events f
                      ++ window_setup (SDL_CreateWindow path (width f) (height f))
                      ++ image_frame f bs) w1).
Proof.
  intros E argv0 path more batches w p w1 Hw Hread Hsdl Hidle.
  destruct (ppm_read_file_outcome_ret E path w (Some p) w1 Hread)
    as (f & bs & _ & _ & -> & -> & Hd & Hpath & _ & _ & _ & Hlen & _).
  pose proof (image_at_with_image f bs w Hd) as Himg.
  exists f, bs. split; [reflexivity|].
  assert (Himg1 : image_at (add_trace (details_events f) (with_image f bs w))
                    (Pos.succ (next w)) f bs) by exact Himg.
  assert (Hload : startup_load E (argv0 :: path :: more) w
                  = Ret (Some (Pos.succ (next w)))
                      (add_trace (details_events f) (with_image f bs w)))
    by (apply (startup_load_image E argv0 path more w _ _ f Hread), Himg).
  assert (Hwin : window_for (add_trace (details_events f) (with_image f bs w))
                   (Some (Pos.succ (next w)))
                 = SDL_CreateWindow path (width f) (height f)).
  { unfold window_for. destruct Himg1 as (-> & _). now rewrite Hpath. }
  unfold main. rewrite bind_unfold.
  rewrite (main_startup_run E _ w _ _ Hload) by (now exists f, bs).
  cbv zeta. rewrite Hwin, !Hsdl. cbn [negb].
  rewrite bind_unfold.
  assert (Himg2 : forall es,
            image_at (add_trace es (add_trace (details_events f) (with_image f bs w)))
              (Pos.succ (next w)) f bs) by (intros es; exact Himg).
  rewrite (sdl_render_once_image E _ f bs _ (Himg2 _) Hlen).
  rewrite !Hsdl. cbn [negb]. unfold ret at 1.
  rewrite event_loop_passive by done.
  rewrite !add_trace_add_trace. reflexivity.
Qed.

Lemma viewing_session_witness :
  exists f bs,
    with_image (image_a 1%positive) [Some 255; Some 3; Some 2; Some 1] empty_world
    = with_image f bs empty_world /\
    main two_files ["imgv"%string; "a.ppm"%string; "b.ppm"%string]
      [[SDL_KEYDOWN 97]; [SDL_OTHER; SDL_KEYDOWN SDLK_ESCAPE]] empty_world
    = Ret (if existsb (existsb quits)
                [[SDL_KEYDOWN 97]; [SDL_OTHER; SDL_KEYDOWN SDLK_ESCAPE]]
           then Some EXIT_SUCCESS else None)
        (add_trace (details_events f
                    ++ window_setup (SDL_CreateWindow "a.ppm" (width f) (height f))
                    ++ image_frame f bs)
           (with_image (image_a 1%positive) [Some 255; Some 3; Some 2; Some 1]
              empty_world)).
Proof.
  apply (viewing_session two_files "imgv"%string "a.ppm"%string ["b.ppm"%string]
           [[SDL_KEYDOWN 97]; [SDL_OTHER; SDL_KEYDOWN SDLK_ESCAPE]]
           empty_world 2%positive).
  - exact empty_world_ok.
  - reflexivity.
  - reflexivity.
  - reflexivity.
Defined.

(** X18.  After the image was or was not loaded, [main] calls [SDL_Init],
    [SDL_CreateWindow], with the path, width and height of the image or
    with "imgv", 500 and 500, [SDL_EventState] and [SDL_CreateRenderer],
    in this order.  The first of [SDL_Init], [SDL_CreateWindow] and
    [SDL_CreateRenderer] that fails ends the process with [EXIT_FAILURE]
    after one line on [stderr]: nothing is drawn and no event is polled.
    When the three succeed the image or the background is presented and
    the event loop starts. *)
Theorem startup_sequence :
  forall E argv batches w ppm_file w1,
    world_ok w ->
    startup_load E argv w = Ret ppm_file w1 ->
    main E argv batches w
    = if negb (sdl_succeeds E (trace w1) SDL_Init)
      then Exit EXIT_FAILURE (add_trace init_failure w1)
      else if negb (sdl_succeeds E (trace w1 ++ [Sdl SDL_Init])
                      (window_for w1 ppm_file))
      then Exit EXIT_FAILURE (add_trace (window_failure (window_for w1 ppm_file)) w1)
      else if negb (sdl_succeeds E
                      (trace w1 ++ [Sdl SDL_Init; Sdl (window_for w1 ppm_file);
                                    Sdl SDL_EventState])
                      SDL_CreateRenderer)
      then Exit EXIT_FAILURE (add_trace (renderer_failure (window_for w1 ppm_file)) w1)
      else (sdl_render_once E ppm_file;; event_loop E batches ppm_file)
             (add_trace (window_setup (window_for w1 ppm_file)) w1).
Proof.
  intros E argv batches w ppm_file w1 Hw Hload.
  pose proof (startup_load_keeps E argv w Hw) as Hkeeps.
  rewrite Hload in Hkeeps. destruct Hkeeps as [_ Hshown].
  unfold main. rewrite bind_unfold.
  rewrite (main_startup_run E argv w ppm_file w1 Hload Hshown). cbv zeta.
  destruct (negb (sdl_succeeds E (trace w1) SDL_Init)); [reflexivity|].
  destruct (negb (sdl_succeeds E _ (window_for w1 ppm_file))); [reflexivity|].
  destruct (negb (sdl_succeeds E _ SDL_CreateRenderer)); [reflexivity|].
  rewrite !bind_unfold.
  destruct (sdl_render_once E ppm_file _); reflexivity.
Qed.

Lemma startup_sequence_witness :
  main no_display ["imgv"%string; "gone.ppm"%string] [[SDL_QUIT]] empty_world
  = if negb (sdl_succeeds no_display
               (trace (add_trace [open_error "gone.ppm"] empty_world)) SDL_Init)
    then Exit EXIT_FAILURE
           (add_trace init_failure (add_trace [open_error "gone.ppm"] empty_world))
    else if negb (sdl_succeeds no_display
                    (trace (add_trace [open_error "gone.ppm"] empty_world)
                     ++ [Sdl SDL_Init])
                    (window_for (add_trace [open_error "gone.ppm"] empty_world) None))
    then Exit EXIT_FAILURE
           (add_trace (window_failure
                         (window_for (add_trace [open_error "gone.ppm"] empty_world)
                            None))
              (add_trace [open_error "gone.ppm"] empty_world))
    else if negb (sdl_succeeds no_display
                    (trace (add_trace [open_error "gone.ppm"] empty_world)
                     ++ [Sdl SDL_Init;
                         Sdl (window_for (add_trace [open_error "gone.ppm"] empty_world)
                                None);
                         Sdl SDL_EventState])
                    SDL_CreateRenderer)
    then Exit EXIT_FAILURE
           (add_trace (renderer_failure
                         (window_for (add_trace [open_error "gone.ppm"] empty_world)
                            None))
              (add_trace [open_error "gone.ppm"] empty_world))
    else (sdl_render_once no_display None;; event_loop no_display [[SDL_QUIT]] None)
           (add_trace (window_setup
                         (window_for (add_trace [open_error "gone.ppm"] empty_world)
                            None))
              (add_trace [open_error "gone.ppm"] empty_world)).
Proof.
  apply (startup_sequence no_display ["imgv"%string; "gone.ppm"%string] [[SDL_QUIT]]
           empty_world None (add_trace [open_error "gone.ppm"] empty_world)).
  - exact empty_world_ok.
  - reflexivity.
Defined.

(** X19.  Width and height are read with [%i] as signed numbers and are
    not checked: a size with a sign, or one beyond the range of [int], is
    taken as [strtol] returns it, converted to [int].  The image is
    built, with that width and height in its struct, whenever their
    product as an [int] is not negative, fits a buffer, and is the number
    of pixels that follow. *)
Theorem header_numbers_are_not_checked :
  forall E path w tw th tm px trailing,
    fopen E path = Some (ppm_text tw th tm px trailing) ->
    decimal_token tw = true -> decimal_token th = true -> decimal_token tm = true ->
    forallb pixel_ok px = true ->
    delimited trailing = true ->
    Z.of_nat (length px) = num_pixels (header_of tw th tm) ->
    num_pixels (header_of tw th tm) * 4 < 2 ^ 31 ->
    malloc_succeeds E (next w) (num_pixels (header_of tw th tm) * 4) = true ->
    malloc_succeeds E (Pos.succ (next w)) sizeof_PPMFile = true ->
    ppm_read_file E path w
    = Ret (Some (Pos.succ (next w)))
        (with_image (decoded path (header_of tw th tm) (next w))
           (flat_map cell (map pixel_value px)) w).
Proof.
  intros E path w tw th tm px trailing Hopen Hw Hh Hm Hpx Htrail Hlen Hmax
    Hbuf Hstruct.
  pose proof (header_scans_text tw th tm px trailing Hw Hh Hm Hpx Htrail) as Hhead.
  rewrite (ppm_read_file_fits E path w _ _ _ Hopen Hhead) by (done || lia).
  cbv zeta. rewrite <- Hlen, Nat2Z.id.
  rewrite (scan_triplets_pixels px trailing Hpx Htrail), Hstruct.
  unfold partly_written. rewrite length_map, Nat.sub_diag, Nat.mul_0_r.
  cbn [replicate]. now rewrite app_nil_r.
Qed.

Lemma header_numbers_are_not_checked_witness :
  ppm_read_file (one_file "odd.ppm" "P3 -2 -4294967297 +7 1 2 3 4 5 6") "odd.ppm"
    empty_world
  = Ret (Some (Pos.succ (next empty_world)))
      (with_image
         (decoded "odd.ppm"
            (header_of (signed_tok " " true "2") (signed_tok " " true "4294967297")
               (signed_tok " " false "7"))
            (next empty_world))
         (flat_map cell
            (map pixel_value [(tok " " "1", tok " " "2", tok " " "3");
                              (tok " " "4", tok " " "5", tok " " "6")]))
         empty_world).
Proof.
  apply (header_numbers_are_not_checked
           (one_file "odd.ppm" "P3 -2 -4294967297 +7 1 2 3 4 5 6")
           "odd.ppm"%string empty_world
           (signed_tok " " true "2") (signed_tok " " true "4294967297")
           (signed_tok " " false "7")
           [(tok " " "1", tok " " "2", tok " " "3");
            (tok " " "4", tok " " "5", tok " " "6")] []).
  - reflexivity.
  - reflexivity.
  - reflexivity.
  - reflexivity.
  - reflexivity.
  - reflexivity.
  - reflexivity.
  - vm_compute. reflexivity.
  - reflexivity.
  - reflexivity.
Defined.

(** X20.  An event makes the viewer present at most one frame: exactly
    one when it is a dropped file that decodes, none otherwise, and none
    when handling it ends in [exit].  A dropped path is given back with
    [SDL_free] as the last thing done for the event, whether the file
    decoded or not. *)
Theorem one_frame_for_each_image :
  forall E ev ppm_file running w,
    viewer_ok w ppm_file ->
    match handle_event E ev (ppm_file, running) w with
    | Ret _ w' =>
        exists es,
          trace w' = trace w ++ es /\
          presents es = (if loads E ev w then 1 else 0)%nat /\
          match ev with
          | SDL_DROPFILE file => last es = Some (Sdl (SDL_free file))
          | _ => es = []
          end
    | Exit _ w' => exists es, trace w' = trace w ++ es /\ presents es = 0%nat
    | Undefined => True
    end.
Proof.
  intros E ev p r w Hok.
  destruct (is_drop ev) eqn:Hdrop.
  { destruct ev as [| |file|]; try discriminate. cbn [loads]. unfold returned_image.
    destruct (ppm_read_file E file w) as [[p1|] w1|st w1|] eqn:Hread.
    - destruct (update_state_success E file p w p1 w1 Hok Hread)
        as (f & bs & w2 & -> & -> & _ & Hlen & Hup & Hafter & _ & Himg).
      rewrite (handle_drop_success E file p r w _ w2 f bs Hup Himg Hlen).
      assert (Hw2 : exists es0, trace w2 = trace w ++ es0 /\ presents es0 = 0%nat).
      { destruct p as [a|].
        - destruct Hafter as (fa & bsa & _ & ->). eexists. split; [reflexivity|].
          reflexivity.
        - rewrite Hafter. eexists. split; reflexivity. }
      destruct Hw2 as (es0 & Htr & Hnone).
      destruct (negb (sdl_succeeds E (trace w2) _)).
      { eexists. cbn [add_trace trace]. rewrite Htr, <- app_assoc.
        split; [reflexivity|]. now rewrite presents_app, Hnone. }
      destruct (negb (sdl_succeeds E _ SDL_LockTexture)).
      { eexists. cbn [add_trace trace]. rewrite Htr, <- app_assoc.
        split; [reflexivity|]. now rewrite presents_app, Hnone. }
      eexists. cbn [add_trace trace]. rewrite Htr, <- app_assoc.
      split; [reflexivity|]. split.
      + now rewrite !presents_app, Hnone.
      + now rewrite !app_assoc, last_snoc.
    - rewrite (handle_drop_failure E file p r w w1 Hread).
      destruct (ppm_read_file_returns E file w None w1 (proj1 Hok) Hread)
        as (_ & _ & fmt & args & Htr).
      eexists. cbn [add_trace trace]. rewrite Htr, <- app_assoc.
      split; [reflexivity|]. split; reflexivity.
    - now apply ppm_read_file_no_exit in Hread.
    - now rewrite handle_drop_undefined. }
  rewrite handle_event_passive by done.
  exists []. split; [now rewrite app_nil_r|].
  now destruct ev.
Qed.

Lemma one_frame_for_each_image_witness :
  match handle_event two_files (SDL_DROPFILE "b.ppm") (Some 2%positive, true)
          one_image with
  | Ret _ w' =>
      exists es,
        trace w' = trace one_image ++ es /\
        presents es
        = (if loads two_files (SDL_DROPFILE "b.ppm") one_image then 1 else 0)%nat /\
        last es = Some (Sdl (SDL_free "b.ppm"))
  | Exit _ w' => exists es, trace w' = trace one_image ++ es /\ presents es = 0%nat
  | Undefined => True
  end.
Proof.
  apply (one_frame_for_each_image two_files (SDL_DROPFILE "b.ppm")
           (Some 2%positive) true one_image).
  exact viewer_ok_one_image.
Defined.

(** X21.  What [update_state] returns tells what it did.  It returns
    [true] exactly when the decoder returned an image: [*ppm_file] is then
    the new image and the one it held before, if any, is destroyed.  It
    returns [false] exactly when the decoder returned [NULL]: [*ppm_file]
    is then what it was and [update_state] has done nothing of its own. *)
Theorem update_state_reports_the_change :
  forall E path old w updated ppm_file w2,
    viewer_ok w old ->
    update_state E path old w = Ret (updated, ppm_file) w2 ->
    (updated = true /\ ppm_file = Some (Pos.succ (next w)) /\
     exists f bs,
       ppm_read_file E path w = Ret (Some (Pos.succ (next w))) (with_image f bs w) /\
       after_update old w f bs w2) \/
    (updated = false /\ ppm_file = old /\ ppm_read_file E path w = Ret None w2).
Proof.
  intros E path old w updated ppm_file w2 Hok Hup.
  destruct (ppm_read_file E path w) as [[p|] w1|st w1|] eqn:Hread.
  - destruct (update_state_success E path old w p w1 Hok Hread)
      as (f & bs & w2' & -> & -> & _ & _ & Hup' & Hafter & _).
    rewrite Hup' in Hup. injection Hup as <- <- <-.
    left. split; [reflexivity|]. split; [reflexivity|]. now exists f, bs.
  - rewrite (update_state_failed E path old w w1 Hread) in Hup.
    injection Hup as <- <- <-. now right.
  - unfold update_state in Hup. rewrite bind_unfold, Hread in Hup. discriminate.
  - unfold update_state in Hup. rewrite bind_unfold, Hread in Hup. discriminate.
Qed.

Lemma update_state_reports_the_change_witness :
  (false = true /\ Some 2%positive = Some (Pos.succ (next one_image)) /\
   exists f bs,
     ppm_read_file two_files "gone.ppm" one_image
     = Ret (Some (Pos.succ (next one_image))) (with_image f bs one_image) /\
     after_update (Some 2%positive) one_image f bs
       (add_trace [open_error "gone.ppm"] one_image)) \/
  (false = false /\ Some 2%positive = Some 2%positive /\
   ppm_read_file two_files "gone.ppm" one_image
   = Ret None (add_trace [open_error "gone.ppm"] one_image)).
Proof.
  apply (update_state_reports_the_change two_files "gone.ppm"%string
           (Some 2%positive) one_image false (Some 2%positive)
           (add_trace [open_error "gone.ppm"] one_image)).
  - exact viewer_ok_one_image.
  - reflexivity.
Defined.

(** X22.  The decoder knows no comments: when the first thing after the
    tag that is not white space is a [#], as in the files many programs
    write, the dimensions cannot be read and the file is refused with
    "Error reading image dimensions.". *)
Theorem comments_are_not_skipped :
  forall E path w sp comment,
    fopen E path = Some ("P"%char :: "3"%char :: sp ++ "#"%char :: comment) ->
    forallb isspace sp = true ->
    ppm_read_file E path w = Ret None (add_trace [dimension_error] w).
Proof.
  intros E path w sp comment Hopen Hsp.
  assert (Heat : eat_space (sp ++ "#"%char :: comment) = "#"%char :: comment).
  { clear Hopen. induction sp as [|c sp IH]; [reflexivity|].
    simpl in *. apply andb_true_iff in Hsp as [-> Hsp]. now apply IH. }
  apply (ppm_read_file_dimension_error E path _ (sp ++ "#"%char :: comment) w Hopen);
    [reflexivity|].
  intros wd f2 ht f3 Hwd.
  apply scan_i_fails in Hwd; [done|].
  unfold numeric_start. now rewrite Heat.
Qed.

Lemma comments_are_not_skipped_witness :
  ppm_read_file (friendly [("gimp.ppm"%string, commented)]) "gimp.ppm" empty_world
  = Ret None (add_trace [dimension_error] empty_world).
Proof.
  apply (comments_are_not_skipped (friendly [("gimp.ppm"%string, commented)])
           "gimp.ppm"%string empty_world (text_of nl)
           (text_of (String.append " made by hand" (String.append nl "1 1 255 1 2 3")))).
  - reflexivity.
  - reflexivity.
Defined.

(** X23.  A width written with a leading zero is read in base eight, as
    [%i] does: [010] is a width of 8.  The image is built with that width
    whenever the pixels that follow are as many as it and the height
    ask for. *)
Theorem leading_zero_is_octal :
  forall E path w sp ds th tm px trailing,
    fopen E path = Some (octal_width_text sp ds th tm px trailing) ->
    blank sp = true -> octal ds = true ->
    decimal_token th = true -> decimal_token tm = true ->
    forallb pixel_ok px = true ->
    delimited trailing = true ->
    Z.of_nat (length px)
    = num_pixels (header (octal_value ds) (int_value th) (int_value tm)) ->
    num_pixels (header (octal_value ds) (int_value th) (int_value tm)) * 4 < 2 ^ 31 ->
    malloc_succeeds E (next w)
      (num_pixels (header (octal_value ds) (int_value th) (int_value tm)) * 4) = true ->
    malloc_succeeds E (Pos.succ (next w)) sizeof_PPMFile = true ->
    ppm_read_file E path w
    = Ret (Some (Pos.succ (next w)))
        (with_image
           (decoded path (header (octal_value ds) (int_value th) (int_value tm))
              (next w))
           (flat_map cell (map pixel_value px)) w).
Proof.
  intros E path w sp ds th tm px trailing Hopen Hsp Hds Hh Hm Hpx Htrail Hlen Hmax
    Hbuf Hstruct.
  pose proof (header_scans_octal sp ds th tm px trailing Hsp Hds Hh Hm Hpx Htrail)
    as Hhead.
  rewrite (ppm_read_file_fits E path w _ _ _ Hopen Hhead) by (done || lia).
  cbv zeta. rewrite <- Hlen, Nat2Z.id.
  rewrite (scan_triplets_pixels px trailing Hpx Htrail), Hstruct.
  unfold partly_written. rewrite length_map, Nat.sub_diag, Nat.mul_0_r.
  cbn [replicate]. now rewrite app_nil_r.
Qed.

Lemma leading_zero_is_octal_witness :
  ppm_read_file (one_file "oct.ppm" "P3 010 1 255 1 1 1 2 2 2 3 3 3 4 4 4 5 5 5 6 6 6 7 7 7 8 8 8")
    "oct.ppm" empty_world
  = Ret (Some (Pos.succ (next empty_world)))
      (with_image
         (decoded "oct.ppm"
            (header (octal_value (text_of "10")) (int_value (tok " " "1"))
               (int_value (tok " " "255")))
            (next empty_world))
         (flat_map cell
            (map pixel_value
               [(tok " " "1", tok " " "1", tok " " "1");
                (tok " " "2", tok " " "2", tok " " "2");
                (tok " " "3", tok " " "3", tok " " "3");
                (tok " " "4", tok " " "4", tok " " "4");
                (tok " " "5", tok " " "5", tok " " "5");
                (tok " " "6", tok " " "6", tok " " "6");
                (tok " " "7", tok " " "7", tok " " "7");
                (tok " " "8", tok " " "8", tok " " "8")]))
         empty_world).
Proof.
  apply (leading_zero_is_octal
           (one_file "oct.ppm" "P3 010 1 255 1 1 1 2 2 2 3 3 3 4 4 4 5 5 5 6 6 6 7 7 7 8 8 8")
           "oct.ppm"%string empty_world (text_of " ") (text_of "10")
           (tok " " "1") (tok " " "255")
           [(tok " " "1", tok " " "1", tok " " "1");
            (tok " " "2", tok " " "2", tok " " "2");
            (tok " " "3", tok " " "3", tok " " "3");
            (tok " " "4", tok " " "4", tok " " "4");
            (tok " " "5", tok " " "5", tok " " "5");
            (tok " " "6", tok " " "6", tok " " "6");
            (tok " " "7", tok " " "7", tok " " "7");
            (tok " " "8", tok " " "8", tok " " "8")] []).
  - reflexivity.
  - reflexivity.
  - reflexivity.
  - reflexivity.
  - reflexivity.
  - reflexivity.
  - reflexivity.
  - reflexivity.
  - vm_compute. reflexivity.
  - reflexivity.
  - reflexivity.
Defined.

(** X24.  Replacing the image on display by a newly decoded one leaves as
    many blocks in the heap as there were: the two blocks of the old image
    are freed and the two of the new one take their place.  (The heap is
    that of the program's own calls of [malloc]; the stream the decoder
    opens for each load, which nothing closes, is not counted.) *)
Theorem replacing_keeps_the_block_count :
  forall E path a w ppm_file w2,
    viewer_ok w (Some a) ->
    update_state E path (Some a) w = Ret (true, ppm_file) w2 ->
    size (heap w2) = size (heap w).
Proof.
  intros E path a w ppm_file w2 Hok Hup.
  destruct (ppm_read_file E path w) as [[p|] w1|st w1|] eqn:Hread.
  - destruct (update_state_success E path (Some a) w p w1 Hok Hread)
      as (f & bs & w2' & -> & -> & Hd & _ & Hup' & Hafter & _).
    rewrite Hup' in Hup. injection Hup as _ <-.
    destruct Hafter as (fa & bsa & (Ha & Hda & Hne) & ->).
    destruct Hok as [Hw _].
    pose proof (Hw _ _ Ha). pose proof (Hw _ _ Hda).
    assert (Hfresh : forall b, (next w <= b)%positive -> heap w !! b = None).
    { intros b Hb. destruct (heap w !! b) eqn:Hl; [|done]. apply Hw in Hl. lia. }
    unfold add_trace, set_heap, with_image. cbn [heap].
    rewrite map_size_delete_Some, map_size_delete_Some.
    + rewrite map_size_insert_None, map_size_insert_None; [reflexivity| |].
      * apply Hfresh. lia.
      * rewrite lookup_insert_ne by lia. apply Hfresh. lia.
    + rewrite !lookup_insert_ne by lia. eauto.
    + rewrite lookup_delete_ne, !lookup_insert_ne by lia. eauto.
  - rewrite (update_state_failed E path (Some a) w w1 Hread) in Hup. discriminate.
  - unfold update_state in Hup. rewrite bind_unfold, Hread in Hup. discriminate.
  - unfold update_state in Hup. rewrite bind_unfold, Hread in Hup. discriminate.
Qed.

Lemma replacing_keeps_the_block_count_witness :
  size (heap (add_trace (destroy_events 2%positive
                           {| path := "old.ppm"; magic_number := text_of "P3";
                              width := 1; height := 1; max_color := 255;
                              data := 1%positive |}
                         ++ adoption_events 4%positive (image_a 3%positive))
                (set_heap (delete 2%positive
                             (delete 1%positive
                                (heap (with_image (image_a 3%positive)
                                         [Some 255; Some 3; Some 2; Some 1]
                                         one_image))))
                   (with_image (image_a 3%positive)
                      [Some 255; Some 3; Some 2; Some 1] one_image))))
  = size (heap one_image).
Proof.
  apply (replacing_keeps_the_block_count two_files "a.ppm"%string 2%positive one_image
           (Some 4%positive)).
  - exact viewer_ok_one_image.
  - reflexivity.
Defined.

End Properties.
